(** * KFly flight-control core: arming gate, control cascade, output mixer

    A shallow embedding of control.c (the arming thread, the RC-to-reference
    conversion, the attitude and rate stages, the output mixer, the forced
    disarm, the flash parameter load and the gain accessors) together with
    the properties the design document states about them.

    Numbers.  The C code computes in [float].  Here a [float] is an exact
    rational: the arithmetic is the ideal arithmetic of the formulas, without
    rounding, infinities or NaN.  The integer counters keep their C widths
    (the arming timers are [uint16_t] and wrap at 65536).

    Arrays.  A fixed-size C array such as [float pwm_out[8]] is a total map
    from the index to the element; the code only ever reads and writes the
    indices below the array's size.

    What lives outside control.c (the PI update, libm, the RC input driver,
    the output driver, the flash store, the constants of control.h) is taken
    as a variable of the section, or as an input of the step it feeds. *)

From Stdlib Require Import ZArith QArith Qabs List Bool Lia Lqa.
Import ListNotations.

(* ===================================================================== *)
(** ** Numbers *)
(* ===================================================================== *)

Definition float : Type := Q.

(** [a <= b] on floats. *)
Definition fle (a b : float) : bool := Qle_bool a b.

(** [a < b] on floats. *)
Definition flt (a b : float) : bool :=
  match (a ?= b)%Q with Lt => true | _ => false end.

(** [uint16_t] post-increment. *)
Definition incr16 (n : Z) : Z := ((n + 1) mod 65536)%Z.

(** Modelled from the spec: [bound(max, min, x)] of the numeric helpers is
    not part of the files at hand; the design document uses it as the clamp
    of [x] into the interval from [min] to [max], and control.c calls it
    with the upper limit first. *)
Definition bound (max min x : float) : float :=
  if flt max x then max else if flt x min then min else x.

(** A C array updated at one index. *)
Definition upd {A : Type} (a : nat -> A) (i : nat) (v : A) : nat -> A :=
  fun j => if Nat.eqb j i then v else a j.

(* ===================================================================== *)
(** ** Types of control.h, as control.c uses them *)
(* ===================================================================== *)

Record vector3f_t := mk_vector3f { x : float; y : float; z : float }.

Record quaternion_t := mk_quaternion
  { q0 : float; q1 : float; q2 : float; q3 : float }.

Inductive Flight_Mode :=
| FLIGHTMODE_DISARMED
| FLIGTMODE_DIRECT_PWM
| FLIGHTMODE_DIRECT_CONTROL
| FLIGHTMODE_RATE
| FLIGHTMODE_ATTITUDE
| FLIGHTMODE_VELOCITY
| FLIGHTMODE_POSITION.

Definition Flight_Mode_eqb (a b : Flight_Mode) : bool :=
  match a, b with
  | FLIGHTMODE_DISARMED, FLIGHTMODE_DISARMED
  | FLIGTMODE_DIRECT_PWM, FLIGTMODE_DIRECT_PWM
  | FLIGHTMODE_DIRECT_CONTROL, FLIGHTMODE_DIRECT_CONTROL
  | FLIGHTMODE_RATE, FLIGHTMODE_RATE
  | FLIGHTMODE_ATTITUDE, FLIGHTMODE_ATTITUDE
  | FLIGHTMODE_VELOCITY, FLIGHTMODE_VELOCITY
  | FLIGHTMODE_POSITION, FLIGHTMODE_POSITION => true
  | _, _ => false
  end.

(** Only [TARGET_GOAL] is named by control.c. *)
Inductive Target_Direcion := TARGET_GOAL | TARGET_OTHER.

(** The stick gesture of the arm settings.  The six directions and
    [STICK_NONE] are the values control.c names; [STICK_UNKNOWN] stands for
    any other stored value, which the [switch] sends to [default]. *)
Inductive Arming_Stick_Direction :=
| STICK_NONE
| STICK_PITCH_MIN | STICK_PITCH_MAX
| STICK_ROLL_MIN | STICK_ROLL_MAX
| STICK_YAW_MIN | STICK_YAW_MAX
| STICK_UNKNOWN.

Inductive Arming_Stick_Region :=
| STICK_NO_REGION | STICK_ARM_REGION | STICK_DISARM_REGION.

Inductive Input_Role_Selector :=
| ROLE_THROTTLE | ROLE_PITCH | ROLE_ROLL | ROLE_YAW | ROLE_AUX1.

Record Control_Arm_Settings := mk_arm_settings
  { stick_threshold : float;
    armed_min_throttle : float;
    stick_direction : Arming_Stick_Direction;
    arm_stick_time : Z;
    arm_zero_throttle_timeout : Z }.

Record Control_Signals := mk_signals
  { throttle : float; pitch : float; roll : float; yaw : float }.

Record Control_Reference := mk_reference
  { mode : Flight_Mode;
    target : Target_Direcion;
    attitude_reference : vector3f_t;
    rate_reference : vector3f_t;
    actuator_desired : Control_Signals;
    pwm_out : nat -> float }.

Record angle_limits := mk_angle_limits
  { lim_pitch : float; lim_roll : float }.

Record rate_limits := mk_rate_limits
  { rl_pitch : float; rl_roll : float; rl_yaw : float }.

Record Control_Limits := mk_limits
  { max_angle : angle_limits;
    max_rate : rate_limits;
    max_rate_attitude : angle_limits }.

(** [float weights[8][4]]. *)
Record Output_Mixer := mk_mixer { weights : nat -> nat -> float }.

(** Modelled from the spec: [PI_Data] is declared outside control.c, which
    only casts it to an array of floats and copies the first three.  The
    design document names these three [Kp], [Ki] and [output_min];
    [pi_tail] is whatever floats follow them (the controller's state). *)
Record PI_Data := mk_pi
  { Kp : float; Ki : float; output_min : float; pi_tail : list float }.

(** Modelled from the spec: [PI_Parameters], declared outside control.c, is
    the triple of floats kept per controller in the parameter store. *)
Record PI_Parameters := mk_par
  { par_Kp : float; par_Ki : float; par_output_min : float }.

(** [control_data] seen as the accessors see it after their cast: an array of
    [PI_Data]. *)
Definition Control_Data : Type := nat -> PI_Data.

Definition Control_Parameters : Type := nat -> PI_Parameters.

(** What the RC input driver answers during one step. *)
Record RC_Input := mk_rc
  { bActiveRCInputConnection : bool;
    RCInputGetInputLevel : Input_Role_Selector -> float }.

(** The static [t1], [t2], [t3] of [vRateControl]. *)
Record Rate_Filter := mk_filter { t1 : float; t2 : float; t3 : float }.

(** The static variables of control.c.  [rate_filter] holds the statics of
    [vRateControl]; [cycle] is the static [i] of [vUpdateControlAction];
    [rc_output] lists the calls made to
    [RCOutputSetChannelWidthRelativePositive], oldest first. *)
Record Control_State := mk_state
  { control_reference : Control_Reference;
    control_data : Control_Data;
    arm_settings : Control_Arm_Settings;
    control_limits : Control_Limits;
    output_mixer : Output_Mixer;
    flash_save_control_parameters : Control_Parameters;
    controllers_armed : bool;
    rate_filter : Rate_Filter;
    cycle : Z;
    rc_output : list (nat * float) }.

(** The local counters of the arming thread. *)
Record Arming_Timers := mk_timers
  { arm_time : Z; disarm_time : Z; timeout_time : Z }.

(** *** Field updates *)

Definition set_control_reference (v : Control_Reference) (s : Control_State) :=
  mk_state v (control_data s) (arm_settings s) (control_limits s)
    (output_mixer s) (flash_save_control_parameters s) (controllers_armed s)
    (rate_filter s) (cycle s) (rc_output s).

Definition set_control_data (v : Control_Data) (s : Control_State) :=
  mk_state (control_reference s) v (arm_settings s) (control_limits s)
    (output_mixer s) (flash_save_control_parameters s) (controllers_armed s)
    (rate_filter s) (cycle s) (rc_output s).

Definition set_arm_settings (v : Control_Arm_Settings) (s : Control_State) :=
  mk_state (control_reference s) (control_data s) v (control_limits s)
    (output_mixer s) (flash_save_control_parameters s) (controllers_armed s)
    (rate_filter s) (cycle s) (rc_output s).

Definition set_control_limits (v : Control_Limits) (s : Control_State) :=
  mk_state (control_reference s) (control_data s) (arm_settings s) v
    (output_mixer s) (flash_save_control_parameters s) (controllers_armed s)
    (rate_filter s) (cycle s) (rc_output s).

Definition set_output_mixer (v : Output_Mixer) (s : Control_State) :=
  mk_state (control_reference s) (control_data s) (arm_settings s)
    (control_limits s) v (flash_save_control_parameters s)
    (controllers_armed s) (rate_filter s) (cycle s) (rc_output s).

Definition set_flash_save_control_parameters
  (v : Control_Parameters) (s : Control_State) :=
  mk_state (control_reference s) (control_data s) (arm_settings s)
    (control_limits s) (output_mixer s) v (controllers_armed s)
    (rate_filter s) (cycle s) (rc_output s).

Definition set_controllers_armed (v : bool) (s : Control_State) :=
  mk_state (control_reference s) (control_data s) (arm_settings s)
    (control_limits s) (output_mixer s) (flash_save_control_parameters s) v
    (rate_filter s) (cycle s) (rc_output s).

Definition set_rate_filter (v : Rate_Filter) (s : Control_State) :=
  mk_state (control_reference s) (control_data s) (arm_settings s)
    (control_limits s) (output_mixer s) (flash_save_control_parameters s)
    (controllers_armed s) v (cycle s) (rc_output s).

Definition set_cycle (v : Z) (s : Control_State) :=
  mk_state (control_reference s) (control_data s) (arm_settings s)
    (control_limits s) (output_mixer s) (flash_save_control_parameters s)
    (controllers_armed s) (rate_filter s) v (rc_output s).

Definition set_rc_output (v : list (nat * float)) (s : Control_State) :=
  mk_state (control_reference s) (control_data s) (arm_settings s)
    (control_limits s) (output_mixer s) (flash_save_control_parameters s)
    (controllers_armed s) (rate_filter s) (cycle s) v.

Definition set_mode (v : Flight_Mode) (r : Control_Reference) :=
  mk_reference v (target r) (attitude_reference r) (rate_reference r)
    (actuator_desired r) (pwm_out r).

Definition set_target (v : Target_Direcion) (r : Control_Reference) :=
  mk_reference (mode r) v (attitude_reference r) (rate_reference r)
    (actuator_desired r) (pwm_out r).

Definition set_attitude_reference (v : vector3f_t) (r : Control_Reference) :=
  mk_reference (mode r) (target r) v (rate_reference r)
    (actuator_desired r) (pwm_out r).

Definition set_rate_reference (v : vector3f_t) (r : Control_Reference) :=
  mk_reference (mode r) (target r) (attitude_reference r) v
    (actuator_desired r) (pwm_out r).

Definition set_actuator_desired (v : Control_Signals) (r : Control_Reference) :=
  mk_reference (mode r) (target r) (attitude_reference r) (rate_reference r)
    v (pwm_out r).

Definition set_pwm_out (v : nat -> float) (r : Control_Reference) :=
  mk_reference (mode r) (target r) (attitude_reference r) (rate_reference r)
    (actuator_desired r) v.

Definition set_x (v : float) (a : vector3f_t) := mk_vector3f v (y a) (z a).
Definition set_y (v : float) (a : vector3f_t) := mk_vector3f (x a) v (z a).
Definition set_z (v : float) (a : vector3f_t) := mk_vector3f (x a) (y a) v.

Definition set_throttle (v : float) (u : Control_Signals) :=
  mk_signals v (pitch u) (roll u) (yaw u).
Definition set_pitch (v : float) (u : Control_Signals) :=
  mk_signals (throttle u) v (roll u) (yaw u).
Definition set_roll (v : float) (u : Control_Signals) :=
  mk_signals (throttle u) (pitch u) v (yaw u).
Definition set_yaw (v : float) (u : Control_Signals) :=
  mk_signals (throttle u) (pitch u) (roll u) v.

(* ===================================================================== *)
(** ** The arming gate *)
(* ===================================================================== *)

(** The [switch] of [SticksInRegion]: the role the gesture is bound to and
    whether it is the minimum end; [None] is the [default] label. *)
Definition stick_role (d : Arming_Stick_Direction)
  : option (Input_Role_Selector * bool) :=
  match d with
  | STICK_PITCH_MIN => Some (ROLE_PITCH, true)
  | STICK_PITCH_MAX => Some (ROLE_PITCH, false)
  | STICK_ROLL_MIN => Some (ROLE_ROLL, true)
  | STICK_ROLL_MAX => Some (ROLE_ROLL, false)
  | STICK_YAW_MIN => Some (ROLE_YAW, true)
  | STICK_YAW_MAX => Some (ROLE_YAW, false)
  | STICK_NONE | STICK_UNKNOWN => None
  end.

Definition SticksInRegion (a : Control_Arm_Settings) (rc : RC_Input)
  : Arming_Stick_Region :=
  let threshold := stick_threshold a in
  let level := RCInputGetInputLevel rc ROLE_THROTTLE in
  if fle level threshold then
    match stick_role (stick_direction a) with
    | None => STICK_NO_REGION
    | Some (sel, is_min) =>
        let threshold := (1 - 2 * threshold)%Q in
        let level := RCInputGetInputLevel rc sel in
        if is_min then
          if fle level (- threshold)%Q then STICK_ARM_REGION
          else if fle threshold level then STICK_DISARM_REGION
          else STICK_NO_REGION
        else
          if fle threshold level then STICK_ARM_REGION
          else if fle level (- threshold)%Q then STICK_DISARM_REGION
          else STICK_NO_REGION
    end
  else STICK_NO_REGION.

Definition is_STICK_NONE (d : Arming_Stick_Direction) : bool :=
  match d with STICK_NONE => true | _ => false end.

Section Arming.

(** [ARM_RATE] of control.h: the arming thread's ticks per second. *)
Variable ARM_RATE : Z.

(** [(t / ARM_RATE) > limit], in C's integer arithmetic. *)
Definition time_reached (t limit : Z) : bool :=
  (Z.quot t ARM_RATE >? limit)%Z.

(** One turn of the loop of [ThreadControlArming], after its sleep.  The
    error LED, which only mirrors [controllers_armed], is left out. *)
Definition ThreadControlArming_tick (rc : RC_Input)
  (st : Control_State * Arming_Timers) : Control_State * Arming_Timers :=
  let (s, tm) := st in
  let a := arm_settings s in
  if bActiveRCInputConnection rc && negb (is_STICK_NONE (stick_direction a))
  then
    if flt (RCInputGetInputLevel rc ROLE_AUX1) (1 # 2) then
      (set_controllers_armed false s, mk_timers 0 0 0)
    else
      match SticksInRegion a rc with
      | STICK_ARM_REGION =>
          if time_reached (arm_time tm) (arm_stick_time a) then
            (set_controllers_armed true s, tm)
          else
            (s, mk_timers (incr16 (arm_time tm)) 0 0)
      | STICK_DISARM_REGION =>
          if time_reached (disarm_time tm) (arm_stick_time a) then
            (set_controllers_armed false s, tm)
          else
            (s, mk_timers 0 (incr16 (disarm_time tm)) 0)
      | STICK_NO_REGION =>
          let tm := mk_timers 0 0 (timeout_time tm) in
          if (arm_zero_throttle_timeout a =? 0)%Z then (s, tm)
          else if fle (RCInputGetInputLevel rc ROLE_THROTTLE)
                      (stick_threshold a) then
            if time_reached (timeout_time tm) (arm_zero_throttle_timeout a)
            then (set_controllers_armed false s, tm)
            else (s, mk_timers 0 0 (incr16 (timeout_time tm)))
          else (s, mk_timers 0 0 0)
      end
  else
    (set_controllers_armed false s, tm).

(** The loop run over the successive answers of the RC input driver. *)
Definition ThreadControlArming (rcs : list RC_Input)
  (st : Control_State * Arming_Timers) : Control_State * Arming_Timers :=
  fold_left (fun st rc => ThreadControlArming_tick rc st) rcs st.

End Arming.

(* ===================================================================== *)
(** ** The control cycle *)
(* ===================================================================== *)

Section Control.

(** [DEG2RAD] of the trigonometry header. *)
Variable DEG2RAD : float.

(** [atan2f] and [asinf] of libm. *)
Variable atan2f : float -> float -> float.
Variable asinf : float -> float.

(** [fPIUpdate(pi, error, dt)] of the PI module: the controller as it is
    left, and the control signal. *)
Variable fPIUpdate : PI_Data -> float -> float -> PI_Data * float.

(** Where [attitude_controller[0]] and [rate_controller[0]] stand in
    [control_data], counted in controllers. *)
Variable attitude_controller : nat.
Variable rate_controller : nat.

(** [const Flight_Mode selector = FLIGHTMODE_ATTITUDE;] *)
Definition selector : Flight_Mode := FLIGHTMODE_ATTITUDE.

Definition vRCInputsToControlAction (rc : RC_Input) (s : Control_State)
  : Control_State :=
  let level := RCInputGetInputLevel rc in
  let lim := control_limits s in
  let cr := control_reference s in
  if controllers_armed s then
    let cr :=
      if Flight_Mode_eqb selector FLIGHTMODE_RATE then
        let cr := set_mode FLIGHTMODE_RATE cr in
        let cr := set_rate_reference
                    (set_x (rl_pitch (max_rate lim) * DEG2RAD
                            * level ROLE_PITCH)
                           (rate_reference cr)) cr in
        set_rate_reference
          (set_y (rl_roll (max_rate lim) * DEG2RAD * level ROLE_ROLL)
                 (rate_reference cr)) cr
      else
        let cr := set_mode FLIGHTMODE_ATTITUDE cr in
        let cr := set_attitude_reference
                    (set_x (lim_pitch (max_angle lim) * DEG2RAD
                            * level ROLE_PITCH)
                           (attitude_reference cr)) cr in
        set_attitude_reference
          (set_y (lim_roll (max_angle lim) * DEG2RAD * level ROLE_ROLL)
                 (attitude_reference cr)) cr in
    let cr := set_rate_reference
                (set_z (rl_yaw (max_rate lim) * DEG2RAD * level ROLE_YAW)
                       (rate_reference cr)) cr in
    let thr := level ROLE_THROTTLE in
    let floor := armed_min_throttle (arm_settings s) in
    let cr := set_actuator_desired
                (set_throttle (if flt thr floor then floor else thr)
                              (actuator_desired cr)) cr in
    set_control_reference cr s
  else
    set_control_reference (set_mode FLIGHTMODE_DISARMED cr) s.

(** The position and velocity stages are empty hooks. *)
Definition vPositionControl (position_m : option vector3f_t) (dt : float)
  (s : Control_State) : Control_State := s.

Definition vVelocityControl (velocity_m : option vector3f_t) (dt : float)
  (s : Control_State) : Control_State := s.

(** [err] of [vAttitudeControl]. *)
Definition attitude_error (cr : Control_Reference) (attitude_m : quaternion_t)
  : vector3f_t :=
  let q := attitude_m in
  mk_vector3f
    (x (attitude_reference cr)
     + atan2f (2 * (q0 q * q1 q + q2 q * q3 q))
              (1 - 2 * (q1 q * q1 q + q2 q * q2 q)))
    (x (attitude_reference cr)
     - asinf (2 * (q0 q * q2 q - q1 q * q3 q)))
    0.

Definition vAttitudeControl (attitude_m : quaternion_t) (control_yaw : bool)
  (dt : float) (s : Control_State) : Control_State :=
  let err := attitude_error (control_reference s) attitude_m in
  let cd := control_data s in
  let (c0, ux) := fPIUpdate (cd (attitude_controller + 0)%nat) (y err) dt in
  let cd := upd cd (attitude_controller + 0)%nat c0 in
  let (c1, uy) := fPIUpdate (cd (attitude_controller + 1)%nat) (x err) dt in
  let cd := upd cd (attitude_controller + 1)%nat c1 in
  let lim := max_rate_attitude (control_limits s) in
  let cr := control_reference s in
  let cr := set_rate_reference
              (set_x (bound (lim_pitch lim) (- lim_pitch lim) ux)
                     (rate_reference cr)) cr in
  let cr := set_rate_reference
              (set_y (bound (lim_roll lim) (- lim_roll lim) uy)
                     (rate_reference cr)) cr in
  set_control_reference cr (set_control_data cd s).

(** [const float alpha = 0.2f;] *)
Definition alpha : float := 2 # 10.

(** The three filter updates of [vRateControl]. *)
Definition rate_filter_update (omega_m : vector3f_t) (f : Rate_Filter)
  : Rate_Filter :=
  mk_filter (alpha * x omega_m + (1 - alpha) * t1 f)
            (alpha * y omega_m + (1 - alpha) * t2 f)
            (alpha * z omega_m + (1 - alpha) * t3 f).

(** [error] of [vRateControl], from the filter as just updated. *)
Definition rate_error (cr : Control_Reference) (f : Rate_Filter)
  : vector3f_t :=
  mk_vector3f (x (rate_reference cr) - t2 f)
              (y (rate_reference cr) - t1 f)
              (z (rate_reference cr) - t3 f).

Definition vRateControl (omega_m : vector3f_t) (dt : float)
  (s : Control_State) : Control_State :=
  let f := rate_filter_update omega_m (rate_filter s) in
  let error := rate_error (control_reference s) f in
  let cd := control_data s in
  let (c0, ux) := fPIUpdate (cd (rate_controller + 0)%nat) (x error) dt in
  let cd := upd cd (rate_controller + 0)%nat c0 in
  let (c1, uy) := fPIUpdate (cd (rate_controller + 1)%nat) (y error) dt in
  let cd := upd cd (rate_controller + 1)%nat c1 in
  let (c2, uz) := fPIUpdate (cd (rate_controller + 2)%nat) (z error) dt in
  let cd := upd cd (rate_controller + 2)%nat c2 in
  let cr := control_reference s in
  let cr := set_actuator_desired
              (set_pitch (bound 1 (-1) ux) (actuator_desired cr)) cr in
  let cr := set_actuator_desired
              (set_roll (bound 1 (-1) uy) (actuator_desired cr)) cr in
  let cr := set_actuator_desired
              (set_yaw (bound 1 (-1) uz) (actuator_desired cr)) cr in
  set_control_reference cr (set_control_data cd (set_rate_filter f s)).

(** [sum] of [vUpdateOutputs] for one row of weights. *)
Definition mixer_sum (u : Control_Signals) (w : nat -> float) : float :=
  throttle u * w 0%nat + pitch u * w 1%nat + roll u * w 2%nat
  + yaw u * w 3%nat.

Definition vUpdateOutputs (s : Control_State) : Control_State :=
  let body (cr : Control_Reference) (i : nat) :=
    set_pwm_out
      (upd (pwm_out cr) i
           (bound 1 (-1)
              (mixer_sum (actuator_desired cr) (weights (output_mixer s) i))))
      cr in
  set_control_reference (fold_left body (seq 0 8) (control_reference s)) s.

Definition vSendPWMCommands (s : Control_State) : Control_State :=
  let body (s : Control_State) (i : nat) :=
    set_rc_output (rc_output s ++ [(i, pwm_out (control_reference s) i)]) s in
  fold_left body (seq 0 8) s.

Definition vDisableAllOutputs (s : Control_State) : Control_State :=
  let body (cr : Control_Reference) (i : nat) :=
    set_pwm_out (upd (pwm_out cr) i 0) cr in
  vSendPWMCommands
    (set_control_reference (fold_left body (seq 0 8) (control_reference s)) s).

(** The statements a [switch] label of [vUpdateControlAction] leads to. *)
Inductive Cascade_Step :=
| STEP_POSITION | STEP_VELOCITY | STEP_ATTITUDE | STEP_RATE
| STEP_OUTPUTS | STEP_SEND | STEP_DISABLE.

(** The [switch] with its fall-through: the calls made from the label of the
    mode down to the next [break]. *)
Definition cascade (m : Flight_Mode) : list Cascade_Step :=
  match m with
  | FLIGHTMODE_POSITION =>
      [STEP_POSITION; STEP_VELOCITY; STEP_ATTITUDE; STEP_RATE;
       STEP_OUTPUTS; STEP_SEND]
  | FLIGHTMODE_VELOCITY =>
      [STEP_VELOCITY; STEP_ATTITUDE; STEP_RATE; STEP_OUTPUTS; STEP_SEND]
  | FLIGHTMODE_ATTITUDE =>
      [STEP_ATTITUDE; STEP_RATE; STEP_OUTPUTS; STEP_SEND]
  | FLIGHTMODE_RATE => [STEP_RATE; STEP_OUTPUTS; STEP_SEND]
  | FLIGHTMODE_DIRECT_CONTROL => [STEP_OUTPUTS; STEP_SEND]
  | FLIGTMODE_DIRECT_PWM => [STEP_SEND]
  | FLIGHTMODE_DISARMED => [STEP_DISABLE]
  end.

Definition run_step (q_m : quaternion_t) (omega_m : vector3f_t) (dt : float)
  (s : Control_State) (c : Cascade_Step) : Control_State :=
  match c with
  | STEP_POSITION => vPositionControl None dt s
  | STEP_VELOCITY => vVelocityControl None dt s
  | STEP_ATTITUDE => vAttitudeControl q_m false dt s
  | STEP_RATE => vRateControl omega_m dt s
  | STEP_OUTPUTS => vUpdateOutputs s
  | STEP_SEND => vSendPWMCommands s
  | STEP_DISABLE => vDisableAllOutputs s
  end.

(** [if (i++ > 40) i = 0;] *)
Definition next_cycle (i : Z) : Z := if (i >? 40)%Z then 0%Z else (i + 1)%Z.

Definition vUpdateControlAction (q_m : quaternion_t) (omega_m : vector3f_t)
  (dt : float) (rc : RC_Input) (s : Control_State) : Control_State :=
  let s := vRCInputsToControlAction rc s in
  let s := fold_left (run_step q_m omega_m dt)
                     (cascade (mode (control_reference s))) s in
  set_cycle (next_cycle (cycle s)) s.

(** What one trigger of the control thread brings: the estimate, the
    sampling time and the answers of the RC input driver. *)
Record Cycle_Input := mk_cycle
  { q_m : quaternion_t; omega_m : vector3f_t; dt : float; rc : RC_Input }.

(** [ThreadControl]: one control cycle per new estimate. *)
Definition ThreadControl (inputs : list Cycle_Input) (s : Control_State)
  : Control_State :=
  fold_left
    (fun s c => vUpdateControlAction (q_m c) (omega_m c) (dt c) (rc c) s)
    inputs s.

End Control.

(** The key of the forced disarm. *)
Definition disarm_key : Z := 0xdeadbeef.

Definition vControlForceDisarm (key : Z) (s : Control_State) : Control_State :=
  if (key =? disarm_key)%Z then set_controllers_armed false s else s.

(* ===================================================================== *)
(** ** Gain accessors and the parameter load *)
(* ===================================================================== *)

(** A list updated at one index. *)
Fixpoint list_upd (l : list float) (k : nat) (v : float) : list float :=
  match l, k with
  | [], _ => []
  | _ :: t, O => v :: t
  | h :: t, S k => h :: list_upd t k v
  end.

(** A [PI_Data] read and written as the array of floats the accessors cast
    it to. *)
Definition f_pi (p : PI_Data) (j : nat) : float :=
  match j with
  | 0%nat => Kp p
  | 1%nat => Ki p
  | 2%nat => output_min p
  | S (S (S k)) => nth k (pi_tail p) 0
  end.

Definition set_f_pi (p : PI_Data) (j : nat) (v : float) : PI_Data :=
  match j with
  | 0%nat => mk_pi v (Ki p) (output_min p) (pi_tail p)
  | 1%nat => mk_pi (Kp p) v (output_min p) (pi_tail p)
  | 2%nat => mk_pi (Kp p) (Ki p) v (pi_tail p)
  | S (S (S k)) => mk_pi (Kp p) (Ki p) (output_min p) (list_upd (pi_tail p) k v)
  end.

(** A [PI_Parameters], which is three floats, read and written the same way. *)
Definition f_par (p : PI_Parameters) (j : nat) : float :=
  match j with
  | 0%nat => par_Kp p
  | 1%nat => par_Ki p
  | 2%nat => par_output_min p
  | _ => 0
  end.

Definition set_f_par (p : PI_Parameters) (j : nat) (v : float)
  : PI_Parameters :=
  match j with
  | 0%nat => mk_par v (par_Ki p) (par_output_min p)
  | 1%nat => mk_par (par_Kp p) v (par_output_min p)
  | 2%nat => mk_par (par_Kp p) (par_Ki p) v
  | _ => p
  end.

Section Accessors.

(** [CONTROL_NUMBER_OF_CONTROLLERS] of control.h. *)
Variable CONTROL_NUMBER_OF_CONTROLLERS : nat.

Definition GetControlParameters (s : Control_State) (param : Control_Parameters)
  : Control_Parameters :=
  let pi := control_data s in
  let inner (i : nat) (par : Control_Parameters) (j : nat) :=
    upd par i (set_f_par (par i) j (f_pi (pi i) j)) in
  let outer (par : Control_Parameters) (i : nat) :=
    fold_left (inner i) (seq 0 3) par in
  fold_left outer (seq 0 CONTROL_NUMBER_OF_CONTROLLERS) param.

Definition SetControlParameters (param : Control_Parameters)
  (s : Control_State) : Control_State :=
  let par := param in
  let inner (i : nat) (pi : Control_Data) (j : nat) :=
    upd pi i (set_f_pi (pi i) j (f_par (par i) j)) in
  let outer (pi : Control_Data) (i : nat) :=
    fold_left (inner i) (seq 0 3) pi in
  set_control_data
    (fold_left outer (seq 0 CONTROL_NUMBER_OF_CONTROLLERS) (control_data s)) s.

(** Only [FLASHSAVE_OK] is named by control.c; [FLASHSAVE_ERROR] stands for
    every other status. *)
Inductive FlashSave_Status := FLASHSAVE_OK | FLASHSAVE_ERROR.

(** The flash store as [vReadControlParametersFromFlash] meets it: for each
    of its four keys, what [FlashSave_Read] returns and what it leaves in
    the buffer it was handed, given what the buffer held. *)
Record Flash_Store := mk_flash
  { FlashSave_Read_CONA :
      Control_Arm_Settings -> FlashSave_Status * Control_Arm_Settings;
    FlashSave_Read_CONP :
      Control_Parameters -> FlashSave_Status * Control_Parameters;
    FlashSave_Read_CONL :
      Control_Limits -> FlashSave_Status * Control_Limits;
    FlashSave_Read_CONM :
      Output_Mixer -> FlashSave_Status * Output_Mixer }.

Definition vReadControlParametersFromFlash (fl : Flash_Store)
  (s : Control_State) : Control_State :=
  let s := set_arm_settings (snd (FlashSave_Read_CONA fl (arm_settings s))) s in
  let (status, buffer) :=
    FlashSave_Read_CONP fl (flash_save_control_parameters s) in
  let s := set_flash_save_control_parameters buffer s in
  let s := match status with
           | FLASHSAVE_OK =>
               SetControlParameters (flash_save_control_parameters s) s
           | FLASHSAVE_ERROR => s
           end in
  let s := set_control_limits
             (snd (FlashSave_Read_CONL fl (control_limits s))) s in
  set_output_mixer (snd (FlashSave_Read_CONM fl (output_mixer s))) s.

(** How [ControlInit] ends: in [osalSysHalt], or with the threads started on
    the state it has set up. *)
Inductive Init_Result :=
| Halted
| Started (s : Control_State).

Definition zero_pi (p : PI_Data) : PI_Data :=
  mk_pi 0 0 0 (map (fun _ => 0) (pi_tail p)).

(** [ControlInit], given whether [RCOutputInit] answers [MSG_OK].  The loops
    that clear a structure float by float are written as the structure with
    every float at 0. *)
Definition ControlInit (RCOutputInit_ok : bool) (fl : Flash_Store)
  (s : Control_State) : Init_Result :=
  let s := set_controllers_armed false s in
  let s := set_arm_settings (mk_arm_settings 0 0 STICK_NONE 5 30) s in
  if negb RCOutputInit_ok then Halted
  else
    let s := set_control_reference
               (mk_reference FLIGHTMODE_DISARMED TARGET_GOAL
                  (mk_vector3f 0 0 0) (mk_vector3f 0 0 0)
                  (mk_signals 0 0 0 0) (fun _ => 0)) s in
    let s := set_control_data (fun i => zero_pi (control_data s i)) s in
    let s := set_control_limits
               (mk_limits (mk_angle_limits 0 0) (mk_rate_limits 0 0 0)
                          (mk_angle_limits 0 0)) s in
    let s := set_output_mixer (mk_mixer (fun _ _ => 0)) s in
    Started (vReadControlParametersFromFlash fl s).

End Accessors.

(* ===================================================================== *)
(** ** Conditions on a tick of the arming thread *)
(* ===================================================================== *)

Definition region_eqb (a b : Arming_Stick_Region) : bool :=
  match a, b with
  | STICK_NO_REGION, STICK_NO_REGION
  | STICK_ARM_REGION, STICK_ARM_REGION
  | STICK_DISARM_REGION, STICK_DISARM_REGION => true
  | _, _ => false
  end.

(** The tick gets as far as classifying the sticks: the RC link is active, a
    gesture direction is configured, and the emergency-stop channel is not
    below 0.5. *)
Definition gate_open (a : Control_Arm_Settings) (rc : RC_Input) : bool :=
  bActiveRCInputConnection rc
  && negb (is_STICK_NONE (stick_direction a))
  && negb (flt (RCInputGetInputLevel rc ROLE_AUX1) (1 # 2)).

(** The tick classifies the sticks, and finds them in the arm region. *)
Definition arm_gesture_held (a : Control_Arm_Settings) (rc : RC_Input) : bool :=
  gate_open a rc && region_eqb (SticksInRegion a rc) STICK_ARM_REGION.

(** At most one of [arm_time] and [disarm_time] is running. *)
Definition timers_exclusive (tm : Arming_Timers) : Prop :=
  arm_time tm = 0%Z \/ disarm_time tm = 0%Z.

(** The timers as the thread has them when it starts. *)
Definition timers_at_start : Arming_Timers := mk_timers 0 0 0.

(* ===================================================================== *)
(** ** Concrete states and inputs *)
(* ===================================================================== *)

Definition zero_reference : Control_Reference :=
  mk_reference FLIGHTMODE_DISARMED TARGET_GOAL (mk_vector3f 0 0 0)
    (mk_vector3f 0 0 0) (mk_signals 0 0 0 0) (fun _ => 0).

(** Everything at zero, disarmed, nothing sent yet. *)
Definition zero_state : Control_State :=
  mk_state zero_reference (fun _ => mk_pi 0 0 0 [0])
    (mk_arm_settings 0 0 STICK_NONE 0 0)
    (mk_limits (mk_angle_limits 0 0) (mk_rate_limits 0 0 0)
               (mk_angle_limits 0 0))
    (mk_mixer (fun _ _ => 0)) (fun _ => mk_par 0 0 0) false
    (mk_filter 0 0 0) 0 [].

(** The arming scenario of the design document: threshold 0.1, gesture on
    yaw maximum, one second of stick time (the zero-throttle timeout is the
    30 s that [ControlInit] sets). *)
Definition scenario_settings : Control_Arm_Settings :=
  mk_arm_settings (1 # 10) 0 STICK_YAW_MAX 1 30.

Definition scenario_state : Control_State :=
  set_arm_settings scenario_settings zero_state.

(** Link active, emergency stop released, yaw at +1.0, throttle at 0.0. *)
Definition scenario_rc : RC_Input :=
  mk_rc true (fun r => match r with
                       | ROLE_YAW => 1
                       | ROLE_AUX1 => 1
                       | _ => 0
                       end).

(** The same with the yaw stick released to 0. *)
Definition released_rc : RC_Input :=
  mk_rc true (fun r => match r with ROLE_AUX1 => 1 | _ => 0 end).

(** What a cycle leaves alone when it only rewrites the mode and the eight
    channels of [pwm_out]: the controllers, the rate filter, the references,
    the actuator demand, the configuration and the armed flag. *)
Definition controller_state_kept (s s' : Control_State) : Prop :=
  control_data s' = control_data s
  /\ rate_filter s' = rate_filter s
  /\ attitude_reference (control_reference s')
     = attitude_reference (control_reference s)
  /\ rate_reference (control_reference s')
     = rate_reference (control_reference s)
  /\ actuator_desired (control_reference s')
     = actuator_desired (control_reference s)
  /\ target (control_reference s') = target (control_reference s)
  /\ arm_settings s' = arm_settings s
  /\ control_limits s' = control_limits s
  /\ output_mixer s' = output_mixer s
  /\ flash_save_control_parameters s' = flash_save_control_parameters s
  /\ controllers_armed s' = controllers_armed s.

(** Stand-ins for what lies outside control.c, to run the cycle on concrete
    inputs: a proportional controller that keeps no state, a vehicle whose
    measured angles are 0, and the layout with the attitude controllers at 6
    and the rate controllers at 9. *)
Definition sample_fPIUpdate (p : PI_Data) (error dt : float)
  : PI_Data * float := (p, Kp p * error).

Definition sample_atan2f (a b : float) : float := 0.

Definition sample_asinf (a : float) : float := 0.

Definition sample_DEG2RAD : float := 17453293 # 1000000000.

Definition sample_cycle (c : Cycle_Input) (s : Control_State)
  : Control_State :=
  vUpdateControlAction sample_DEG2RAD sample_atan2f sample_asinf
    sample_fPIUpdate 6 9 (q_m c) (omega_m c) (dt c) (rc c) s.

(** Level attitude, no rotation, half throttle, sticks centred. *)
Definition hover_input : Cycle_Input :=
  mk_cycle (mk_quaternion 1 0 0 0) (mk_vector3f 0 0 0) (1 # 200)
    (mk_rc true (fun r => match r with
                          | ROLE_THROTTLE => 1 # 2
                          | ROLE_AUX1 => 1
                          | _ => 0
                          end)).

(** One armed cycle at half throttle, then the forced disarm. *)
Definition flown_state : Control_State :=
  sample_cycle hover_input (set_controllers_armed true zero_state).

Definition landed_state : Control_State :=
  vControlForceDisarm disarm_key flown_state.

(** A flash store whose four reads answer the given statuses and leave the
    buffers as they were handed over. *)
Definition quiet_flash (sa sp sl sm : FlashSave_Status) : Flash_Store :=
  mk_flash (fun b => (sa, b)) (fun b => (sp, b)) (fun b => (sl, b))
           (fun b => (sm, b)).

(** A state for the stages: unit proportional gains, limits of 1 rad/s for
    the attitude stage, a roll reference of 1/2 with the pitch reference at 0,
    and the first mixer row at [1, 0, 0, 0]. *)
Definition tuned_state : Control_State :=
  mk_state
    (mk_reference FLIGHTMODE_ATTITUDE TARGET_GOAL (mk_vector3f 0 (1 # 2) 0)
       (mk_vector3f 0 0 0) (mk_signals (1 # 2) 0 0 0) (fun _ => 0))
    (fun _ => mk_pi 1 0 0 [0])
    (mk_arm_settings 0 0 STICK_NONE 5 30)
    (mk_limits (mk_angle_limits 0 0) (mk_rate_limits 0 0 0)
               (mk_angle_limits 1 1))
    (mk_mixer (fun i j => match i, j with
                          | O, O => 1
                          | _, _ => 0
                          end))
    (fun _ => mk_par 0 0 0) true (mk_filter 0 0 0) 0 [].

(** Level attitude. *)
Definition level_attitude : quaternion_t := mk_quaternion 1 0 0 0.

(** Gains to store: a different triple for each controller. *)
Definition sample_parameters : Control_Parameters :=
  fun i => mk_par (inject_Z (Z.of_nat i)) (1 # 2) (- (1)).


(* ===================================================================== *)
(** ** More conditions on a tick of the arming thread *)
(* ===================================================================== *)

(** The tick classifies the sticks, and finds them in the disarm region. *)
Definition disarm_gesture_held (a : Control_Arm_Settings) (rc : RC_Input)
  : bool :=
  gate_open a rc && region_eqb (SticksInRegion a rc) STICK_DISARM_REGION.

(** The tick classifies the sticks, finds them in no region, and reads the
    throttle at or below the threshold. *)
Definition idle_at_low_throttle (a : Control_Arm_Settings) (rc : RC_Input)
  : bool :=
  gate_open a rc
  && region_eqb (SticksInRegion a rc) STICK_NO_REGION
  && fle (RCInputGetInputLevel rc ROLE_THROTTLE) (stick_threshold a).

(** The tick takes the emergency stop: link active, direction configured,
    and the emergency-stop channel below 0.5. *)
Definition emergency_stop (a : Control_Arm_Settings) (rc : RC_Input) : bool :=
  bActiveRCInputConnection rc
  && negb (is_STICK_NONE (stick_direction a))
  && flt (RCInputGetInputLevel rc ROLE_AUX1) (1 # 2).

(** The tick takes the outer [else]: no RC link, or no direction configured. *)
Definition gate_closed (a : Control_Arm_Settings) (rc : RC_Input) : bool :=
  negb (bActiveRCInputConnection rc
        && negb (is_STICK_NONE (stick_direction a))).

(** How many ticks of a history had the arm gesture held. *)
Definition held_ticks (a : Control_Arm_Settings) (rcs : list RC_Input) : Z :=
  Z.of_nat (length (filter (arm_gesture_held a) rcs)).

(** The gesture at the other end of the same stick. *)
Definition opposite_direction (d : Arming_Stick_Direction)
  : Arming_Stick_Direction :=
  match d with
  | STICK_PITCH_MIN => STICK_PITCH_MAX
  | STICK_PITCH_MAX => STICK_PITCH_MIN
  | STICK_ROLL_MIN => STICK_ROLL_MAX
  | STICK_ROLL_MAX => STICK_ROLL_MIN
  | STICK_YAW_MIN => STICK_YAW_MAX
  | STICK_YAW_MAX => STICK_YAW_MIN
  | STICK_NONE => STICK_NONE
  | STICK_UNKNOWN => STICK_UNKNOWN
  end.

Definition opposite_region (r : Arming_Stick_Region) : Arming_Stick_Region :=
  match r with
  | STICK_ARM_REGION => STICK_DISARM_REGION
  | STICK_DISARM_REGION => STICK_ARM_REGION
  | STICK_NO_REGION => STICK_NO_REGION
  end.

Definition set_stick_direction (d : Arming_Stick_Direction)
  (a : Control_Arm_Settings) : Control_Arm_Settings :=
  mk_arm_settings (stick_threshold a) (armed_min_throttle a) d
    (arm_stick_time a) (arm_zero_throttle_timeout a).

(** More inputs for the arming scenario: yaw held at -1.0, the link down, and
    the emergency-stop channel at 0 with the arm gesture held. *)
Definition scenario_disarm_rc : RC_Input :=
  mk_rc true (fun r => match r with
                       | ROLE_YAW => - (1)
                       | ROLE_AUX1 => 1
                       | _ => 0
                       end).

Definition lost_rc : RC_Input := mk_rc false (fun _ => 0).

Definition stopped_rc : RC_Input :=
  mk_rc true (fun r => match r with ROLE_YAW => 1 | _ => 0 end).

Definition scenario_armed_state : Control_State :=
  set_controllers_armed true scenario_state.

(* ===================================================================== *)
(** ** What a control cycle leaves alone *)
(* ===================================================================== *)

(** The configuration and the armed flag are as before, and so is every
    controller of [control_data] other than the two attitude controllers and
    the three rate controllers that the cascade runs. *)
Definition cycle_frame (attitude_controller rate_controller : nat)
  (s s' : Control_State) : Prop :=
  arm_settings s' = arm_settings s
  /\ control_limits s' = control_limits s
  /\ output_mixer s' = output_mixer s
  /\ flash_save_control_parameters s' = flash_save_control_parameters s
  /\ controllers_armed s' = controllers_armed s
  /\ target (control_reference s') = target (control_reference s)
  /\ (forall k : nat,
         k <> (attitude_controller + 0)%nat ->
         k <> (attitude_controller + 1)%nat ->
         k <> (rate_controller + 0)%nat ->
         k <> (rate_controller + 1)%nat ->
         k <> (rate_controller + 2)%nat ->
         control_data s' k = control_data s k).

(** An armed state with a mixer of four motors in a cross and unit gains,
    and a cycle input at 60 % throttle with the vehicle rotating. *)
Definition quad_state : Control_State :=
  mk_state
    (mk_reference FLIGHTMODE_DISARMED TARGET_GOAL (mk_vector3f 0 0 0)
       (mk_vector3f 0 0 0) (mk_signals 0 0 0 0) (fun _ => 0))
    (fun _ => mk_pi 1 0 0 [0])
    (mk_arm_settings (1 # 10) (1 # 10) STICK_YAW_MAX 1 30)
    (mk_limits (mk_angle_limits 30 30) (mk_rate_limits 100 100 100)
               (mk_angle_limits 2 2))
    (mk_mixer (fun i j =>
                 match i, j with
                 | 0%nat, 0%nat | 1%nat, 0%nat | 2%nat, 0%nat | 3%nat, 0%nat => 1
                 | 0%nat, 1%nat | 2%nat, 2%nat => 1
                 | 1%nat, 1%nat | 3%nat, 2%nat => - (1)
                 | _, _ => 0
                 end))
    (fun _ => mk_par 0 0 0) true (mk_filter 0 0 0) 0 [].

Definition manoeuvre_input : Cycle_Input :=
  mk_cycle (mk_quaternion 1 0 0 0) (mk_vector3f 3 (- (4)) 1) (1 # 200)
    (mk_rc true (fun r => match r with
                          | ROLE_THROTTLE => 6 # 10
                          | ROLE_AUX1 => 1
                          | ROLE_PITCH => 1 # 2
                          | _ => 0
                          end)).

(* ===================================================================== *)
(** ** The flash save *)
(* ===================================================================== *)

(** One [FlashSave_Write]: the key and the structure handed over. *)
Inductive Flash_Block :=
| BLOCK_CONA (a : Control_Arm_Settings)
| BLOCK_CONP (p : Control_Parameters)
| BLOCK_CONL (l : Control_Limits)
| BLOCK_CONM (m : Output_Mixer).

Section FlashSave.

Variable CONTROL_NUMBER_OF_CONTROLLERS : nat.

(** One turn of the loop of [ThreadControlFlashSave], after its wait for
    the save event: the state as it is left, and the four writes in the
    order they are made. *)
Definition ThreadControlFlashSave_event (s : Control_State)
  : Control_State * list Flash_Block :=
  let w1 := BLOCK_CONA (arm_settings s) in
  let s := set_flash_save_control_parameters
             (GetControlParameters CONTROL_NUMBER_OF_CONTROLLERS s
                (flash_save_control_parameters s)) s in
  let w2 := BLOCK_CONP (flash_save_control_parameters s) in
  let w3 := BLOCK_CONL (control_limits s) in
  let w4 := BLOCK_CONM (output_mixer s) in
  (s, [w1; w2; w3; w4]).

End FlashSave.

(** The last block written under each key, if any. *)
Fixpoint last_CONA (ws : list Flash_Block) : option Control_Arm_Settings :=
  match ws with
  | [] => None
  | w :: rest =>
      match last_CONA rest, w with
      | Some a, _ => Some a
      | None, BLOCK_CONA a => Some a
      | None, _ => None
      end
  end.

Fixpoint last_CONP (ws : list Flash_Block) : option Control_Parameters :=
  match ws with
  | [] => None
  | w :: rest =>
      match last_CONP rest, w with
      | Some p, _ => Some p
      | None, BLOCK_CONP p => Some p
      | None, _ => None
      end
  end.

Fixpoint last_CONL (ws : list Flash_Block) : option Control_Limits :=
  match ws with
  | [] => None
  | w :: rest =>
      match last_CONL rest, w with
      | Some l, _ => Some l
      | None, BLOCK_CONL l => Some l
      | None, _ => None
      end
  end.

Fixpoint last_CONM (ws : list Flash_Block) : option Output_Mixer :=
  match ws with
  | [] => None
  | w :: rest =>
      match last_CONM rest, w with
      | Some m, _ => Some m
      | None, BLOCK_CONM m => Some m
      | None, _ => None
      end
  end.

Definition read_back {A : Type} (stored : option A) (buffer : A)
  : FlashSave_Status * A :=
  match stored with
  | Some v => (FLASHSAVE_OK, v)
  | None => (FLASHSAVE_ERROR, buffer)
  end.

(** A store that holds the writes it was given: a read answers
    [FLASHSAVE_OK] with the last block written under the key, and fails
    without touching the buffer when there is none. *)
Definition flash_holding (ws : list Flash_Block) : Flash_Store :=
  mk_flash (read_back (last_CONA ws)) (read_back (last_CONP ws))
           (read_back (last_CONL ws)) (read_back (last_CONM ws)).

(** A configured vehicle: the quad of above with distinct gains per
    controller and wound-up integrators. *)
Definition configured_state : Control_State :=
  set_control_data
    (fun i => mk_pi (inject_Z (Z.of_nat i)) (1 # 4) (- (1)) [7; 7])
    quad_state.

(* ===================================================================== *)
(** ** The external flash driver *)
(* ===================================================================== *)

(** What the driver does to the mutex, the SPI bus and the chip select, in
    the order it does it.  [EV_EXCHANGE] is one [spiPolledExchange] with the
    frame sent, [EV_SEND] one [spiSend] with the frames sent, [EV_RECEIVE] one
    [spiReceive] with the number of frames clocked in, [EV_SLEEP] one
    [chThdSleep] with its milliseconds. *)
Inductive Bus_Event :=
| EV_MUTEX_INIT
| EV_CLAIM | EV_RELEASE
| EV_ACQUIRE_BUS | EV_RELEASE_BUS
| EV_SELECT | EV_UNSELECT
| EV_EXCHANGE (frame : Z)
| EV_SEND (frames : list Z)
| EV_RECEIVE (n : nat)
| EV_SLEEP (ms : Z).

(** The driver's surroundings: the events so far (oldest first), the frames
    the device will answer, one per frame clocked, and the four bytes of
    [config->data->flash_tmp]. *)
Record Flash_World := mk_world
  { fw_bus : list Bus_Event;
    fw_answers : list Z;
    fw_tmp : nat -> Z }.

(** The two calls of [chSysHalt], and the two ways a run leaves the model:
    the device's answers are used up, or a buffer is shorter than the count
    that is read from it or written to it. *)
Inductive Fault_Kind :=
| HALT_ID_ERROR
| HALT_WRITE_TOO_BIG
| NO_ANSWER
| BUFFER_OVERRUN.

Inductive Result (A : Type) : Type :=
| Ok (a : A) (w : Flash_World)
| Fault (k : Fault_Kind) (w : Flash_World).

Arguments Ok {A} a w.
Arguments Fault {A} k w.

(** Driver code: a step from a world to a result. *)
Definition Flash (A : Type) : Type := Flash_World -> Result A.

Definition ret {A : Type} (a : A) : Flash A := fun w => Ok a w.

Definition bind {A B : Type} (m : Flash A) (k : A -> Flash B) : Flash B :=
  fun w => match m w with
           | Ok a w' => k a w'
           | Fault f w' => Fault f w'
           end.

Definition fault {A : Type} (f : Fault_Kind) : Flash A := fun w => Fault f w.

Declare Scope flash_scope.
Delimit Scope flash_scope with flash.
Notation "x <- m ;; k" := (bind m (fun x => k))
  (at level 61, m at next level, right associativity) : flash_scope.
Notation "m ;; k" := (bind m (fun _ => k))
  (at level 61, right associativity) : flash_scope.

Definition log (e : Bus_Event) : Flash unit :=
  fun w => Ok tt (mk_world (fw_bus w ++ [e]) (fw_answers w) (fw_tmp w)).

(** [uint8_t] and [uint32_t] truncation. *)
Definition u8 (v : Z) : Z := (v mod 256)%Z.
Definition u32 (v : Z) : Z := (v mod 4294967296)%Z.

Definition spiPolledExchange (frame : Z) : Flash Z :=
  fun w => match fw_answers w with
           | [] => Fault NO_ANSWER w
           | a :: rest =>
               Ok a (mk_world (fw_bus w ++ [EV_EXCHANGE frame]) rest (fw_tmp w))
           end.

(** [spiSend(spip, n, txbuf)]: the first [n] frames of the buffer go out,
    and what the device answers meanwhile is dropped. *)
Definition spiSend (n : nat) (txbuf : list Z) : Flash unit :=
  fun w =>
    if (length txbuf <? n)%nat then Fault BUFFER_OVERRUN w
    else if (length (fw_answers w) <? n)%nat then Fault NO_ANSWER w
    else Ok tt (mk_world (fw_bus w ++ [EV_SEND (firstn n txbuf)])
                         (skipn n (fw_answers w)) (fw_tmp w)).

(** [spiReceive(spip, n, rxbuf)]: [n] frames are clocked in and stored, as
    bytes, at the start of the buffer, which is returned as it is left. *)
Definition spiReceive (n : nat) (rxbuf : list Z) : Flash (list Z) :=
  fun w =>
    if (length rxbuf <? n)%nat then Fault BUFFER_OVERRUN w
    else if (length (fw_answers w) <? n)%nat then Fault NO_ANSWER w
    else Ok (map u8 (firstn n (fw_answers w)) ++ skipn n rxbuf)
            (mk_world (fw_bus w ++ [EV_RECEIVE n])
                      (skipn n (fw_answers w)) (fw_tmp w)).

Definition set_flash_tmp (i : nat) (v : Z) : Flash unit :=
  fun w => Ok tt (mk_world (fw_bus w) (fw_answers w) (upd (fw_tmp w) i (u8 v))).

Definition get_flash_tmp : Flash (list Z) :=
  fun w => Ok (map (fw_tmp w) (seq 0 4)) w.

(** The constants of ext_flash.h that the driver names. *)
Record Flash_Header := mk_header
  { FLASH_CMD_WREN : Z;
    FLASH_CMD_RDSR : Z;
    FLASH_CMD_RDID : Z;
    FLASH_CMD_READ : Z;
    FLASH_CMD_PAGE_PROGRAM : Z;
    FLASH_CMD_PE : Z;
    FLASH_CMD_SE : Z;
    FLASH_CMD_BE : Z;
    FLASH_DUMMY_BYTE : Z;
    FLASH_WIP_FLAG : Z }.

(** The fields of [ExternalFlashConfig] that the driver compares with. *)
Record ExternalFlashConfig := mk_config { jedec_id : Z; num_pages : Z }.

Section ExternalFlash.

Variable h : Flash_Header.
Variable config : ExternalFlashConfig.

Local Open Scope flash_scope.

(** The three address frames that follow a command. *)
Definition address_frames (address : Z) : list Z :=
  [Z.shiftr (Z.land address 0xFF0000) 16;
   Z.shiftr (Z.land address 0xFF00) 8;
   Z.land address 0xFF].

Definition send_address (address : Z) : Flash unit :=
  spiPolledExchange (Z.shiftr (Z.land address 0xFF0000) 16) ;;
  spiPolledExchange (Z.shiftr (Z.land address 0xFF00) 8) ;;
  spiPolledExchange (Z.land address 0xFF) ;;
  ret tt.

Definition ExternalFlash_WriteEnable : Flash unit :=
  log EV_ACQUIRE_BUS ;;
  log EV_SELECT ;;
  spiPolledExchange (FLASH_CMD_WREN h) ;;
  log EV_UNSELECT ;;
  log EV_RELEASE_BUS.

(** One turn of the [do ... while] of [ExternalFlash_WaitForWriteEnd]: the
    status byte read. *)
Definition poll_status (delay_ms : Z) : Flash Z :=
  (if (delay_ms =? 0)%Z then ret tt else log (EV_SLEEP delay_ms)) ;;
  log EV_ACQUIRE_BUS ;;
  log EV_SELECT ;;
  spiPolledExchange (FLASH_CMD_RDSR h) ;;
  wip <- spiPolledExchange (FLASH_DUMMY_BYTE h) ;;
  log EV_UNSELECT ;;
  log EV_RELEASE_BUS ;;
  ret (u8 wip).

Fixpoint wait_loop (turns : nat) (delay_ms : Z) : Flash unit :=
  match turns with
  | O => fault NO_ANSWER
  | S turns =>
      wip <- poll_status delay_ms ;;
      if (Z.land wip (FLASH_WIP_FLAG h) =? 0)%Z then ret tt
      else wait_loop turns delay_ms
  end.

(** The loop polls for as long as the device answers busy; every turn takes
    two answers, so it cannot make more turns than there are answers. *)
Definition ExternalFlash_WaitForWriteEnd (delay_ms : Z) : Flash unit :=
  fun w => wait_loop (length (fw_answers w)) delay_ms w.

Definition ExternalFlash_ReadID : Flash Z :=
  log EV_CLAIM ;;
  log EV_ACQUIRE_BUS ;;
  log EV_SELECT ;;
  spiPolledExchange (FLASH_CMD_RDID h) ;;
  t1 <- spiPolledExchange (FLASH_DUMMY_BYTE h) ;;
  t2 <- spiPolledExchange (FLASH_DUMMY_BYTE h) ;;
  t3 <- spiPolledExchange (FLASH_DUMMY_BYTE h) ;;
  log EV_UNSELECT ;;
  log EV_RELEASE_BUS ;;
  log EV_RELEASE ;;
  ret (Z.lor (Z.lor (u32 (Z.shiftl t1 16)) (u32 (Z.shiftl t2 8))) t3).

Definition ExternalFlashInit : Flash unit :=
  log EV_MUTEX_INIT ;;
  id <- ExternalFlash_ReadID ;;
  if (id =? jedec_id config)%Z then ret tt else fault HALT_ID_ERROR.

Definition ExternalFlash_EraseBulk : Flash unit :=
  log EV_CLAIM ;;
  ExternalFlash_WriteEnable ;;
  log EV_ACQUIRE_BUS ;;
  log EV_SELECT ;;
  spiPolledExchange (FLASH_CMD_BE h) ;;
  log EV_UNSELECT ;;
  log EV_RELEASE_BUS ;;
  ExternalFlash_WaitForWriteEnd 100 ;;
  log EV_RELEASE.

Definition ExternalFlash_EraseSector (address : Z) : Flash unit :=
  log EV_CLAIM ;;
  ExternalFlash_WriteEnable ;;
  log EV_ACQUIRE_BUS ;;
  log EV_SELECT ;;
  spiPolledExchange (FLASH_CMD_SE h) ;;
  send_address address ;;
  log EV_UNSELECT ;;
  log EV_RELEASE_BUS ;;
  ExternalFlash_WaitForWriteEnd 100 ;;
  log EV_RELEASE.

Definition ExternalFlash_ErasePage (address : Z) : Flash unit :=
  log EV_CLAIM ;;
  ExternalFlash_WriteEnable ;;
  log EV_ACQUIRE_BUS ;;
  log EV_SELECT ;;
  spiPolledExchange (FLASH_CMD_PE h) ;;
  send_address address ;;
  log EV_UNSELECT ;;
  log EV_RELEASE_BUS ;;
  ExternalFlash_WaitForWriteEnd 10 ;;
  log EV_RELEASE.

(** [while (count--) spiPolledExchange(config->spip, *(buffer++));] *)
Fixpoint write_loop (count : nat) (buffer : list Z) : Flash unit :=
  match count with
  | O => ret tt
  | S count =>
      match buffer with
      | [] => fault BUFFER_OVERRUN
      | b :: buffer => spiPolledExchange b ;; write_loop count buffer
      end
  end.

Definition ExternalFlash_WritePagePolling (buffer : list Z) (address : Z)
  (count : Z) : Flash unit :=
  if (count >=? num_pages config)%Z then fault HALT_WRITE_TOO_BIG
  else
    log EV_CLAIM ;;
    ExternalFlash_WriteEnable ;;
    log EV_ACQUIRE_BUS ;;
    log EV_SELECT ;;
    spiPolledExchange (FLASH_CMD_PAGE_PROGRAM h) ;;
    send_address address ;;
    write_loop (Z.to_nat count) buffer ;;
    log EV_UNSELECT ;;
    log EV_RELEASE_BUS ;;
    ExternalFlash_WaitForWriteEnd 1 ;;
    log EV_RELEASE.

Definition ExternalFlash_WritePage (buffer : list Z) (address : Z)
  (count : Z) : Flash unit :=
  if (count >=? num_pages config)%Z then fault HALT_WRITE_TOO_BIG
  else
    log EV_CLAIM ;;
    ExternalFlash_WriteEnable ;;
    log EV_ACQUIRE_BUS ;;
    log EV_SELECT ;;
    set_flash_tmp 0 (FLASH_CMD_PAGE_PROGRAM h) ;;
    set_flash_tmp 1 (Z.shiftr (Z.land address 0xFF0000) 16) ;;
    set_flash_tmp 2 (Z.shiftr (Z.land address 0xFF00) 8) ;;
    set_flash_tmp 3 (Z.land address 0xFF) ;;
    tmp <- get_flash_tmp ;;
    spiSend 4 tmp ;;
    spiSend (Z.to_nat count) buffer ;;
    log EV_UNSELECT ;;
    log EV_RELEASE_BUS ;;
    ExternalFlash_WaitForWriteEnd 1 ;;
    log EV_RELEASE.

(** [while (count--) *(buffer++) = spiPolledExchange(..., FLASH_DUMMY_BYTE);]
    with the buffer returned as it is left. *)
Fixpoint read_loop (count : nat) (buffer : list Z) : Flash (list Z) :=
  match count with
  | O => ret buffer
  | S count =>
      match buffer with
      | [] => fault BUFFER_OVERRUN
      | _ :: buffer =>
          a <- spiPolledExchange (FLASH_DUMMY_BYTE h) ;;
          rest <- read_loop count buffer ;;
          ret (u8 a :: rest)
      end
  end.

Definition ExternalFlash_ReadBufferPolling (buffer : list Z) (address : Z)
  (count : Z) : Flash (list Z) :=
  log EV_CLAIM ;;
  log EV_ACQUIRE_BUS ;;
  log EV_SELECT ;;
  spiPolledExchange (FLASH_CMD_READ h) ;;
  send_address address ;;
  buffer <- read_loop (Z.to_nat count) buffer ;;
  log EV_UNSELECT ;;
  log EV_RELEASE_BUS ;;
  log EV_RELEASE ;;
  ret buffer.

Definition ExternalFlash_ReadBuffer (buffer : list Z) (address : Z)
  (count : Z) : Flash (list Z) :=
  log EV_CLAIM ;;
  log EV_ACQUIRE_BUS ;;
  log EV_SELECT ;;
  set_flash_tmp 0 (FLASH_CMD_READ h) ;;
  set_flash_tmp 1 (Z.shiftr (Z.land address 0xFF0000) 16) ;;
  set_flash_tmp 2 (Z.shiftr (Z.land address 0xFF00) 8) ;;
  set_flash_tmp 3 (Z.land address 0xFF) ;;
  tmp <- get_flash_tmp ;;
  spiSend 4 tmp ;;
  buffer <- spiReceive (Z.to_nat count) buffer ;;
  log EV_UNSELECT ;;
  log EV_RELEASE_BUS ;;
  log EV_RELEASE ;;
  ret buffer.

End ExternalFlash.

(* ===================================================================== *)
(** ** Reading the bus record of the flash driver *)
(* ===================================================================== *)

(** The frames an event puts on the output line. *)
Definition frames_out (e : Bus_Event) : list Z :=
  match e with
  | EV_EXCHANGE frame => [frame]
  | EV_SEND frames => frames
  | _ => []
  end.

(** All frames sent, in order. *)
Definition mosi (events : list Bus_Event) : list Z :=
  flat_map frames_out events.

(** A world after more events, with the answers that are left. *)
Definition extend (w : Flash_World) (events : list Bus_Event)
  (rest : list Z) : Flash_World :=
  mk_world (fw_bus w ++ events) rest (fw_tmp w).

(** The events of one status poll. *)
Definition poll_events (h : Flash_Header) (delay_ms : Z) : list Bus_Event :=
  (if (delay_ms =? 0)%Z then [] else [EV_SLEEP delay_ms])
  ++ [EV_ACQUIRE_BUS; EV_SELECT; EV_EXCHANGE (FLASH_CMD_RDSR h);
      EV_EXCHANGE (FLASH_DUMMY_BYTE h); EV_UNSELECT; EV_RELEASE_BUS].

(** The answers of a run of status polls: for each, the frame that comes
    back with the command, then the status. *)
Definition poll_answers (polls : list (Z * Z)) : list Z :=
  flat_map (fun p => [fst p; snd p]) polls.

(** A status byte with the write-in-progress flag set. *)
Definition busy (h : Flash_Header) (status : Z) : bool :=
  negb (Z.land (u8 status) (FLASH_WIP_FLAG h) =? 0)%Z.

(** Who holds what: the flash mutex, the SPI bus, the chip select. *)
Record Bus_State := mk_bus
  { claimed : bool; owned : bool; selected : bool }.

Definition bus_idle : Bus_State := mk_bus false false false.

(** The discipline the driver's comments spell out: the flash is claimed
    before the bus is acquired, the bus is acquired before the chip is
    selected, frames are clocked only while the chip is selected, the thread
    sleeps only without the bus, and everything is given back in the
    opposite order. *)
Definition bus_step (st : Bus_State) (e : Bus_Event) : option Bus_State :=
  match e, st with
  | EV_MUTEX_INIT, mk_bus false false false => Some st
  | EV_CLAIM, mk_bus false false false => Some (mk_bus true false false)
  | EV_RELEASE, mk_bus true false false => Some (mk_bus false false false)
  | EV_ACQUIRE_BUS, mk_bus true false false => Some (mk_bus true true false)
  | EV_RELEASE_BUS, mk_bus true true false => Some (mk_bus true false false)
  | EV_SELECT, mk_bus true true false => Some (mk_bus true true true)
  | EV_UNSELECT, mk_bus true true true => Some (mk_bus true true false)
  | EV_EXCHANGE _, mk_bus true true true => Some st
  | EV_SEND _, mk_bus true true true => Some st
  | EV_RECEIVE _, mk_bus true true true => Some st
  | EV_SLEEP _, mk_bus true false false => Some st
  | _, _ => None
  end.

Fixpoint bus_run (st : Bus_State) (events : list Bus_Event)
  : option Bus_State :=
  match events with
  | [] => Some st
  | e :: events =>
      match bus_step st e with
      | Some st => bus_run st events
      | None => None
      end
  end.

Definition is_idle (st : option Bus_State) : bool :=
  match st with
  | Some (mk_bus false false false) => true
  | _ => false
  end.

(** The record follows the discipline and ends with everything given
    back. *)
Definition well_bracketed (events : list Bus_Event) : bool :=
  is_idle (bus_run bus_idle events).

(** The record follows the discipline so far. *)
Definition follows_discipline (events : list Bus_Event) : bool :=
  match bus_run bus_idle events with Some _ => true | None => false end.

(** The entry points of the driver, with their arguments. *)
Inductive Flash_Op :=
| OP_Init
| OP_EraseBulk
| OP_EraseSector (address : Z)
| OP_ErasePage (address : Z)
| OP_ReadID
| OP_WritePagePolling (buffer : list Z) (address count : Z)
| OP_WritePage (buffer : list Z) (address count : Z)
| OP_ReadBufferPolling (buffer : list Z) (address count : Z)
| OP_ReadBuffer (buffer : list Z) (address count : Z).

Definition discard {A : Type} (m : Flash A) : Flash unit :=
  bind m (fun _ => ret tt).

Definition run_op (h : Flash_Header) (config : ExternalFlashConfig)
  (op : Flash_Op) : Flash unit :=
  match op with
  | OP_Init => ExternalFlashInit h config
  | OP_EraseBulk => ExternalFlash_EraseBulk h
  | OP_EraseSector a => ExternalFlash_EraseSector h a
  | OP_ErasePage a => ExternalFlash_ErasePage h a
  | OP_ReadID => discard (ExternalFlash_ReadID h)
  | OP_WritePagePolling b a c => ExternalFlash_WritePagePolling h config b a c
  | OP_WritePage b a c => ExternalFlash_WritePage h config b a c
  | OP_ReadBufferPolling b a c =>
      discard (ExternalFlash_ReadBufferPolling h b a c)
  | OP_ReadBuffer b a c => discard (ExternalFlash_ReadBuffer h b a c)
  end.

(** The command set of a 25-series serial flash, a chip of 2048 pages with
    the identification 20 20 15 (hexadecimal), and an empty world whose
    device gives the listed answers. *)
Definition m25p_header : Flash_Header :=
  mk_header 0x06 0x05 0x9F 0x03 0x02 0xDB 0xD8 0xC7 0xA5 0x01.

Definition m25p_config : ExternalFlashConfig := mk_config 0x202015 2048.

Definition world_answering (answers : list Z) : Flash_World :=
  mk_world [] answers (fun _ => 0%Z).

(** A piece of driver code takes the bus from one state of the discipline
    to another: run after any record that follows the discipline and has
    reached [st], it keeps to the discipline, and has reached [st'] when it
    returns. *)
Definition conforms {A : Type} (st st' : Bus_State) (m : Flash A) : Prop :=
  forall w : Flash_World,
    bus_run bus_idle (fw_bus w) = Some st ->
    match m w with
    | Ok _ w' => bus_run bus_idle (fw_bus w') = Some st'
    | Fault _ w' => follows_discipline (fw_bus w') = true
    end.
(* ===================================================================== *)
(** * Properties *)
(* ===================================================================== *)

(** ** Comparisons and the clamp *)

Lemma fle_true (a b : float) : fle a b = true <-> (a <= b)%Q.
Proof. apply Qle_bool_iff. Qed.

Lemma flt_true (a b : float) : flt a b = true <-> (a < b)%Q.
Proof.
  unfold flt. rewrite Qlt_alt.
  destruct (a ?= b)%Q; split; intro H; try reflexivity; discriminate H.
Qed.

Lemma flt_false (a b : float) : flt a b = false <-> (b <= a)%Q.
Proof.
  split; intro H.
  - apply Qnot_lt_le. intro L. apply flt_true in L. congruence.
  - destruct (flt a b) eqn:E; [|reflexivity].
    apply flt_true in E. exfalso. exact (Qlt_not_le _ _ E H).
Qed.

Lemma bound_between (hi lo v : float) :
  (lo <= hi)%Q -> (lo <= bound hi lo v)%Q /\ (bound hi lo v <= hi)%Q.
Proof.
  intro H. unfold bound.
  destruct (flt hi v) eqn:E1.
  - split; [exact H | apply Qle_refl].
  - destruct (flt v lo) eqn:E2.
    + split; [apply Qle_refl | exact H].
    + apply flt_false in E1, E2. split; assumption.
Qed.

(** ** The arming gate *)

Section ArmingProofs.

Variable R : Z.
Hypothesis R_pos : (0 < R)%Z.

Lemma time_reached_iff (t limit : Z) :
  (0 <= t)%Z -> (0 <= limit)%Z ->
  (time_reached R t limit = true <-> ((limit + 1) * R <= t)%Z).
Proof.
  intros Ht Hl. unfold time_reached.
  rewrite Z.quot_div_nonneg by lia.
  rewrite Z.gtb_gt. split; intro H.
  - assert (limit + 1 <= t / R)%Z as H1 by lia.
    apply (Z.mul_le_mono_nonneg_r _ _ R) in H1; [|lia].
    pose proof (Z.mul_div_le t R R_pos). lia.
  - assert (limit + 1 <= t / R)%Z; [|lia].
    apply Z.div_le_lower_bound; lia.
Qed.

(** Every path through a tick: one goal per outcome of its tests. *)
Ltac tick_paths :=
  repeat match goal with
         | |- context [if ?c then _ else _] => destruct c
         | |- context [match SticksInRegion ?a ?r with _ => _ end] =>
             destruct (SticksInRegion a r)
         end.

Lemma tick_arm_settings rc st :
  arm_settings (fst (ThreadControlArming_tick R rc st)) = arm_settings (fst st).
Proof.
  destruct st as [s tm]. unfold ThreadControlArming_tick.
  tick_paths; reflexivity.
Qed.

Lemma run_arm_settings rcs st :
  arm_settings (fst (ThreadControlArming R rcs st)) = arm_settings (fst st).
Proof.
  unfold ThreadControlArming.
  revert st. induction rcs as [|rc rcs IH]; intro st; simpl.
  - reflexivity.
  - rewrite IH. apply tick_arm_settings.
Qed.

(** One tick with the arm gesture held: either the time has been reached and
    the flag is set, or the counter moves on by one. *)
Lemma held_tick rc s tm :
  arm_gesture_held (arm_settings s) rc = true ->
  ThreadControlArming_tick R rc (s, tm) =
    if time_reached R (arm_time tm) (arm_stick_time (arm_settings s))
    then (set_controllers_armed true s, tm)
    else (s, mk_timers (incr16 (arm_time tm)) 0 0).
Proof.
  unfold arm_gesture_held, gate_open, ThreadControlArming_tick.
  intro H. apply andb_prop in H as [H Hr]. apply andb_prop in H as [H He].
  rewrite H. apply negb_true_iff in He. rewrite He.
  destruct (SticksInRegion (arm_settings s) rc); try discriminate Hr.
  reflexivity.
Qed.

Lemma held_run (T : Z) (rcs : list RC_Input) : forall s tm,
  arm_stick_time (arm_settings s) = T ->
  (0 <= T)%Z -> ((T + 1) * R < 65536)%Z ->
  (0 <= arm_time tm <= (T + 1) * R)%Z ->
  Forall (fun rc => arm_gesture_held (arm_settings s) rc = true) rcs ->
  arm_time (snd (ThreadControlArming R rcs (s, tm)))
  = Z.min (arm_time tm + Z.of_nat (length rcs)) ((T + 1) * R)
  /\ (controllers_armed (fst (ThreadControlArming R rcs (s, tm))) = true <->
      controllers_armed s = true
      \/ ((T + 1) * R < arm_time tm + Z.of_nat (length rcs))%Z).
Proof.
  unfold ThreadControlArming.
  induction rcs as [|rc rcs IH]; intros s tm HsT HT HK Ha Hall.
  - simpl. split; [lia|]. split; [auto|]. intros [H|H]; [exact H|lia].
  - inversion Hall as [|? ? Hrc Hrest]; subst.
    cbn [fold_left]. rewrite held_tick by exact Hrc.
    change (length (rc :: rcs)) with (S (length rcs)).
    rewrite Nat2Z.inj_succ.
    destruct (time_reached R (arm_time tm) (arm_stick_time (arm_settings s)))
      eqn:E.
    + apply time_reached_iff in E; [|lia|lia].
      destruct (IH (set_controllers_armed true s) tm eq_refl HT HK Ha Hrest)
        as [IH1 IH2].
      rewrite IH1, IH2. simpl controllers_armed.
      split; [lia|]. split; intros _; [right; lia | left; reflexivity].
    + assert (~ ((arm_stick_time (arm_settings s) + 1) * R <= arm_time tm)%Z)
        as Hlt.
      { intro H. apply time_reached_iff in H; [|lia|lia]. congruence. }
      assert (incr16 (arm_time tm) = arm_time tm + 1)%Z as Hinc.
      { unfold incr16. apply Z.mod_small. lia. }
      destruct (IH s (mk_timers (incr16 (arm_time tm)) 0 0) eq_refl HT HK)
        as [IH1 IH2]; [simpl; lia | exact Hrest |].
      rewrite IH1, IH2. simpl arm_time. rewrite Hinc.
      split; [lia|]. split; (intros [H|H]; [left; exact H | right; lia]).
Qed.

Lemma tick_exclusive rc s tm :
  timers_exclusive tm ->
  timers_exclusive (snd (ThreadControlArming_tick R rc (s, tm))).
Proof.
  unfold timers_exclusive, ThreadControlArming_tick. intro H.
  tick_paths; simpl; auto.
Qed.

Lemma run_exclusive rcs : forall st,
  timers_exclusive (snd st) ->
  timers_exclusive (snd (ThreadControlArming R rcs st)).
Proof.
  induction rcs as [|rc rcs IH]; intros [s tm] H; simpl.
  - exact H.
  - apply IH. apply tick_exclusive. exact H.
Qed.

Lemma off_region_tick rc s tm :
  (0 <= arm_stick_time (arm_settings s))%Z ->
  timers_exclusive tm ->
  gate_open (arm_settings s) rc = true ->
  region_eqb (SticksInRegion (arm_settings s) rc) STICK_ARM_REGION = false ->
  arm_time (snd (ThreadControlArming_tick R rc (s, tm))) = 0%Z.
Proof.
  intros HT Hex Hg Hr. unfold gate_open in Hg.
  apply andb_prop in Hg as [Hg He]. apply negb_true_iff in He.
  unfold ThreadControlArming_tick. rewrite Hg, He.
  destruct (SticksInRegion (arm_settings s) rc); try discriminate Hr.
  - tick_paths; reflexivity.
  - destruct (time_reached R (disarm_time tm) (arm_stick_time (arm_settings s)))
      eqn:E; [|reflexivity].
    simpl. destruct Hex as [H|H]; [exact H|].
    rewrite H in E. unfold time_reached in E.
    rewrite Z.quot_0_l in E by lia. apply Z.gtb_gt in E. lia.
Qed.

End ArmingProofs.

(** C1, as amended: with an active RC link, a configured gesture direction
    and the emergency-stop channel at or above 0.5, starting disarmed with
    [arm_time = 0] and holding the sticks in the arm region, the armed flag
    is set exactly when more than [(T + 1) * R] consecutive ticks have been
    held ([T] the configured stick time, [R] the tick rate, [(T + 1) * R]
    within the 16 bits of the counter), and the counter stands at the number
    of ticks held, capped at [(T + 1) * R].  In every state the thread can
    reach from its start, a tick that classifies the sticks outside the arm
    region leaves [arm_time] at 0. *)
Theorem arming_hysteresis (R T : Z) (s : Control_State) :
  (0 < R)%Z -> (0 <= T)%Z -> ((T + 1) * R < 65536)%Z ->
  arm_stick_time (arm_settings s) = T ->
  controllers_armed s = false ->
  (forall (tm : Arming_Timers) (held : list RC_Input),
      arm_time tm = 0%Z ->
      Forall (fun rc => arm_gesture_held (arm_settings s) rc = true) held ->
      (controllers_armed (fst (ThreadControlArming R held (s, tm))) = true
       <-> ((T + 1) * R < Z.of_nat (length held))%Z)
      /\ arm_time (snd (ThreadControlArming R held (s, tm)))
         = Z.min (Z.of_nat (length held)) ((T + 1) * R))
  /\ (forall (history : list RC_Input) (rc : RC_Input),
         gate_open (arm_settings s) rc = true ->
         region_eqb (SticksInRegion (arm_settings s) rc) STICK_ARM_REGION
         = false ->
         arm_time
           (snd (ThreadControlArming_tick R rc
                   (ThreadControlArming R history (s, timers_at_start))))
         = 0%Z).
Proof.
  intros HR HT HK HsT Hd. split.
  - intros tm held Htm Hheld.
    destruct (@held_run R HR T held s tm HsT HT HK) as [H1 H2];
      [rewrite Htm; lia | exact Hheld |].
    rewrite H1, H2, Htm, Hd. split; [|reflexivity].
    split; [intros [H|H]; [discriminate H | lia] | intro H; right; lia].
  - intros history rc Hg Hr.
    pose proof (@run_arm_settings R history (s, timers_at_start)) as Hset.
    pose proof (@run_exclusive R history (s, timers_at_start)
                  (or_introl eq_refl)) as Hex.
    destruct (ThreadControlArming R history (s, timers_at_start)) as [s1 tm1].
    simpl in Hset, Hex. apply off_region_tick.
    + exact HR.
    + rewrite Hset, HsT. exact HT.
    + exact Hex.
    + rewrite Hset. exact Hg.
    + rewrite Hset. exact Hr.
Qed.

(** The scenario at 50 Hz with one second of stick time: the flag is set by
    the 101st held tick, and a tick with the yaw stick released after 30 held
    ticks puts the counter back to 0. *)
Lemma arming_hysteresis_witness :
  controllers_armed
    (fst (ThreadControlArming 50 (repeat scenario_rc 101)
            (scenario_state, timers_at_start))) = true
  /\ arm_time
       (snd (ThreadControlArming_tick 50 released_rc
               (ThreadControlArming 50 (repeat scenario_rc 30)
                  (scenario_state, timers_at_start)))) = 0%Z.
Proof.
  assert (0 < 50)%Z as HR by lia.
  assert (0 <= 1)%Z as HT by lia.
  assert ((1 + 1) * 50 < 65536)%Z as HK by lia.
  destruct (@arming_hysteresis 50 1 scenario_state HR HT HK eq_refl eq_refl)
    as [Hold Hoff].
  split.
  - apply (Hold timers_at_start (repeat scenario_rc 101) eq_refl).
    + apply Forall_forall. intros rc Hin.
      apply repeat_spec in Hin. subst rc. reflexivity.
    + rewrite repeat_length. lia.
  - apply (Hoff (repeat scenario_rc 30) released_rc); reflexivity.
Defined.

(** C1, as it was stated, fails in its own scenario: threshold 0.1, gesture
    on yaw maximum, one second at 50 Hz.  The sticks are in the arm region,
    [T * R] is 50, and after 50 held ticks from disarmed the flag is still
    clear, the counter standing at 50. *)
Lemma arming_after_50_ticks :
  arm_gesture_held scenario_settings scenario_rc = true
  /\ (arm_stick_time scenario_settings * 50)%Z = 50%Z
  /\ controllers_armed
       (fst (ThreadControlArming 50 (repeat scenario_rc 50)
               (scenario_state, timers_at_start))) = false
  /\ arm_time
       (snd (ThreadControlArming 50 (repeat scenario_rc 50)
               (scenario_state, timers_at_start))) = 50%Z.
Proof. repeat split; vm_compute; reflexivity. Qed.

(** ** The control cycle *)

Lemma vSendPWMCommands_output (s : Control_State) :
  rc_output (vSendPWMCommands s)
  = rc_output s
    ++ map (fun i => (i, pwm_out (control_reference s) i)) (seq 0 8).
Proof.
  destruct s. cbn. repeat rewrite <- app_assoc. reflexivity.
Qed.

Section CycleProofs.

Variable DEG2RAD : float.
Variable atan2f : float -> float -> float.
Variable asinf : float -> float.
Variable fPIUpdate : PI_Data -> float -> float -> PI_Data * float.
Variable attitude_controller : nat.
Variable rate_controller : nat.

Local Abbreviation control_cycle :=
  (vUpdateControlAction DEG2RAD atan2f asinf fPIUpdate
     attitude_controller rate_controller).

(** A cycle with the flag clear: the mode is set, the outputs are disabled,
    the cycle counter moves on, and that is all. *)
Lemma disarmed_cycle q w d r s :
  controllers_armed s = false ->
  control_cycle q w d r s
  = set_cycle (next_cycle (cycle s))
      (vDisableAllOutputs
         (set_control_reference
            (set_mode FLIGHTMODE_DISARMED (control_reference s)) s)).
Proof.
  intro H. unfold vUpdateControlAction, vRCInputsToControlAction.
  rewrite H. destruct s. reflexivity.
Qed.

Lemma disarmed_cycle_kept q w d r s :
  controllers_armed s = false ->
  controller_state_kept s (control_cycle q w d r s).
Proof.
  intro H. rewrite disarmed_cycle by exact H.
  destruct s. repeat split.
Qed.

(** C2, as amended: in every control cycle run with the armed flag clear,
    the switch is entered at the disarmed label only, so no stage of the
    cascade runs; the mode becomes Disarmed, all eight [pwm_out] channels are
    set to 0 and these eight zeros are sent to the output driver, whatever the
    RC input; the actuator demand (throttle, pitch, roll, yaw) is left as it
    was. *)
Theorem disarmed_cycle_outputs
  (q : quaternion_t) (w : vector3f_t) (d : float) (r : RC_Input)
  (s : Control_State) :
  controllers_armed s = false ->
  cascade (mode (control_reference (vRCInputsToControlAction DEG2RAD r s)))
  = [STEP_DISABLE]
  /\ mode (control_reference (control_cycle q w d r s)) = FLIGHTMODE_DISARMED
  /\ (forall i : nat,
         (i < 8)%nat ->
         pwm_out (control_reference (control_cycle q w d r s)) i = 0)
  /\ rc_output (control_cycle q w d r s)
     = rc_output s ++ map (fun i => (i, 0)) (seq 0 8)
  /\ actuator_desired (control_reference (control_cycle q w d r s))
     = actuator_desired (control_reference s).
Proof.
  intro H. split.
  - unfold vRCInputsToControlAction. rewrite H. reflexivity.
  - rewrite disarmed_cycle by exact H. destruct s. repeat split.
    + intros i Hi. cbn.
      do 8 (destruct i as [|i]; [reflexivity|]). lia.
    + cbn. repeat rewrite <- app_assoc. reflexivity.
Qed.

(** C8: the flight mode is fixed at compile time.  Whatever the RC input,
    the reference conversion leaves the mode at Attitude when the controllers
    are armed and at Disarmed when they are not, so an armed cycle enters the
    cascade at the attitude stage and runs attitude, rate, output update and
    send, in this order; the labels of Position, Velocity, Rate, DirectControl
    and DirectPWM are never the entry. *)
Theorem armed_cycle_enters_at_attitude
  (q : quaternion_t) (w : vector3f_t) (d : float) (r : RC_Input)
  (s : Control_State) :
  let s1 := vRCInputsToControlAction DEG2RAD r s in
  mode (control_reference s1)
  = (if controllers_armed s then FLIGHTMODE_ATTITUDE else FLIGHTMODE_DISARMED)
  /\ cascade (mode (control_reference s1))
     = (if controllers_armed s
        then [STEP_ATTITUDE; STEP_RATE; STEP_OUTPUTS; STEP_SEND]
        else [STEP_DISABLE])
  /\ control_cycle q w d r s
     = (if controllers_armed s
        then
          let s2 :=
            vSendPWMCommands
              (vUpdateOutputs
                 (vRateControl fPIUpdate rate_controller w d
                    (vAttitudeControl atan2f asinf fPIUpdate
                       attitude_controller q false d s1))) in
          set_cycle (next_cycle (cycle s2)) s2
        else
          let s2 := vDisableAllOutputs s1 in
          set_cycle (next_cycle (cycle s2)) s2).
Proof.
  unfold vUpdateControlAction, vRCInputsToControlAction.
  destruct (controllers_armed s); repeat split.
Qed.

Lemma disarmed_cycles_kept (inputs : list Cycle_Input) : forall s,
  controllers_armed s = false ->
  controller_state_kept s
    (ThreadControl DEG2RAD atan2f asinf fPIUpdate attitude_controller
       rate_controller inputs s).
Proof.
  unfold ThreadControl.
  induction inputs as [|c inputs IH]; intros s H.
  - cbn. repeat split.
  - cbn [fold_left].
    pose proof (disarmed_cycle_kept (q_m c) (omega_m c) (dt c) (rc c) s H)
      as K1.
    assert (controllers_armed
              (control_cycle (q_m c) (omega_m c) (dt c) (rc c) s) = false)
      as H1.
    { unfold controller_state_kept in K1. rewrite <- H. apply K1. }
    specialize (IH _ H1). unfold controller_state_kept in *.
    repeat match goal with H : _ /\ _ |- _ => destruct H end.
    repeat split; congruence.
Qed.

Lemma next_cycle_moves (i : Z) : next_cycle i <> i.
Proof. unfold next_cycle. destruct (i >? 40)%Z eqn:E; lia. Qed.

Lemma disarmed_cycles_rest (inputs : list Cycle_Input) : forall s,
  controllers_armed s = false ->
  (forall i : nat,
      (8 <= i)%nat ->
      pwm_out (control_reference
                 (ThreadControl DEG2RAD atan2f asinf fPIUpdate
                    attitude_controller rate_controller inputs s)) i
      = pwm_out (control_reference s) i)
  /\ cycle (ThreadControl DEG2RAD atan2f asinf fPIUpdate attitude_controller
              rate_controller inputs s)
     = Nat.iter (length inputs) next_cycle (cycle s).
Proof.
  unfold ThreadControl.
  induction inputs as [|c inputs IH]; intros s H.
  - split; reflexivity.
  - cbn [fold_left length].
    pose proof (disarmed_cycle_kept (q_m c) (omega_m c) (dt c) (rc c) s H)
      as K1.
    assert (controllers_armed
              (control_cycle (q_m c) (omega_m c) (dt c) (rc c) s) = false)
      as H1.
    { unfold controller_state_kept in K1. rewrite <- H. apply K1. }
    destruct (IH _ H1) as [P C]. split.
    + intros i Hi. rewrite P by exact Hi.
      rewrite disarmed_cycle by exact H. destruct s. cbn.
      do 8 (destruct i as [|i]; [lia|]). reflexivity.
    + rewrite C, Nat.iter_succ_r.
      rewrite disarmed_cycle by exact H. destruct s. reflexivity.
Qed.

(** C9, as amended: a control cycle run while disarmed writes the mode, the
    eight [pwm_out] channels and the static cycle counter [i] of
    [vUpdateControlAction], and nothing else of the state: the PI
    controllers of [control_data], the rate filter, the attitude reference,
    the rate reference, the actuator demand, the target, the settings, the
    limits, the mixer, the staging buffer and the armed flag are as before,
    and [pwm_out] is untouched from index 8 on.  The same holds after any
    number of disarmed cycles in a row, so the controller state is carried
    into the next armed period.  The counter is not kept: each cycle moves
    it on by [if (i++ > 40) i = 0], so it differs after every cycle.  (The
    cycle also hands the channel values to the output driver.) *)
Theorem disarmed_cycles_frame (inputs : list Cycle_Input) (s : Control_State) :
  controllers_armed s = false ->
  let s' := ThreadControl DEG2RAD atan2f asinf fPIUpdate attitude_controller
              rate_controller inputs s in
  controller_state_kept s s'
  /\ (forall i : nat,
         (8 <= i)%nat ->
         pwm_out (control_reference s') i = pwm_out (control_reference s) i)
  /\ cycle s' = Nat.iter (length inputs) next_cycle (cycle s)
  /\ (forall c : Cycle_Input,
         cycle (control_cycle (q_m c) (omega_m c) (dt c) (rc c) s)
         = (if (cycle s >? 40)%Z then 0 else cycle s + 1)%Z
         /\ cycle (control_cycle (q_m c) (omega_m c) (dt c) (rc c) s)
            <> cycle s).
Proof.
  intros H s'. subst s'.
  destruct (disarmed_cycles_rest inputs s H) as [P C].
  split; [apply disarmed_cycles_kept; exact H|].
  split; [exact P|]. split; [exact C|].
  intro c. rewrite disarmed_cycle by exact H.
  destruct s. cbn [cycle set_cycle]. split.
  - reflexivity.
  - apply next_cycle_moves.
Qed.

End CycleProofs.

(** ** The stages of the cascade *)

Lemma upd_same {A : Type} (a : nat -> A) (i : nat) (v : A) : upd a i v i = v.
Proof. unfold upd. rewrite Nat.eqb_refl. reflexivity. Qed.

Lemma upd_other {A : Type} (a : nat -> A) (i j : nat) (v : A) :
  j <> i -> upd a i v j = a j.
Proof.
  intro H. unfold upd. apply Nat.eqb_neq in H. rewrite H. reflexivity.
Qed.

Section StageProofs.

Variable atan2f : float -> float -> float.
Variable asinf : float -> float.
Variable fPIUpdate : PI_Data -> float -> float -> PI_Data * float.
Variable attitude_controller : nat.
Variable rate_controller : nat.

(** What does hold of the attitude stage: the pitch error is the pitch
    reference minus the measured pitch, and both outputs lie within the
    limits, as long as these are not negative. *)
Lemma attitude_stage_bounds (q : quaternion_t) (d : float) (s : Control_State) :
  (0 <= lim_pitch (max_rate_attitude (control_limits s)))%Q ->
  (0 <= lim_roll (max_rate_attitude (control_limits s)))%Q ->
  let s' := vAttitudeControl atan2f asinf fPIUpdate attitude_controller
              q false d s in
  let lim := max_rate_attitude (control_limits s) in
  y (attitude_error atan2f asinf (control_reference s) q)
  = (x (attitude_reference (control_reference s))
     - asinf (2 * (q0 q * q2 q - q1 q * q3 q)))%Q
  /\ (- lim_pitch lim <= x (rate_reference (control_reference s')))%Q
  /\ (x (rate_reference (control_reference s')) <= lim_pitch lim)%Q
  /\ (- lim_roll lim <= y (rate_reference (control_reference s')))%Q
  /\ (y (rate_reference (control_reference s')) <= lim_roll lim)%Q.
Proof.
  intros Hp Hr s' lim. subst s' lim. unfold vAttitudeControl.
  destruct (fPIUpdate _ _ _) as [c0 ux].
  destruct (fPIUpdate _ _ _) as [c1 uy].
  cbn.
  destruct (bound_between
              (lim_pitch (max_rate_attitude (control_limits s)))
              (- lim_pitch (max_rate_attitude (control_limits s))) ux)
    as [A1 A2]; [lra|].
  destruct (bound_between
              (lim_roll (max_rate_attitude (control_limits s)))
              (- lim_roll (max_rate_attitude (control_limits s))) uy)
    as [B1 B2]; [lra|].
  repeat split; assumption.
Qed.

(** C3, where the code departs from it: the error of the roll axis is formed
    from the pitch reference [attitude_reference.x], with the measured roll
    added to it; the roll reference [attitude_reference.y] is not read at
    all.  With the roll reference at 1/2, level attitude and unit gains the
    stage hands on a roll rate of 0 where reference minus measurement is
    1/2. *)
Theorem attitude_roll_error_ignores_roll_reference
  (cr : Control_Reference) (q : quaternion_t) (r : float) :
  x (attitude_error atan2f asinf cr q)
  = (x (attitude_reference cr)
     + atan2f (2 * (q0 q * q1 q + q2 q * q3 q))
              (1 - 2 * (q1 q * q1 q + q2 q * q2 q)))%Q
  /\ attitude_error atan2f asinf
       (set_attitude_reference (set_y r (attitude_reference cr)) cr) q
     = attitude_error atan2f asinf cr q
  /\ y (attitude_reference (control_reference tuned_state)) = 1 # 2
  /\ x (attitude_error sample_atan2f sample_asinf
          (control_reference tuned_state) level_attitude) = 0
  /\ y (rate_reference
          (control_reference
             (vAttitudeControl sample_atan2f sample_asinf sample_fPIUpdate 6
                level_attitude false (1 # 200) tuned_state))) = 0.
Proof. repeat split. Qed.

Lemma alpha_complement : (1 - alpha == 8 # 10)%Q.
Proof. reflexivity. Qed.

(** C4: the rate stage filters each component of the measurement by
    [filtered = 0.2 * new + 0.8 * filtered]; the error of each axis is the
    rate reference of that axis minus the filtered measurement of the same
    axis; the three demands are the controller outputs clamped to [-1, 1].
    The axes are pitch, roll and yaw: the pitch reference is the field
    [rate_reference.x] (written from the pitch stick and from the pitch
    attitude controller) and the pitch rate is the y component of the
    measurement, filtered into [t2]; the roll reference is
    [rate_reference.y] and the roll rate the x component, filtered into
    [t1]; yaw is the z field and the z component, filtered into [t3]. *)
Theorem rate_stage (w : vector3f_t) (d : float) (s : Control_State) :
  let s' := vRateControl fPIUpdate rate_controller w d s in
  let f := rate_filter s in
  let f' := rate_filter s' in
  let rr := rate_reference (control_reference s) in
  let pi := control_data s in
  let u := actuator_desired (control_reference s') in
  (t1 f' == (2 # 10) * x w + (8 # 10) * t1 f
   /\ t2 f' == (2 # 10) * y w + (8 # 10) * t2 f
   /\ t3 f' == (2 # 10) * z w + (8 # 10) * t3 f)%Q
  /\ pitch u
     = bound 1 (-1)
         (snd (fPIUpdate (pi (rate_controller + 0)%nat) (x rr - t2 f')%Q d))
  /\ roll u
     = bound 1 (-1)
         (snd (fPIUpdate (pi (rate_controller + 1)%nat) (y rr - t1 f')%Q d))
  /\ yaw u
     = bound 1 (-1)
         (snd (fPIUpdate (pi (rate_controller + 2)%nat) (z rr - t3 f')%Q d))
  /\ (-1 <= pitch u <= 1 /\ -1 <= roll u <= 1 /\ -1 <= yaw u <= 1)%Q.
Proof.
  cbv zeta.
  assert (forall v, (-1 <= bound 1 (-1) v <= 1)%Q) as Hb.
  { intro v. apply bound_between. discriminate. }
  unfold vRateControl.
  rewrite (surjective_pairing (fPIUpdate _ _ _)).
  rewrite (surjective_pairing (fPIUpdate (upd _ _ _ _) _ _)).
  rewrite (surjective_pairing (fPIUpdate (upd (upd _ _ _) _ _ _) _ _)).
  cbn.
  rewrite !upd_other by lia.
  split; [|split; [|split; [|split]]]; try reflexivity.
  - unfold alpha. repeat split; ring.
  - repeat split; apply Hb.
Qed.

(** C5: the output stage sets each of the eight channels to the weighted sum
    of the four actuator demands clamped to [-1, 1]; the channel equals the
    sum itself whenever the sum lies in [-1, 1], and always lies in
    [-1, 1]. *)
Theorem mixer_output (s : Control_State) (i : nat) :
  (i < 8)%nat ->
  let u := actuator_desired (control_reference s) in
  let w := weights (output_mixer s) i in
  let sum := (throttle u * w 0%nat + pitch u * w 1%nat + roll u * w 2%nat
              + yaw u * w 3%nat)%Q in
  let out := pwm_out (control_reference (vUpdateOutputs s)) i in
  out = bound 1 (-1) sum
  /\ ((-1 <= sum <= 1)%Q -> out = sum)
  /\ (-1 <= out <= 1)%Q.
Proof.
  intros Hi u w sum out.
  assert (out = bound 1 (-1) sum) as E.
  { subst out sum u w. destruct s.
    do 8 (destruct i as [|i]; [reflexivity|]). lia. }
  rewrite E. split; [reflexivity|]. split.
  - intros [H1 H2]. unfold bound.
    destruct (flt 1 sum) eqn:F1.
    + apply flt_true in F1. lra.
    + destruct (flt sum (-1)) eqn:F2; [|reflexivity].
      apply flt_true in F2. lra.
  - apply bound_between. discriminate.
Qed.

End StageProofs.

(** ** Witnesses and counterexamples for the control cycle *)

(** A disarmed cycle after a flight at half throttle: eight zeros go out. *)
Lemma disarmed_cycle_outputs_witness :
  controllers_armed landed_state = false
  /\ pwm_out (control_reference (sample_cycle hover_input landed_state)) 3%nat
     = 0
  /\ rc_output (sample_cycle hover_input landed_state)
     = rc_output landed_state ++ map (fun i => (i, 0)) (seq 0 8).
Proof.
  split; [reflexivity|].
  destruct (disarmed_cycle_outputs sample_DEG2RAD sample_atan2f sample_asinf
              sample_fPIUpdate 6 9 (q_m hover_input) (omega_m hover_input)
              (dt hover_input) (rc hover_input) landed_state eq_refl)
    as (_ & _ & Hpwm & Hout & _).
  split; [apply Hpwm; lia | exact Hout].
Defined.

(** C2, as it was stated, fails: after one armed cycle at half throttle and a
    forced disarm, a cycle run disarmed leaves the throttle demand at 1/2; it
    is not forced to 0. *)
Lemma disarmed_cycle_keeps_throttle :
  controllers_armed landed_state = false
  /\ throttle (actuator_desired
                 (control_reference (sample_cycle hover_input landed_state)))
     = 1 # 2
  /\ Qeq_bool
       (throttle
          (actuator_desired
             (control_reference (sample_cycle hover_input landed_state))))
       0 = false.
Proof. repeat split. Qed.

(** Two disarmed cycles after the flight: the throttle demand of the flight
    and the controllers are still there, and the counter has moved on from 1
    to 3. *)
Lemma disarmed_cycles_frame_witness :
  controller_state_kept landed_state
    (sample_cycle hover_input (sample_cycle hover_input landed_state))
  /\ cycle landed_state = 1%Z
  /\ cycle (sample_cycle hover_input (sample_cycle hover_input landed_state))
     = 3%Z.
Proof.
  pose proof (disarmed_cycles_frame sample_DEG2RAD sample_atan2f sample_asinf
                sample_fPIUpdate 6 9 [hover_input; hover_input] landed_state
                eq_refl) as H.
  cbv zeta in H. destruct H as (H1 & _ & H3 & _).
  split; [exact H1|]. split; [reflexivity | exact H3].
Defined.

(** C9, as it was stated, fails: one disarmed cycle after the flight has
    written something besides the mode and the eight channels, the cycle
    counter, which was 1 and is 2. *)
Lemma disarmed_cycle_changes_counter :
  controllers_armed landed_state = false
  /\ cycle landed_state = 1%Z
  /\ cycle (sample_cycle hover_input landed_state) = 2%Z
  /\ (cycle (sample_cycle hover_input landed_state) =? cycle landed_state)%Z
     = false.
Proof. repeat split. Qed.

(** With the first mixer row at [1, 0, 0, 0] and a throttle demand of 0.5
    alone, channel 0 is 0.5. *)
Lemma mixer_output_witness :
  pwm_out (control_reference (vUpdateOutputs tuned_state)) 0%nat = 1 # 2.
Proof.
  assert (0 < 8)%nat as H by lia.
  exact (proj1 (mixer_output tuned_state 0%nat H)).
Defined.

(** ** The forced disarm *)

(** C6: [vControlForceDisarm] clears the armed flag when the key is
    [0xdeadbeef], whatever the rest of the state, which it leaves as it is;
    with any other key it returns the state unchanged.  The flag after the
    call is therefore clear exactly when the key matched or the flag was
    clear before. *)
Theorem forced_disarm (key : Z) (s : Control_State) :
  disarm_key = 3735928559%Z
  /\ (key = disarm_key ->
      vControlForceDisarm key s = set_controllers_armed false s)
  /\ (key <> disarm_key -> vControlForceDisarm key s = s)
  /\ (controllers_armed (vControlForceDisarm key s) = false
      <-> key = disarm_key \/ controllers_armed s = false).
Proof.
  unfold vControlForceDisarm. split; [reflexivity|].
  destruct (key =? disarm_key)%Z eqn:E.
  - apply Z.eqb_eq in E. repeat split; auto. intro H. contradiction.
  - apply Z.eqb_neq in E. repeat split; auto.
    + intro H. contradiction.
    + intros [H|H]; [contradiction | exact H].
Qed.

(** In flight, the key disarms and any other value does nothing. *)
Lemma forced_disarm_witness :
  controllers_armed (vControlForceDisarm 0xdeadbeef flown_state) = false
  /\ vControlForceDisarm 0xdeadbeee flown_state = flown_state.
Proof.
  split.
  - apply (proj2 (proj2 (proj2 (forced_disarm 0xdeadbeef flown_state)))).
    left. reflexivity.
  - apply (proj1 (proj2 (proj2 (forced_disarm 0xdeadbeee flown_state)))).
    discriminate.
Defined.

(** ** The gain accessors *)

Lemma fold_upd_pointwise {A : Type} (step : (nat -> A) -> nat -> nat -> A)
  (g : nat -> A -> A) :
  (forall a i k, step a i k = if Nat.eqb k i then g i (a i) else a k) ->
  forall n a k,
    fold_left step (seq 0 n) a k = if Nat.ltb k n then g k (a k) else a k.
Proof.
  intros Hstep n. induction n as [|n IH]; intros a k.
  - reflexivity.
  - rewrite seq_S, fold_left_app. cbn [fold_left Nat.add].
    rewrite Hstep, !IH, Nat.ltb_irrefl.
    destruct (Nat.eqb k n) eqn:E.
    + apply Nat.eqb_eq in E. subst k.
      rewrite (proj2 (Nat.ltb_lt n (S n))) by lia. reflexivity.
    + apply Nat.eqb_neq in E.
      destruct (Nat.ltb k n) eqn:L.
      * apply Nat.ltb_lt in L.
        rewrite (proj2 (Nat.ltb_lt k (S n))) by lia. reflexivity.
      * apply Nat.ltb_ge in L.
        rewrite (proj2 (Nat.ltb_ge k (S n))) by lia. reflexivity.
Qed.

Section AccessorProofs.

Variable N : nat.

Lemma GetControlParameters_at (s : Control_State) (out : Control_Parameters)
  (i : nat) :
  (i < N)%nat ->
  GetControlParameters N s out i
  = mk_par (Kp (control_data s i)) (Ki (control_data s i))
           (output_min (control_data s i)).
Proof.
  intro Hi. unfold GetControlParameters.
  rewrite (fold_upd_pointwise _
             (fun i p => mk_par (Kp (control_data s i)) (Ki (control_data s i))
                                (output_min (control_data s i)))).
  - rewrite (proj2 (Nat.ltb_lt i N)) by exact Hi. reflexivity.
  - intros a j k. cbn. unfold upd at 1.
    destruct (Nat.eqb k j) eqn:E; [|unfold upd; rewrite E; reflexivity].
    rewrite !upd_same. reflexivity.
Qed.

Lemma SetControlParameters_at (p : Control_Parameters) (s : Control_State)
  (i : nat) :
  (i < N)%nat ->
  control_data (SetControlParameters N p s) i
  = mk_pi (par_Kp (p i)) (par_Ki (p i)) (par_output_min (p i))
          (pi_tail (control_data s i)).
Proof.
  intro Hi. unfold SetControlParameters. cbn [control_data set_control_data].
  rewrite (fold_upd_pointwise _
             (fun i c => mk_pi (par_Kp (p i)) (par_Ki (p i))
                               (par_output_min (p i)) (pi_tail c))).
  - rewrite (proj2 (Nat.ltb_lt i N)) by exact Hi. reflexivity.
  - intros a j k. cbn. unfold upd at 1.
    destruct (Nat.eqb k j) eqn:E; [|unfold upd; rewrite E; reflexivity].
    rewrite !upd_same. reflexivity.
Qed.

(** C10: storing a parameter set with [SetControlParameters] and reading it
    back with [GetControlParameters] returns, for each of the
    [CONTROL_NUMBER_OF_CONTROLLERS] controllers, the three floats that were
    stored, whatever the receiving structure held before; the floats of a
    controller past the first three are not touched by the store. *)
Theorem set_then_get_parameters
  (p out : Control_Parameters) (s : Control_State) (i j : nat) :
  (i < N)%nat -> (j < 3)%nat ->
  f_par (GetControlParameters N (SetControlParameters N p s) out i) j
  = f_par (p i) j
  /\ GetControlParameters N (SetControlParameters N p s) out i = p i
  /\ pi_tail (control_data (SetControlParameters N p s) i)
     = pi_tail (control_data s i).
Proof.
  intros Hi Hj.
  rewrite GetControlParameters_at, !SetControlParameters_at by exact Hi.
  cbn. destruct (p i). repeat split.
Qed.

End AccessorProofs.

(** Twelve controllers: the triple stored for controller 7 is read back. *)
Lemma set_then_get_parameters_witness :
  GetControlParameters 12 (SetControlParameters 12 sample_parameters zero_state)
    (fun _ => mk_par 9 9 9) 7%nat
  = mk_par 7 (1 # 2) (- (1)).
Proof.
  assert (7 < 12)%nat as Hi by lia.
  assert (1 < 3)%nat as Hj by lia.
  exact (proj1 (proj2 (set_then_get_parameters 12 sample_parameters
                         (fun _ => mk_par 9 9 9) zero_state 7 1 Hi Hj))).
Defined.

(** ** The parameter load at startup *)

(** C7, as amended: at startup the gain block is read into the staging
    buffer and copied into the live controllers only if its read reports
    success; the arm settings, the limits and the mixer weights are read
    straight into the live structures without a look at the status, so each
    holds whatever its read left in the buffer.  With reads that fail and
    leave their buffers untouched the load changes nothing, and the
    configuration is the one [ControlInit] has set: gains, limits and mixer
    weights at 0, and arm settings of threshold 0, minimum throttle 0, no
    stick direction, 5 s of stick time and 30 s of zero-throttle timeout.
    No outcome of the reads halts the system: [ControlInit] halts exactly
    when the output driver fails to initialise. *)
Theorem parameter_load (N : nat) (fl : Flash_Store) (s : Control_State) :
  let s' := vReadControlParametersFromFlash N fl s in
  let gains := FlashSave_Read_CONP fl (flash_save_control_parameters s) in
  (arm_settings s' = snd (FlashSave_Read_CONA fl (arm_settings s))
   /\ control_limits s' = snd (FlashSave_Read_CONL fl (control_limits s))
   /\ output_mixer s' = snd (FlashSave_Read_CONM fl (output_mixer s))
   /\ flash_save_control_parameters s' = snd gains
   /\ control_data s'
      = match fst gains with
        | FLASHSAVE_OK => control_data (SetControlParameters N (snd gains) s)
        | FLASHSAVE_ERROR => control_data s
        end)
  /\ (forall sa sl sm : FlashSave_Status,
         vReadControlParametersFromFlash N
           (quiet_flash sa FLASHSAVE_ERROR sl sm) s = s)
  /\ (forall sa sl sm : FlashSave_Status,
         exists s0 : Control_State,
           ControlInit N true (quiet_flash sa FLASHSAVE_ERROR sl sm) s
           = Started s0
           /\ arm_settings s0 = mk_arm_settings 0 0 STICK_NONE 5 30
           /\ control_limits s0
              = mk_limits (mk_angle_limits 0 0) (mk_rate_limits 0 0 0)
                          (mk_angle_limits 0 0)
           /\ (forall i j : nat, weights (output_mixer s0) i j = 0)
           /\ (forall i : nat,
                  Kp (control_data s0 i) = 0 /\ Ki (control_data s0 i) = 0
                  /\ output_min (control_data s0 i) = 0))
  /\ (forall ok : bool, ControlInit N ok fl s = Halted <-> ok = false).
Proof.
  cbv zeta. split; [|split; [|split]].
  - unfold vReadControlParametersFromFlash. destruct s. cbn.
    destruct (FlashSave_Read_CONP fl _) as [[|] buffer]; repeat split.
  - intros sa sl sm. destruct s. reflexivity.
  - intros sa sl sm. eexists. split; [reflexivity|]. repeat split.
  - intros [|]; unfold ControlInit; cbn; split; intro H;
      try reflexivity; discriminate H.
Qed.

(** C7, as it was stated, fails for the arm settings: after a startup whose
    four reads all fail and leave their buffers untouched, the system runs,
    and the stick time and the zero-throttle timeout are the 5 s and 30 s of
    [ControlInit], not 0. *)
Lemma failed_reads_keep_nonzero_arm_settings :
  match ControlInit 12 true
          (quiet_flash FLASHSAVE_ERROR FLASHSAVE_ERROR FLASHSAVE_ERROR
             FLASHSAVE_ERROR) zero_state with
  | Started s =>
      arm_stick_time (arm_settings s) = 5%Z
      /\ arm_zero_throttle_timeout (arm_settings s) = 30%Z
  | Halted => False
  end.
Proof. split; reflexivity. Qed.

(* ===================================================================== *)
(** * Further properties of the arming thread *)
(* ===================================================================== *)

Section ArmingMore.

Variable R : Z.
Hypothesis R_pos : (0 < R)%Z.

Lemma disarm_held_tick rc s tm :
  disarm_gesture_held (arm_settings s) rc = true ->
  ThreadControlArming_tick R rc (s, tm) =
    if time_reached R (disarm_time tm) (arm_stick_time (arm_settings s))
    then (set_controllers_armed false s, tm)
    else (s, mk_timers 0 (incr16 (disarm_time tm)) 0).
Proof.
  unfold disarm_gesture_held, gate_open, ThreadControlArming_tick.
  intro H. apply andb_prop in H as [H Hr]. apply andb_prop in H as [H He].
  rewrite H. apply negb_true_iff in He. rewrite He.
  destruct (SticksInRegion (arm_settings s) rc); try discriminate Hr.
  reflexivity.
Qed.

Lemma disarm_held_run (T : Z) (rcs : list RC_Input) : forall s tm,
  arm_stick_time (arm_settings s) = T ->
  (0 <= T)%Z -> ((T + 1) * R < 65536)%Z ->
  (0 <= disarm_time tm <= (T + 1) * R)%Z ->
  Forall (fun rc => disarm_gesture_held (arm_settings s) rc = true) rcs ->
  disarm_time (snd (ThreadControlArming R rcs (s, tm)))
  = Z.min (disarm_time tm + Z.of_nat (length rcs)) ((T + 1) * R)
  /\ (controllers_armed (fst (ThreadControlArming R rcs (s, tm))) = false <->
      controllers_armed s = false
      \/ ((T + 1) * R < disarm_time tm + Z.of_nat (length rcs))%Z).
Proof.
  unfold ThreadControlArming.
  induction rcs as [|rc rcs IH]; intros s tm HsT HT HK Ha Hall.
  - simpl. split; [lia|]. split; [auto|]. intros [H|H]; [exact H|lia].
  - inversion Hall as [|? ? Hrc Hrest]; subst.
    cbn [fold_left]. rewrite disarm_held_tick by exact Hrc.
    change (length (rc :: rcs)) with (S (length rcs)).
    rewrite Nat2Z.inj_succ.
    destruct (time_reached R (disarm_time tm)
                (arm_stick_time (arm_settings s))) eqn:E.
    + apply time_reached_iff in E; [|exact R_pos|lia|lia].
      destruct (IH (set_controllers_armed false s) tm eq_refl HT HK Ha Hrest)
        as [IH1 IH2].
      rewrite IH1, IH2. simpl controllers_armed.
      split; [lia|]. split; intros _; [right; lia | left; reflexivity].
    + assert (~ ((arm_stick_time (arm_settings s) + 1) * R
                 <= disarm_time tm)%Z) as Hlt.
      { intro H. apply time_reached_iff in H; [|exact R_pos|lia|lia].
        congruence. }
      assert (incr16 (disarm_time tm) = disarm_time tm + 1)%Z as Hinc.
      { unfold incr16. apply Z.mod_small. lia. }
      destruct (IH s (mk_timers 0 (incr16 (disarm_time tm)) 0) eq_refl HT HK)
        as [IH1 IH2]; [simpl; lia | exact Hrest |].
      rewrite IH1, IH2. simpl disarm_time. rewrite Hinc.
      split; [lia|]. split; (intros [H|H]; [left; exact H | right; lia]).
Qed.

End ArmingMore.

(** X1: the disarm gesture has the same hysteresis as the arm gesture.
    Starting armed with [disarm_time = 0] and holding the sticks in the disarm
    region (link active, direction configured, emergency stop released), the
    armed flag is cleared exactly when more than [(T + 1) * R] consecutive
    ticks have been held, and the counter stands at the number of ticks held,
    capped at [(T + 1) * R]. *)
Theorem disarming_hysteresis (R T : Z) (s : Control_State)
  (tm : Arming_Timers) (held : list RC_Input) :
  (0 < R)%Z -> (0 <= T)%Z -> ((T + 1) * R < 65536)%Z ->
  arm_stick_time (arm_settings s) = T ->
  controllers_armed s = true ->
  disarm_time tm = 0%Z ->
  Forall (fun rc => disarm_gesture_held (arm_settings s) rc = true) held ->
  (controllers_armed (fst (ThreadControlArming R held (s, tm))) = false
   <-> ((T + 1) * R < Z.of_nat (length held))%Z)
  /\ disarm_time (snd (ThreadControlArming R held (s, tm)))
     = Z.min (Z.of_nat (length held)) ((T + 1) * R).
Proof.
  intros HR HT HK HsT Ha Htm Hheld.
  destruct (@disarm_held_run R HR T held s tm HsT HT HK) as [H1 H2];
    [rewrite Htm; lia | exact Hheld |].
  rewrite H1, H2, Htm, Ha. split; [|reflexivity].
  split; [intros [H|H]; [discriminate H | lia] | intro H; right; lia].
Qed.

(** The scenario at 50 Hz with one second of stick time, armed, yaw held at
    -1.0: still armed after 100 ticks, disarmed by the 101st. *)
Lemma disarming_hysteresis_witness :
  controllers_armed
    (fst (ThreadControlArming 50 (repeat scenario_disarm_rc 101)
            (scenario_armed_state, timers_at_start))) = false
  /\ disarm_time
       (snd (ThreadControlArming 50 (repeat scenario_disarm_rc 100)
               (scenario_armed_state, timers_at_start))) = 100%Z.
Proof.
  assert (0 < 50)%Z as HR by lia.
  assert (0 <= 1)%Z as HT by lia.
  assert ((1 + 1) * 50 < 65536)%Z as HK by lia.
  assert (forall n,
             Forall (fun rc => disarm_gesture_held
                                 (arm_settings scenario_armed_state) rc = true)
                    (repeat scenario_disarm_rc n)) as Hall.
  { intro n. apply Forall_forall. intros rc Hin.
    apply repeat_spec in Hin. subst rc. reflexivity. }
  split.
  - apply (disarming_hysteresis 50 1 scenario_armed_state timers_at_start
             (repeat scenario_disarm_rc 101) HR HT HK eq_refl eq_refl eq_refl
             (Hall 101%nat)).
    rewrite repeat_length. lia.
  - rewrite (proj2 (disarming_hysteresis 50 1 scenario_armed_state
                      timers_at_start (repeat scenario_disarm_rc 100)
                      HR HT HK eq_refl eq_refl eq_refl (Hall 100%nat))).
    rewrite repeat_length. reflexivity.
Defined.

(** Every path through a tick, after the section that first walked them. *)
Ltac tick_cases :=
  repeat match goal with
         | |- context [if ?c then _ else _] => destruct c
         | |- context [match SticksInRegion ?a ?r with _ => _ end] =>
             destruct (SticksInRegion a r)
         end.

Section ArmingEdges.

Variable R : Z.
Hypothesis R_pos : (0 < R)%Z.

Lemma idle_tick rc s tm :
  idle_at_low_throttle (arm_settings s) rc = true ->
  ThreadControlArming_tick R rc (s, tm) =
    if (arm_zero_throttle_timeout (arm_settings s) =? 0)%Z
    then (s, mk_timers 0 0 (timeout_time tm))
    else if time_reached R (timeout_time tm)
              (arm_zero_throttle_timeout (arm_settings s))
    then (set_controllers_armed false s, mk_timers 0 0 (timeout_time tm))
    else (s, mk_timers 0 0 (incr16 (timeout_time tm))).
Proof.
  unfold idle_at_low_throttle, gate_open, ThreadControlArming_tick.
  intro H. apply andb_prop in H as [H Hthr]. apply andb_prop in H as [H Hr].
  apply andb_prop in H as [H He].
  rewrite H. apply negb_true_iff in He. rewrite He.
  destruct (SticksInRegion (arm_settings s) rc); try discriminate Hr.
  cbn. rewrite Hthr. reflexivity.
Qed.

Lemma idle_run (Zt : Z) (rcs : list RC_Input) : forall s tm,
  arm_zero_throttle_timeout (arm_settings s) = Zt ->
  (0 < Zt)%Z -> ((Zt + 1) * R < 65536)%Z ->
  (0 <= timeout_time tm <= (Zt + 1) * R)%Z ->
  Forall (fun rc => idle_at_low_throttle (arm_settings s) rc = true) rcs ->
  timeout_time (snd (ThreadControlArming R rcs (s, tm)))
  = Z.min (timeout_time tm + Z.of_nat (length rcs)) ((Zt + 1) * R)
  /\ (controllers_armed (fst (ThreadControlArming R rcs (s, tm))) = false <->
      controllers_armed s = false
      \/ ((Zt + 1) * R < timeout_time tm + Z.of_nat (length rcs))%Z).
Proof.
  unfold ThreadControlArming.
  induction rcs as [|rc rcs IH]; intros s tm HsZ HZ HK Ha Hall.
  - simpl. split; [lia|]. split; [auto|]. intros [H|H]; [exact H|lia].
  - inversion Hall as [|? ? Hrc Hrest]; subst.
    cbn [fold_left]. rewrite idle_tick by exact Hrc.
    change (length (rc :: rcs)) with (S (length rcs)).
    rewrite Nat2Z.inj_succ.
    rewrite (proj2 (Z.eqb_neq _ 0)) by lia.
    destruct (time_reached R (timeout_time tm)
                (arm_zero_throttle_timeout (arm_settings s))) eqn:E.
    + apply time_reached_iff in E; [|exact R_pos|lia|lia].
      destruct (IH (set_controllers_armed false s)
                  (mk_timers 0 0 (timeout_time tm)) eq_refl HZ HK Ha Hrest)
        as [IH1 IH2].
      rewrite IH1, IH2. simpl.
      split; [lia|]. split; intros _; [right; lia | left; reflexivity].
    + assert (~ ((arm_zero_throttle_timeout (arm_settings s) + 1) * R
                 <= timeout_time tm)%Z) as Hlt.
      { intro H. apply time_reached_iff in H; [|exact R_pos|lia|lia].
        congruence. }
      assert (incr16 (timeout_time tm) = timeout_time tm + 1)%Z as Hinc.
      { unfold incr16. apply Z.mod_small. lia. }
      destruct (IH s (mk_timers 0 0 (incr16 (timeout_time tm))) eq_refl HZ HK)
        as [IH1 IH2]; [simpl; lia | exact Hrest |].
      rewrite IH1, IH2. simpl timeout_time. rewrite Hinc.
      split; [lia|]. split; (intros [H|H]; [left; exact H | right; lia]).
Qed.

Lemma idle_run_disabled (rcs : list RC_Input) : forall s tm,
  arm_zero_throttle_timeout (arm_settings s) = 0%Z ->
  timeout_time tm = 0%Z ->
  Forall (fun rc => idle_at_low_throttle (arm_settings s) rc = true) rcs ->
  timeout_time (snd (ThreadControlArming R rcs (s, tm))) = 0%Z
  /\ controllers_armed (fst (ThreadControlArming R rcs (s, tm)))
     = controllers_armed s.
Proof.
  unfold ThreadControlArming.
  induction rcs as [|rc rcs IH]; intros s tm HsZ Htm Hall.
  - simpl. split; [exact Htm | reflexivity].
  - inversion Hall as [|? ? Hrc Hrest]; subst.
    cbn [fold_left]. rewrite idle_tick by exact Hrc.
    rewrite HsZ. cbn. apply IH; [exact HsZ | exact Htm | exact Hrest].
Qed.

(** A run of ticks that all take the outer [else]. *)
Lemma closed_run (rcs : list RC_Input) : forall s tm,
  Forall (fun rc => gate_closed (arm_settings s) rc = true) rcs ->
  ThreadControlArming R rcs (s, tm)
  = (match rcs with [] => s | _ :: _ => set_controllers_armed false s end, tm).
Proof.
  unfold ThreadControlArming.
  induction rcs as [|rc rcs IH]; intros s tm Hall.
  - reflexivity.
  - inversion Hall as [|? ? Hrc Hrest]; subst.
    cbn [fold_left].
    assert (ThreadControlArming_tick R rc (s, tm)
            = (set_controllers_armed false s, tm)) as E.
    { unfold gate_closed in Hrc. apply negb_true_iff in Hrc.
      unfold ThreadControlArming_tick. rewrite Hrc. reflexivity. }
    rewrite E, IH by exact Hrest.
    destruct rcs; reflexivity.
Qed.

(** A tick on which the arm gesture is not held leaves [arm_time] as it was
    or at 0, and does not set the flag. *)
Lemma unheld_tick rc s tm :
  arm_gesture_held (arm_settings s) rc = false ->
  (arm_time (snd (ThreadControlArming_tick R rc (s, tm))) = arm_time tm
   \/ arm_time (snd (ThreadControlArming_tick R rc (s, tm))) = 0%Z)
  /\ (controllers_armed (fst (ThreadControlArming_tick R rc (s, tm))) = true ->
      controllers_armed s = true).
Proof.
  unfold arm_gesture_held, gate_open, ThreadControlArming_tick.
  destruct (bActiveRCInputConnection rc); cbn;
    [|intros _; split; [left; reflexivity | discriminate]].
  destruct (is_STICK_NONE (stick_direction (arm_settings s))); cbn;
    [intros _; split; [left; reflexivity | discriminate]|].
  destruct (flt (RCInputGetInputLevel rc ROLE_AUX1) (1 # 2)); cbn;
    [intros _; split; [right; reflexivity | discriminate]|].
  destruct (SticksInRegion (arm_settings s) rc); cbn; intro H;
    try discriminate H; tick_cases; cbn; split; auto; discriminate.
Qed.

Lemma held_ticks_cons (a : Control_Arm_Settings) rc rcs :
  held_ticks a (rc :: rcs)
  = ((if arm_gesture_held a rc then 1 else 0) + held_ticks a rcs)%Z.
Proof.
  unfold held_ticks. cbn [filter].
  destruct (arm_gesture_held a rc); cbn [length]; lia.
Qed.

Lemma held_ticks_nonneg (a : Control_Arm_Settings) rcs :
  (0 <= held_ticks a rcs)%Z.
Proof. unfold held_ticks. lia. Qed.

(** The counter never runs ahead of the ticks on which the gesture was held,
    and the flag is not set before more than [(T + 1) * R] of them. *)
Lemma held_ticks_bound (T : Z) (history : list RC_Input) : forall s tm c,
  arm_stick_time (arm_settings s) = T ->
  (0 <= T)%Z -> ((T + 1) * R < 65536)%Z ->
  (0 <= arm_time tm <= c)%Z -> (arm_time tm <= (T + 1) * R)%Z ->
  (controllers_armed s = true -> ((T + 1) * R < c)%Z) ->
  (0 <= arm_time (snd (ThreadControlArming R history (s, tm)))
   <= c + held_ticks (arm_settings s) history)%Z
  /\ (arm_time (snd (ThreadControlArming R history (s, tm)))
      <= (T + 1) * R)%Z
  /\ (controllers_armed (fst (ThreadControlArming R history (s, tm))) = true
      -> ((T + 1) * R < c + held_ticks (arm_settings s) history)%Z).
Proof.
  unfold ThreadControlArming.
  induction history as [|rc rcs IH]; intros s tm c HsT HT HK Ha Hb Hc.
  - cbn. unfold held_ticks. cbn. rewrite Z.add_0_r. auto.
  - cbn [fold_left]. rewrite held_ticks_cons.
    pose proof (held_ticks_nonneg (arm_settings s) rcs) as Hn.
    pose proof (@tick_arm_settings R rc (s, tm)) as Hset.
    destruct (arm_gesture_held (arm_settings s) rc) eqn:Hh.
    + rewrite held_tick in * by exact Hh.
      destruct (time_reached R (arm_time tm) (arm_stick_time (arm_settings s)))
        eqn:E.
      * apply time_reached_iff in E; [|exact R_pos|lia|lia].
        destruct (IH (set_controllers_armed true s) tm (c + 1)%Z HsT HT HK)
          as (I1 & I2 & I3); [lia | lia | intros _; lia |].
        cbn [arm_settings set_controllers_armed] in I1, I3.
        repeat split; try lia; intro H; apply I3 in H; lia.
      * assert (~ ((arm_stick_time (arm_settings s) + 1) * R
                   <= arm_time tm)%Z) as Hlt.
        { intro H. apply time_reached_iff in H; [|exact R_pos|lia|lia].
          congruence. }
        assert (incr16 (arm_time tm) = arm_time tm + 1)%Z as Hinc.
        { unfold incr16. apply Z.mod_small. lia. }
        destruct (IH s (mk_timers (incr16 (arm_time tm)) 0 0) (c + 1)%Z
                    HsT HT HK) as (I1 & I2 & I3);
          [cbn; lia | cbn; lia | intro H; apply Hc in H; lia |].
        repeat split; try lia; intro H; apply I3 in H; lia.
    + destruct (unheld_tick rc s tm Hh) as [Ht Hf].
      destruct (ThreadControlArming_tick R rc (s, tm)) as [s1 tm1].
      cbn [fst snd] in *.
      destruct (IH s1 tm1 c) as (I1 & I2 & I3);
        [congruence | exact HT | exact HK | destruct Ht; lia
        | destruct Ht; lia | intro H; apply Hc, Hf, H |].
      rewrite Hset in I1, I3.
      repeat split; try lia; intro H; apply I3 in H; lia.
Qed.

End ArmingEdges.

(** X2: the zero-throttle timeout.  While the sticks are in no region and the
    throttle is at or below the threshold (link active, direction configured,
    emergency stop released), an armed system with a timeout of [Zt] seconds
    is disarmed exactly when [Zt] is not 0 and more than [(Zt + 1) * R]
    consecutive such ticks have passed; with [Zt = 0] the timeout is off and
    the flag stays set however long the throttle stays low. *)
Theorem zero_throttle_timeout (R Zt : Z) (s : Control_State)
  (tm : Arming_Timers) (idle : list RC_Input) :
  (0 < R)%Z -> (0 <= Zt)%Z -> ((Zt + 1) * R < 65536)%Z ->
  arm_zero_throttle_timeout (arm_settings s) = Zt ->
  controllers_armed s = true ->
  timeout_time tm = 0%Z ->
  Forall (fun rc => idle_at_low_throttle (arm_settings s) rc = true) idle ->
  (controllers_armed (fst (ThreadControlArming R idle (s, tm))) = false
   <-> (Zt <> 0%Z /\ ((Zt + 1) * R < Z.of_nat (length idle))%Z))
  /\ timeout_time (snd (ThreadControlArming R idle (s, tm)))
     = (if (Zt =? 0)%Z then 0%Z
        else Z.min (Z.of_nat (length idle)) ((Zt + 1) * R)).
Proof.
  intros HR HZ HK HsZ Ha Htm Hidle.
  destruct (Z.eqb_spec Zt 0) as [E|E].
  - rewrite E in HsZ.
    destruct (idle_run_disabled R idle s tm HsZ Htm Hidle) as [H1 H2].
    rewrite H1, H2, Ha. split; [|reflexivity].
    split; [discriminate | intros [H _]; contradiction].
  - destruct (@idle_run R HR Zt idle s tm HsZ) as [H1 H2];
      [lia | exact HK | rewrite Htm; lia | exact Hidle |].
    rewrite H1, H2, Htm, Ha. split; [|reflexivity].
    split; [intros [H|H]; [discriminate H | split; [exact E | lia]]
           | intros [_ H]; right; lia].
Qed.

(** Armed at 50 Hz with the 30 s timeout, throttle at 0 and sticks centred:
    still armed after 1550 ticks, disarmed by the 1551st. *)
Lemma zero_throttle_timeout_witness :
  controllers_armed
    (fst (ThreadControlArming 50 (repeat released_rc 1551)
            (scenario_armed_state, timers_at_start))) = false
  /\ timeout_time
       (snd (ThreadControlArming 50 (repeat released_rc 1550)
               (scenario_armed_state, timers_at_start))) = 1550%Z.
Proof.
  assert (0 < 50)%Z as HR by lia.
  assert (0 <= 30)%Z as HZ by lia.
  assert ((30 + 1) * 50 < 65536)%Z as HK by lia.
  assert (forall n,
             Forall (fun rc => idle_at_low_throttle
                                 (arm_settings scenario_armed_state) rc = true)
                    (repeat released_rc n)) as Hall.
  { intro n. apply Forall_forall. intros rc Hin.
    apply repeat_spec in Hin. subst rc. reflexivity. }
  split.
  - apply (zero_throttle_timeout 50 30 scenario_armed_state timers_at_start
             (repeat released_rc 1551) HR HZ HK eq_refl eq_refl eq_refl
             (Hall 1551%nat)).
    rewrite repeat_length. split; [discriminate | lia].
  - rewrite (proj2 (zero_throttle_timeout 50 30 scenario_armed_state
                      timers_at_start (repeat released_rc 1550)
                      HR HZ HK eq_refl eq_refl eq_refl (Hall 1550%nat))).
    rewrite repeat_length. reflexivity.
Defined.

(** X3: the emergency stop restarts the hold.  A tick that reads the
    emergency-stop channel below 0.5 (link active, direction configured)
    clears the flag and sets all three timers to 0, whatever they held; the
    arm gesture must then be held for more than [(T + 1) * R] ticks again
    before the flag is set. *)
Theorem emergency_stop_restarts_hold (R T : Z) (s : Control_State)
  (tm : Arming_Timers) (stop : RC_Input) (held : list RC_Input) :
  (0 < R)%Z -> (0 <= T)%Z -> ((T + 1) * R < 65536)%Z ->
  arm_stick_time (arm_settings s) = T ->
  emergency_stop (arm_settings s) stop = true ->
  Forall (fun rc => arm_gesture_held (arm_settings s) rc = true) held ->
  ThreadControlArming_tick R stop (s, tm)
  = (set_controllers_armed false s, mk_timers 0 0 0)
  /\ (controllers_armed
        (fst (ThreadControlArming R (stop :: held) (s, tm))) = true
      <-> ((T + 1) * R < Z.of_nat (length held))%Z).
Proof.
  intros HR HT HK HsT Hstop Hheld.
  assert (ThreadControlArming_tick R stop (s, tm)
          = (set_controllers_armed false s, mk_timers 0 0 0)) as E.
  { unfold emergency_stop in Hstop.
    apply andb_prop in Hstop as [H1 H2].
    unfold ThreadControlArming_tick. rewrite H1, H2. reflexivity. }
  split; [exact E|].
  change (ThreadControlArming R (stop :: held) (s, tm))
    with (ThreadControlArming R held (ThreadControlArming_tick R stop (s, tm))).
  rewrite E.
  destruct (@held_run R HR T held (set_controllers_armed false s)
              (mk_timers 0 0 0) HsT HT HK) as [_ H2];
    [cbn; lia | exact Hheld |].
  rewrite H2. cbn.
  split; [intros [H|H]; [discriminate H | lia] | intro H; right; lia].
Qed.

(** In flight with the hold timer at 100, the stop switch is thrown for one
    tick: 100 held ticks afterwards do not arm, 101 do. *)
Lemma emergency_stop_restarts_hold_witness :
  controllers_armed
    (fst (ThreadControlArming 50 (stopped_rc :: repeat scenario_rc 101)
            (scenario_armed_state, mk_timers 100 0 0))) = true
  /\ ThreadControlArming_tick 50 stopped_rc
       (scenario_armed_state, mk_timers 100 0 0)
     = (scenario_state, mk_timers 0 0 0).
Proof.
  assert (0 < 50)%Z as HR by lia.
  assert (0 <= 1)%Z as HT by lia.
  assert ((1 + 1) * 50 < 65536)%Z as HK by lia.
  assert (Forall (fun rc => arm_gesture_held
                              (arm_settings scenario_armed_state) rc = true)
                 (repeat scenario_rc 101)) as Hall.
  { apply Forall_forall. intros rc Hin.
    apply repeat_spec in Hin. subst rc. reflexivity. }
  destruct (emergency_stop_restarts_hold 50 1 scenario_armed_state
              (mk_timers 100 0 0) stopped_rc (repeat scenario_rc 101)
              HR HT HK eq_refl eq_refl Hall) as [H1 H2].
  split.
  - apply H2. rewrite repeat_length. lia.
  - exact H1.
Defined.

(** X4: losing the link does not restart the hold.  Ticks without an RC link
    or with the stick direction at none clear the flag and leave the three
    timers as they were, whatever the state and the timers; whatever comes
    after them runs as if only the flag had been cleared.  So the first
    later tick that finds the arm gesture held sets the flag at once exactly
    when the arm counter had reached the hold time before; below the hold
    time the flag stays clear. *)
Theorem link_loss_keeps_hold_timer (R : Z) (s : Control_State)
  (tm : Arming_Timers) (lost : list RC_Input) :
  lost <> [] ->
  Forall (fun rc => gate_closed (arm_settings s) rc = true) lost ->
  ThreadControlArming R lost (s, tm) = (set_controllers_armed false s, tm)
  /\ (forall later : list RC_Input,
         ThreadControlArming R (lost ++ later) (s, tm)
         = ThreadControlArming R later (set_controllers_armed false s, tm))
  /\ (forall back : RC_Input,
         (0 < R)%Z ->
         (0 <= arm_stick_time (arm_settings s))%Z ->
         (0 <= arm_time tm)%Z ->
         arm_gesture_held (arm_settings s) back = true ->
         (controllers_armed
            (fst (ThreadControlArming R (lost ++ [back]) (s, tm))) = true
          <-> ((arm_stick_time (arm_settings s) + 1) * R <= arm_time tm)%Z)).
Proof.
  intros Hne Hlost.
  assert (ThreadControlArming R lost (s, tm)
          = (set_controllers_armed false s, tm)) as E.
  { rewrite closed_run by exact Hlost.
    destruct lost; [contradiction | reflexivity]. }
  assert (forall later : list RC_Input,
             ThreadControlArming R (lost ++ later) (s, tm)
             = ThreadControlArming R later (set_controllers_armed false s, tm))
    as L.
  { intro later. unfold ThreadControlArming in *.
    rewrite fold_left_app, E. reflexivity. }
  split; [exact E|]. split; [exact L|].
  intros back HR HT Ht Hback. rewrite L.
  unfold ThreadControlArming. cbn [fold_left].
  rewrite held_tick by exact Hback.
  cbn [arm_settings set_controllers_armed].
  pose proof (@time_reached_iff R HR (arm_time tm)
                (arm_stick_time (arm_settings s)) Ht HT) as K.
  destruct (time_reached R (arm_time tm) (arm_stick_time (arm_settings s)));
    cbn [fst controllers_armed set_controllers_armed].
  - split; [intros _; apply K; reflexivity | intros _; reflexivity].
  - split; [intro A; discriminate A|].
    intro A. apply K in A. discriminate A.
Qed.

(** After 101 held ticks the system is armed with the counter at 100; three
    ticks without link disarm it and keep the counter, and one more held
    tick arms it again.  With the direction set to none, three ticks with
    the link up and the sticks in the gesture do the same to the flag and
    the counter. *)
Lemma link_loss_keeps_hold_timer_witness :
  ThreadControlArming 50 (repeat scenario_rc 101)
    (scenario_state, timers_at_start)
  = (scenario_armed_state, mk_timers 100 0 0)
  /\ ThreadControlArming 50 (repeat lost_rc 3)
       (scenario_armed_state, mk_timers 100 0 0)
     = (set_controllers_armed false scenario_armed_state, mk_timers 100 0 0)
  /\ controllers_armed
       (fst (ThreadControlArming 50 (repeat lost_rc 3 ++ [scenario_rc])
               (scenario_armed_state, mk_timers 100 0 0))) = true
  /\ ThreadControlArming 50 (repeat scenario_rc 3)
       (set_arm_settings (set_stick_direction STICK_NONE scenario_settings)
          scenario_armed_state, mk_timers 100 0 0)
     = (set_controllers_armed false
          (set_arm_settings (set_stick_direction STICK_NONE scenario_settings)
             scenario_armed_state), mk_timers 100 0 0).
Proof.
  assert (0 < 50)%Z as HR by lia.
  assert (0 <= 1)%Z as HT by lia.
  assert (0 <= 100)%Z as Ht by lia.
  assert ((1 + 1) * 50 <= 100)%Z as Hh by lia.
  assert (repeat lost_rc 3 <> []) as Hne by discriminate.
  assert (repeat scenario_rc 3 <> []) as Hne' by discriminate.
  assert (Forall (fun rc => gate_closed
                              (arm_settings scenario_armed_state) rc = true)
                 (repeat lost_rc 3)) as Hall.
  { repeat constructor. }
  assert (Forall
            (fun rc =>
               gate_closed
                 (arm_settings
                    (set_arm_settings
                       (set_stick_direction STICK_NONE scenario_settings)
                       scenario_armed_state)) rc = true)
            (repeat scenario_rc 3)) as Hall'.
  { repeat constructor. }
  destruct (link_loss_keeps_hold_timer 50 scenario_armed_state
              (mk_timers 100 0 0) (repeat lost_rc 3) Hne Hall)
    as (H1 & _ & H3).
  destruct (link_loss_keeps_hold_timer 50
              (set_arm_settings
                 (set_stick_direction STICK_NONE scenario_settings)
                 scenario_armed_state)
              (mk_timers 100 0 0) (repeat scenario_rc 3) Hne' Hall')
    as (H4 & _).
  split; [vm_compute; reflexivity|]. split; [exact H1|].
  split; [|exact H4].
  apply (H3 scenario_rc HR HT Ht eq_refl). exact Hh.
Defined.

(** X5: no arming without the gesture.  From the start of the thread
    (disarmed, timers at 0) and over any sequence of RC inputs whatever, the
    flag is set only if the arm gesture was held on more than [(T + 1) * R]
    of the ticks. *)
Theorem arming_needs_held_ticks (R T : Z) (s : Control_State)
  (history : list RC_Input) :
  (0 < R)%Z -> (0 <= T)%Z -> ((T + 1) * R < 65536)%Z ->
  arm_stick_time (arm_settings s) = T ->
  controllers_armed s = false ->
  controllers_armed
    (fst (ThreadControlArming R history (s, timers_at_start))) = true ->
  ((T + 1) * R < held_ticks (arm_settings s) history)%Z.
Proof.
  intros HR HT HK HsT Hd Harmed.
  destruct (@held_ticks_bound R HR T history s timers_at_start 0%Z HsT HT HK)
    as (_ & _ & H); [cbn; lia | cbn; nia | rewrite Hd; discriminate |].
  apply H in Harmed. lia.
Qed.

(** In the scenario, 60 held ticks, a release, and 101 held ticks arm the
    system: the history has 161 held ticks, more than 100. *)
Lemma arming_needs_held_ticks_witness :
  (100 < held_ticks scenario_settings
           (repeat scenario_rc 60 ++ released_rc :: repeat scenario_rc 101))%Z.
Proof.
  assert (0 < 50)%Z as HR by lia.
  assert (0 <= 1)%Z as HT by lia.
  assert ((1 + 1) * 50 < 65536)%Z as HK by lia.
  exact (arming_needs_held_ticks 50 1 scenario_state
           (repeat scenario_rc 60 ++ released_rc :: repeat scenario_rc 101)
           HR HT HK eq_refl eq_refl eq_refl).
Defined.

Lemma no_role_never_held (a : Control_Arm_Settings) (rc : RC_Input) :
  stick_role (stick_direction a) = None ->
  arm_gesture_held a rc = false.
Proof.
  intro H. unfold arm_gesture_held, SticksInRegion. rewrite H.
  destruct (fle _ _); cbn; apply andb_false_r.
Qed.

(** X6: without a usable gesture the thread never arms.  When the configured
    direction names no stick (none, which is what [ControlInit] sets, or a
    value the classification does not know), no sequence of RC inputs sets
    the flag; with the direction at none, every tick clears it. *)
Theorem unconfigured_gesture_never_arms (R : Z) (s : Control_State)
  (tm : Arming_Timers) (history : list RC_Input) :
  (0 < R)%Z ->
  stick_role (stick_direction (arm_settings s)) = None ->
  (controllers_armed (fst (ThreadControlArming R history (s, tm))) = true ->
   controllers_armed s = true)
  /\ (stick_direction (arm_settings s) = STICK_NONE -> history <> [] ->
      controllers_armed (fst (ThreadControlArming R history (s, tm))) = false).
Proof.
  intros HR Hrole. split.
  - revert s tm Hrole. unfold ThreadControlArming.
    induction history as [|rc rcs IH]; intros s tm Hrole H.
    + exact H.
    + cbn [fold_left] in H.
      pose proof (@tick_arm_settings R rc (s, tm)) as Hset.
      destruct (unheld_tick R rc s tm (no_role_never_held _ rc Hrole))
        as [_ Hf].
      destruct (ThreadControlArming_tick R rc (s, tm)) as [s1 tm1].
      cbn [fst snd] in *. apply Hf. apply (IH s1 tm1); [|exact H].
      rewrite Hset. exact Hrole.
  - intros Hnone Hne. rewrite closed_run.
    + destruct history; [contradiction | reflexivity].
    + apply Forall_forall. intros rc _. unfold gate_closed.
      rewrite Hnone. cbn. rewrite andb_false_r. reflexivity.
Qed.

(** With the settings [ControlInit] leaves when nothing is read from flash,
    holding what would be the arm gesture for 500 ticks arms nothing. *)
Lemma unconfigured_gesture_never_arms_witness :
  controllers_armed
    (fst (ThreadControlArming 50 (repeat scenario_rc 500)
            (zero_state, timers_at_start))) = false.
Proof.
  assert (0 < 50)%Z as HR by lia.
  assert (repeat scenario_rc 500 <> []) as Hne by discriminate.
  exact (proj2 (unconfigured_gesture_never_arms 50 zero_state timers_at_start
                  (repeat scenario_rc 500) HR eq_refl) eq_refl Hne).
Defined.

(** X7: the stick classification.  With the throttle above the threshold the
    sticks are in no region, whatever the gesture stick does.  With a
    threshold below 1/2, the arm region of a gesture is the disarm region of
    the gesture at the other end of the same stick, and the other way
    round. *)
Theorem stick_regions (a : Control_Arm_Settings) (rc : RC_Input) :
  ((stick_threshold a < RCInputGetInputLevel rc ROLE_THROTTLE)%Q ->
   SticksInRegion a rc = STICK_NO_REGION)
  /\ ((stick_threshold a < 1 # 2)%Q ->
      SticksInRegion
        (set_stick_direction (opposite_direction (stick_direction a)) a) rc
      = opposite_region (SticksInRegion a rc)).
Proof.
  split.
  - intro H. unfold SticksInRegion.
    destruct (fle _ _) eqn:E; [|reflexivity].
    apply fle_true in E. exfalso. exact (Qlt_not_le _ _ H E).
  - intro H. unfold SticksInRegion. cbn [stick_threshold set_stick_direction
                                          stick_direction].
    destruct (fle (RCInputGetInputLevel rc ROLE_THROTTLE) (stick_threshold a));
      [|reflexivity].
    destruct (stick_direction a); cbn; try reflexivity;
      match goal with
      | |- context [fle (RCInputGetInputLevel rc ?sel) (- ?t)] =>
          destruct (fle (RCInputGetInputLevel rc sel) (- t)) eqn:E1;
          destruct (fle t (RCInputGetInputLevel rc sel)) eqn:E2;
          try reflexivity;
          apply fle_true in E1; apply fle_true in E2; exfalso; lra
      end.
Qed.

(** In the scenario (gesture on yaw maximum, threshold 0.1) yaw at +1.0 is
    the arm region; with the gesture on yaw minimum it is the disarm
    region, and with the throttle at 0.5 it is no region. *)
Lemma stick_regions_witness :
  SticksInRegion (set_stick_direction STICK_YAW_MIN scenario_settings)
    scenario_rc = STICK_DISARM_REGION
  /\ SticksInRegion scenario_settings (rc hover_input) = STICK_NO_REGION.
Proof.
  split.
  - apply (proj2 (stick_regions scenario_settings scenario_rc)). reflexivity.
  - apply (proj1 (stick_regions scenario_settings (rc hover_input))).
    reflexivity.
Defined.

(* ===================================================================== *)
(** * Further properties of the control cycle *)
(* ===================================================================== *)

Lemma bound_unit (v : float) : (-1 <= bound 1 (-1) v <= 1)%Q.
Proof. apply bound_between. discriminate. Qed.

Section CycleMore.

Variable DEG2RAD : float.
Variable atan2f : float -> float -> float.
Variable asinf : float -> float.
Variable fPIUpdate : PI_Data -> float -> float -> PI_Data * float.
Variable attitude_controller : nat.
Variable rate_controller : nat.

Local Abbreviation control_cycle :=
  (vUpdateControlAction DEG2RAD atan2f asinf fPIUpdate
     attitude_controller rate_controller).

(** X8: an armed cycle, end to end.  The throttle demand is the throttle
    stick, raised to [armed_min_throttle] when below it; the pitch, roll and
    yaw demands computed in the cycle lie in [-1, 1]; each of the eight
    [pwm_out] channels is the clamped mixer sum of the demand of this same
    cycle and lies in [-1, 1]; and these eight values, in channel order, are
    what the cycle hands to the output driver. *)
Theorem armed_cycle_outputs
  (q : quaternion_t) (w : vector3f_t) (d : float) (r : RC_Input)
  (s : Control_State) :
  controllers_armed s = true ->
  let s' := control_cycle q w d r s in
  let u := actuator_desired (control_reference s') in
  let stick := RCInputGetInputLevel r ROLE_THROTTLE in
  let floor := armed_min_throttle (arm_settings s) in
  throttle u = (if flt stick floor then floor else stick)
  /\ (floor <= throttle u /\ stick <= throttle u)%Q
  /\ (-1 <= pitch u <= 1 /\ -1 <= roll u <= 1 /\ -1 <= yaw u <= 1)%Q
  /\ (forall i : nat,
         (i < 8)%nat ->
         pwm_out (control_reference s') i
         = bound 1 (-1) (mixer_sum u (weights (output_mixer s) i))
         /\ (-1 <= pwm_out (control_reference s') i <= 1)%Q)
  /\ rc_output s'
     = rc_output s
       ++ map (fun i => (i, pwm_out (control_reference s') i)) (seq 0 8).
Proof.
  intro H. cbv zeta.
  unfold vUpdateControlAction, vRCInputsToControlAction. rewrite H.
  cbn [selector Flight_Mode_eqb mode set_mode set_control_reference
       control_reference set_attitude_reference set_rate_reference
       set_actuator_desired cascade fold_left run_step].
  unfold vRateControl, vAttitudeControl.
  destruct (fPIUpdate _ _ _) as [a0 ux].
  destruct (fPIUpdate _ _ _) as [a1 uy].
  destruct (fPIUpdate _ _ _) as [r0 vx].
  destruct (fPIUpdate _ _ _) as [r1 vy].
  destruct (fPIUpdate _ _ _) as [r2 vz].
  destruct s. cbn.
  split; [reflexivity|]. split.
  { destruct (flt _ _) eqn:E.
    - apply flt_true in E. split; [apply Qle_refl | apply Qlt_le_weak, E].
    - apply flt_false in E. split; [exact E | apply Qle_refl]. }
  split; [repeat split; apply bound_unit|]. split.
  - intros i Hi.
    do 8 (destruct i as [|i]; [split; [reflexivity | apply bound_unit]|]).
    lia.
  - repeat rewrite <- app_assoc. reflexivity.
Qed.

Lemma cycle_frame_refl (s : Control_State) :
  cycle_frame attitude_controller rate_controller s s.
Proof. repeat split. Qed.

Lemma armed_cycle_frame q w d r s :
  controllers_armed s = true ->
  cycle_frame attitude_controller rate_controller s (control_cycle q w d r s).
Proof.
  intro H.
  unfold vUpdateControlAction, vRCInputsToControlAction. rewrite H.
  cbn [selector Flight_Mode_eqb mode set_mode set_control_reference
       control_reference set_attitude_reference set_rate_reference
       set_actuator_desired cascade fold_left run_step].
  unfold vRateControl, vAttitudeControl.
  destruct (fPIUpdate _ _ _) as [a0 ux].
  destruct (fPIUpdate _ _ _) as [a1 uy].
  destruct (fPIUpdate _ _ _) as [r0 vx].
  destruct (fPIUpdate _ _ _) as [r1 vy].
  destruct (fPIUpdate _ _ _) as [r2 vz].
  destruct s. unfold cycle_frame. cbn in *.
  repeat split; try assumption.
  intros k K1 K2 K3 K4 K5. rewrite !upd_other by assumption. reflexivity.
Qed.

Lemma any_cycle_frame q w d r s :
  cycle_frame attitude_controller rate_controller s (control_cycle q w d r s).
Proof.
  destruct (controllers_armed s) eqn:H.
  - apply armed_cycle_frame. exact H.
  - pose proof (disarmed_cycle_kept DEG2RAD atan2f asinf fPIUpdate
                  attitude_controller rate_controller q w d r s H) as K.
    unfold controller_state_kept in K. unfold cycle_frame.
    repeat match goal with H : _ /\ _ |- _ => destruct H end.
    repeat split; try congruence; intros; congruence.
Qed.

(** X9: what no control cycle writes.  Over any number of cycles, armed or
    not and whatever the estimates and the RC inputs, the control thread
    leaves the armed flag, the arm settings, the limits, the mixer weights,
    the staging buffer of the flash save and the target as they were, and of
    the controllers in [control_data] it touches only the first two attitude
    controllers and the three rate controllers. *)
Theorem control_thread_frame (inputs : list Cycle_Input) (s : Control_State) :
  cycle_frame attitude_controller rate_controller s
    (ThreadControl DEG2RAD atan2f asinf fPIUpdate attitude_controller
       rate_controller inputs s).
Proof.
  unfold ThreadControl. revert s.
  induction inputs as [|c inputs IH]; intro s.
  - apply cycle_frame_refl.
  - cbn [fold_left].
    pose proof (any_cycle_frame (q_m c) (omega_m c) (dt c) (rc c) s) as K1.
    specialize (IH (control_cycle (q_m c) (omega_m c) (dt c) (rc c) s)).
    unfold cycle_frame in *.
    destruct K1 as (A1 & A2 & A3 & A4 & A5 & A6 & A7).
    destruct IH as (B1 & B2 & B3 & B4 & B5 & B6 & B7).
    repeat split; try congruence.
    intros k K1 K2 K3 K4 K5. rewrite B7, A7 by assumption. reflexivity.
Qed.

Lemma cycle_counter q w d r s :
  cycle (control_cycle q w d r s) = next_cycle (cycle s).
Proof.
  unfold vUpdateControlAction, vRCInputsToControlAction.
  destruct (controllers_armed s).
  - cbn [selector Flight_Mode_eqb mode set_mode set_control_reference
         control_reference set_attitude_reference set_rate_reference
         set_actuator_desired cascade fold_left run_step].
    unfold vRateControl, vAttitudeControl.
    destruct (fPIUpdate _ _ _) as [a0 ux].
    destruct (fPIUpdate _ _ _) as [a1 uy].
    destruct (fPIUpdate _ _ _) as [r0 vx].
    destruct (fPIUpdate _ _ _) as [r1 vy].
    destruct (fPIUpdate _ _ _) as [r2 vz].
    destruct s. reflexivity.
  - destruct s. reflexivity.
Qed.

Lemma cycles_counter (inputs : list Cycle_Input) : forall s,
  (0 <= cycle s <= 41)%Z ->
  cycle (ThreadControl DEG2RAD atan2f asinf fPIUpdate attitude_controller
           rate_controller inputs s)
  = ((cycle s + Z.of_nat (length inputs)) mod 42)%Z.
Proof.
  unfold ThreadControl.
  induction inputs as [|c inputs IH]; intros s Hs.
  - cbn. rewrite Z.add_0_r, Z.mod_small by lia. reflexivity.
  - cbn [fold_left]. change (length (c :: inputs)) with (S (length inputs)).
    rewrite Nat2Z.inj_succ.
    pose proof (cycle_counter (q_m c) (omega_m c) (dt c) (rc c) s) as E.
    unfold next_cycle in E.
    destruct (cycle s >? 40)%Z eqn:G.
    + apply Z.gtb_gt in G. assert (cycle s = 41)%Z as E41 by lia.
      rewrite IH by (rewrite E; lia). rewrite E, E41.
      replace (41 + Z.succ (Z.of_nat (length inputs)))%Z
        with (0 + Z.of_nat (length inputs) + 1 * 42)%Z by lia.
      rewrite Z.mod_add by lia. reflexivity.
    + assert (cycle s <= 40)%Z as L.
      { destruct (Z.gtb_spec (cycle s) 40); [discriminate G | lia]. }
      rewrite IH by (rewrite E; lia). rewrite E. f_equal. lia.
Qed.

(** X10: the cycle counter of [vUpdateControlAction], whose reset is the
    slot of the telemetry call, has period 42: from a value in 0..41 it
    stays in 0..41, is [(i + n) mod 42] after [n] cycles, and is back at its
    value after every 42 cycles, armed or not. *)
Theorem cycle_counter_period (inputs : list Cycle_Input) (s : Control_State) :
  (0 <= cycle s <= 41)%Z ->
  let s' := ThreadControl DEG2RAD atan2f asinf fPIUpdate attitude_controller
              rate_controller inputs s in
  cycle s' = ((cycle s + Z.of_nat (length inputs)) mod 42)%Z
  /\ (0 <= cycle s' <= 41)%Z
  /\ (length inputs = 42%nat -> cycle s' = cycle s).
Proof.
  intros Hs s'. subst s'. rewrite cycles_counter by exact Hs.
  split; [reflexivity|]. split.
  - pose proof (Z.mod_pos_bound (cycle s + Z.of_nat (length inputs)) 42).
    lia.
  - intro L. rewrite L.
    replace (cycle s + Z.of_nat 42)%Z with (cycle s + 1 * 42)%Z by lia.
    rewrite Z.mod_add by lia. apply Z.mod_small. lia.
Qed.

End CycleMore.

(** Unit gains, four motors in a cross, 60 % throttle and the pitch stick
    half forward: the first motor saturates at 1. *)
Lemma armed_cycle_outputs_witness :
  throttle (actuator_desired
              (control_reference (sample_cycle manoeuvre_input quad_state)))
  = 6 # 10
  /\ (pwm_out (control_reference (sample_cycle manoeuvre_input quad_state))
        0%nat <= 1)%Q.
Proof.
  destruct (armed_cycle_outputs sample_DEG2RAD sample_atan2f sample_asinf
              sample_fPIUpdate 6 9 (q_m manoeuvre_input)
              (omega_m manoeuvre_input) (dt manoeuvre_input)
              (rc manoeuvre_input) quad_state eq_refl)
    as (Ht & _ & _ & Hp & _).
  split.
  - exact Ht.
  - assert (0 < 8)%nat as Hi by lia. exact (proj2 (proj2 (Hp 0%nat Hi))).
Defined.

(** Forty-two disarmed cycles from a counter at 17 bring it back to 17. *)
Lemma cycle_counter_period_witness :
  cycle (ThreadControl sample_DEG2RAD sample_atan2f sample_asinf
           sample_fPIUpdate 6 9 (repeat hover_input 42)
           (set_cycle 17 zero_state)) = 17%Z.
Proof.
  assert (0 <= cycle (set_cycle 17 zero_state) <= 41)%Z as H by (cbn; lia).
  exact (proj2 (proj2 (cycle_counter_period sample_DEG2RAD sample_atan2f
                         sample_asinf sample_fPIUpdate 6 9
                         (repeat hover_input 42) (set_cycle 17 zero_state) H))
           eq_refl).
Defined.

(* ===================================================================== *)
(** * Further properties of the accessors, the startup and the flash save *)
(* ===================================================================== *)

Section AccessorsMore.

Variable N : nat.

Lemma GetControlParameters_any (s : Control_State) (out : Control_Parameters)
  (i : nat) :
  GetControlParameters N s out i
  = if Nat.ltb i N
    then mk_par (Kp (control_data s i)) (Ki (control_data s i))
                (output_min (control_data s i))
    else out i.
Proof.
  unfold GetControlParameters.
  rewrite (fold_upd_pointwise _
             (fun i p => mk_par (Kp (control_data s i)) (Ki (control_data s i))
                                (output_min (control_data s i)))).
  - reflexivity.
  - intros a j k. cbn. unfold upd at 1.
    destruct (Nat.eqb k j) eqn:E; [|unfold upd; rewrite E; reflexivity].
    rewrite !upd_same. reflexivity.
Qed.

Lemma SetControlParameters_any (p : Control_Parameters) (s : Control_State)
  (i : nat) :
  control_data (SetControlParameters N p s) i
  = if Nat.ltb i N
    then mk_pi (par_Kp (p i)) (par_Ki (p i)) (par_output_min (p i))
               (pi_tail (control_data s i))
    else control_data s i.
Proof.
  unfold SetControlParameters. cbn [control_data set_control_data].
  rewrite (fold_upd_pointwise _
             (fun i c => mk_pi (par_Kp (p i)) (par_Ki (p i))
                               (par_output_min (p i)) (pi_tail c))).
  - reflexivity.
  - intros a j k. cbn. unfold upd at 1.
    destruct (Nat.eqb k j) eqn:E; [|unfold upd; rewrite E; reflexivity].
    rewrite !upd_same. reflexivity.
Qed.

(** X11: reading the gains out and storing them back changes nothing.
    [SetControlParameters] applied to what [GetControlParameters] returned
    leaves every controller of [control_data] exactly as it was, state floats
    included.  Neither accessor reaches past
    [CONTROL_NUMBER_OF_CONTROLLERS]: the entries of the receiving structure
    from there on, and the controllers from there on, are left alone; and a
    store never writes the state floats of a controller. *)
Theorem get_then_set_parameters
  (s : Control_State) (out p : Control_Parameters) (i : nat) :
  control_data (SetControlParameters N (GetControlParameters N s out) s) i
  = control_data s i
  /\ pi_tail (control_data (SetControlParameters N p s) i)
     = pi_tail (control_data s i)
  /\ ((N <= i)%nat ->
      GetControlParameters N s out i = out i
      /\ control_data (SetControlParameters N p s) i = control_data s i).
Proof.
  rewrite !SetControlParameters_any, !GetControlParameters_any.
  destruct (Nat.ltb i N) eqn:E.
  - apply Nat.ltb_lt in E. cbn. destruct (control_data s i).
    split; [reflexivity|]. split; [reflexivity|]. intro H. lia.
  - split; [reflexivity|]. split; [reflexivity|]. intros _.
    split; reflexivity.
Qed.

(** X12: the system starts disarmed whatever the flash holds.  When the
    output driver initialises, [ControlInit] starts the threads on a state
    with the armed flag clear, the mode Disarmed, every reference, actuator
    demand and [pwm_out] channel at 0 and every controller's state floats at
    0: nothing that the four reads return reaches any of these. *)
Theorem startup_is_disarmed (fl : Flash_Store) (s : Control_State) :
  exists s0 : Control_State,
    ControlInit N true fl s = Started s0
    /\ controllers_armed s0 = false
    /\ control_reference s0
       = mk_reference FLIGHTMODE_DISARMED TARGET_GOAL (mk_vector3f 0 0 0)
           (mk_vector3f 0 0 0) (mk_signals 0 0 0 0) (fun _ => 0)
    /\ (forall i : nat,
           Forall (fun v => v = 0) (pi_tail (control_data s0 i))).
Proof.
  unfold ControlInit. cbn [negb]. eexists. split; [reflexivity|].
  unfold vReadControlParametersFromFlash.
  destruct (FlashSave_Read_CONP fl _) as [[|] buffer]; destruct s; cbn;
    (split; [reflexivity|]; split; [reflexivity|]); intro i.
  - match goal with
    | |- Forall _ (pi_tail (?f i)) =>
        change (f i)
          with (control_data
                  (SetControlParameters N buffer
                     (set_control_data (fun i => zero_pi (control_data0 i))
                        zero_state)) i)
    end.
    rewrite SetControlParameters_any.
    destruct (Nat.ltb i N); cbn; apply Forall_forall; intros v Hv;
      apply in_map_iff in Hv; destruct Hv as (? & Hv & _); symmetry; exact Hv.
  - apply Forall_forall. intros v Hv.
    apply in_map_iff in Hv. destruct Hv as (? & Hv & _). symmetry. exact Hv.
Qed.

(** X13: a save followed by a load restores the configuration.  When the
    flash-save thread has run on a state and the store holds what it wrote,
    the load at startup, run on any state, ends with the arm settings, the
    limits and the mixer weights of the saved state and, for each of the
    [CONTROL_NUMBER_OF_CONTROLLERS] controllers, with its three gain floats;
    the state floats of the controllers are not part of what is saved and
    stay those of the loading state. *)
Theorem save_then_load (s s0 : Control_State) (i : nat) :
  (i < N)%nat ->
  let written := snd (ThreadControlFlashSave_event N s) in
  let s' := vReadControlParametersFromFlash N (flash_holding written) s0 in
  arm_settings s' = arm_settings s
  /\ control_limits s' = control_limits s
  /\ output_mixer s' = output_mixer s
  /\ Kp (control_data s' i) = Kp (control_data s i)
  /\ Ki (control_data s' i) = Ki (control_data s i)
  /\ output_min (control_data s' i) = output_min (control_data s i)
  /\ pi_tail (control_data s' i) = pi_tail (control_data s0 i).
Proof.
  intros Hi written s'. subst written s'.
  unfold ThreadControlFlashSave_event, vReadControlParametersFromFlash.
  cbn [snd flash_holding last_CONA last_CONP last_CONL last_CONM read_back
       FlashSave_Read_CONA FlashSave_Read_CONP FlashSave_Read_CONL
       FlashSave_Read_CONM fst].
  split; [destruct s0; reflexivity|].
  split; [destruct s0; reflexivity|].
  split; [destruct s0; reflexivity|].
  cbn [control_data set_output_mixer set_control_limits].
  rewrite SetControlParameters_any.
  rewrite (proj2 (Nat.ltb_lt i N)) by exact Hi.
  cbn [Kp Ki output_min pi_tail flash_save_control_parameters
       set_flash_save_control_parameters].
  rewrite GetControlParameters_any.
  rewrite (proj2 (Nat.ltb_lt i N)) by exact Hi.
  destruct s, s0. repeat split.
Qed.

End AccessorsMore.

(** Twelve controllers: the configured vehicle is saved, and the load on
    the all-zero state brings back its settings and the gains of controller
    9, while the integrator of the loading state stays. *)
Lemma save_then_load_witness :
  arm_settings
    (vReadControlParametersFromFlash 12
       (flash_holding (snd (ThreadControlFlashSave_event 12 configured_state)))
       zero_state)
  = arm_settings configured_state
  /\ Kp (control_data
           (vReadControlParametersFromFlash 12
              (flash_holding
                 (snd (ThreadControlFlashSave_event 12 configured_state)))
              zero_state) 9%nat)
     = 9.
Proof.
  assert (9 < 12)%nat as Hi by lia.
  destruct (save_then_load 12 configured_state zero_state 9 Hi)
    as (H1 & _ & _ & H4 & _).
  split; [exact H1 | exact H4].
Defined.

(* ===================================================================== *)
(** * Properties of the external flash driver *)
(* ===================================================================== *)

Section FlashBytes.

Local Open Scope Z_scope.

Lemma land_byte0 (a : Z) : Z.land a 0xFF = a mod 256.
Proof. change 0xFF with (Z.ones 8). rewrite Z.land_ones by lia. reflexivity. Qed.

Lemma land_byte1 (a : Z) : Z.shiftr (Z.land a 0xFF00) 8 = (a / 256) mod 256.
Proof.
  rewrite Z.shiftr_land. change (Z.shiftr 0xFF00 8) with (Z.ones 8).
  rewrite Z.land_ones, Z.shiftr_div_pow2 by lia. reflexivity.
Qed.

Lemma land_byte2 (a : Z) :
  Z.shiftr (Z.land a 0xFF0000) 16 = (a / 65536) mod 256.
Proof.
  rewrite Z.shiftr_land. change (Z.shiftr 0xFF0000 16) with (Z.ones 8).
  rewrite Z.land_ones, Z.shiftr_div_pow2 by lia. reflexivity.
Qed.

Lemma address_frames_bytes (a : Z) :
  address_frames a = [(a / 65536) mod 256; (a / 256) mod 256; a mod 256].
Proof.
  unfold address_frames. rewrite land_byte0, land_byte1, land_byte2.
  reflexivity.
Qed.

Lemma bytes_sum (a : Z) :
  ((a / 65536) mod 256) * 65536 + ((a / 256) mod 256) * 256 + a mod 256
  = a mod 16777216.
Proof.
  pose proof (Z.div_mod a 256 ltac:(lia)) as E0.
  pose proof (Z.div_mod (a / 256) 256 ltac:(lia)) as E1.
  pose proof (Z.div_mod (a / 256 / 256) 256 ltac:(lia)) as E2.
  pose proof (Z.div_mod a 16777216 ltac:(lia)) as E3.
  rewrite Z.div_div in E1, E2 by lia.
  rewrite Z.div_div in E2 by lia.
  change (256 * 256) with 65536 in *.
  change (65536 * 256) with 16777216 in *.
  lia.
Qed.

(** A byte put above a value of [n] bits: the bits do not meet, so [lor] is
    the sum. *)
Lemma lor_shiftl_add (a b n : Z) :
  0 <= n -> 0 <= b < 2 ^ n -> Z.lor (Z.shiftl a n) b = a * 2 ^ n + b.
Proof.
  intros Hn Hb. rewrite <- Z.shiftl_mul_pow2 by exact Hn.
  rewrite <- Z.lxor_lor, <- Z.add_nocarry_lxor; try reflexivity;
    apply Z.bits_inj'; intros i Hi; rewrite Z.land_spec, Z.bits_0;
    destruct (Z.lt_ge_cases i n) as [L|G];
    try (rewrite Z.shiftl_spec_low by exact L; reflexivity);
    (destruct (Z.eq_dec b 0) as [->|Hb0];
     [rewrite Z.bits_0; apply andb_false_r|];
     rewrite (Z.bits_above_log2 b i), andb_false_r; [reflexivity | lia |];
     apply Z.lt_le_trans with n; [|exact G];
     apply Z.log2_lt_pow2; lia).
Qed.

Lemma id_of_bytes (t1 t2 t3 : Z) :
  0 <= t1 < 256 -> 0 <= t2 < 256 -> 0 <= t3 < 256 ->
  Z.lor (Z.lor (u32 (Z.shiftl t1 16)) (u32 (Z.shiftl t2 8))) t3
  = t1 * 65536 + t2 * 256 + t3.
Proof.
  intros H1 H2 H3. unfold u32.
  assert (Z.shiftl t1 16 mod 4294967296 = Z.shiftl (Z.shiftl t1 8) 8) as E1.
  { rewrite Z.shiftl_shiftl by lia. change (8 + 8) with 16.
    apply Z.mod_small. rewrite Z.shiftl_mul_pow2 by lia.
    change (2 ^ 16) with 65536. lia. }
  assert (Z.shiftl t2 8 mod 4294967296 = Z.shiftl t2 8) as E2.
  { apply Z.mod_small. rewrite Z.shiftl_mul_pow2 by lia.
    change (2 ^ 8) with 256. lia. }
  rewrite E1, E2, <- Z.shiftl_lor.
  rewrite (lor_shiftl_add t1 t2 8) by (change (2 ^ 8) with 256; lia).
  rewrite lor_shiftl_add by (change (2 ^ 8) with 256; lia).
  change (2 ^ 8) with 256. lia.
Qed.

End FlashBytes.

(** X14: the address goes out as three bytes, high byte first.  The three
    frames sent after a command are the bytes of the address modulo 2^24,
    so an address and the same address plus 2^24 address the same place:
    the page erase, the sector erase, the page writes and the buffer reads
    do the same for both. *)
Theorem address_is_24_bits (h : Flash_Header) (config : ExternalFlashConfig)
  (address : Z) (buffer : list Z) (count : Z) :
  address_frames address
  = [((address / 65536) mod 256)%Z; ((address / 256) mod 256)%Z;
     (address mod 256)%Z]
  /\ ((address / 65536) mod 256 * 65536 + (address / 256) mod 256 * 256
      + address mod 256 = address mod 16777216)%Z
  /\ ExternalFlash_ErasePage h (address + 16777216)
     = ExternalFlash_ErasePage h address
  /\ ExternalFlash_EraseSector h (address + 16777216)
     = ExternalFlash_EraseSector h address
  /\ ExternalFlash_WritePagePolling h config buffer (address + 16777216) count
     = ExternalFlash_WritePagePolling h config buffer address count
  /\ ExternalFlash_WritePage h config buffer (address + 16777216) count
     = ExternalFlash_WritePage h config buffer address count
  /\ ExternalFlash_ReadBufferPolling h buffer (address + 16777216) count
     = ExternalFlash_ReadBufferPolling h buffer address count
  /\ ExternalFlash_ReadBuffer h buffer (address + 16777216) count
     = ExternalFlash_ReadBuffer h buffer address count.
Proof.
  split; [apply address_frames_bytes|]. split; [apply bytes_sum|].
  assert (Z.land (address + 16777216) 0xFF = Z.land address 0xFF) as E0.
  { rewrite !land_byte0.
    replace (address + 16777216)%Z with (address + 65536 * 256)%Z by lia.
    apply Z.mod_add. lia. }
  assert (Z.shiftr (Z.land (address + 16777216) 0xFF00) 8
          = Z.shiftr (Z.land address 0xFF00) 8) as E1.
  { rewrite !land_byte1.
    replace (address + 16777216)%Z with (address + 65536 * 256)%Z by lia.
    rewrite Z.div_add by lia.
    replace (address / 256 + 65536)%Z with (address / 256 + 256 * 256)%Z
      by lia.
    apply Z.mod_add. lia. }
  assert (Z.shiftr (Z.land (address + 16777216) 0xFF0000) 16
          = Z.shiftr (Z.land address 0xFF0000) 16) as E2.
  { rewrite !land_byte2.
    replace (address + 16777216)%Z with (address + 256 * 65536)%Z by lia.
    rewrite Z.div_add by lia.
    replace (address / 65536 + 256)%Z with (address / 65536 + 1 * 256)%Z
      by lia.
    apply Z.mod_add. lia. }
  unfold ExternalFlash_ErasePage, ExternalFlash_EraseSector,
    ExternalFlash_WritePagePolling, ExternalFlash_WritePage,
    ExternalFlash_ReadBufferPolling, ExternalFlash_ReadBuffer, send_address.
  rewrite E0, E1, E2. repeat split.
Qed.

Section FlashRuns.

Variable h : Flash_Header.

Lemma extend_extend (w : Flash_World) (e1 e2 : list Bus_Event)
  (r1 r2 : list Z) :
  extend (extend w e1 r1) e2 r2 = extend w (e1 ++ e2) r2.
Proof. unfold extend. cbn. rewrite app_assoc. reflexivity. Qed.

Lemma log_extend (e : Bus_Event) (w : Flash_World) :
  log e w = Ok tt (extend w [e] (fw_answers w)).
Proof. reflexivity. Qed.

Lemma exchange_extend (frame a : Z) (rest : list Z) (w : Flash_World) :
  fw_answers w = a :: rest ->
  spiPolledExchange frame w = Ok a (extend w [EV_EXCHANGE frame] rest).
Proof. intro H. unfold spiPolledExchange. rewrite H. reflexivity. Qed.

Lemma poll_status_extend (delay_ms r st : Z) (rest : list Z)
  (w : Flash_World) :
  fw_answers w = r :: st :: rest ->
  poll_status h delay_ms w
  = Ok (u8 st) (extend w (poll_events h delay_ms) rest).
Proof.
  intro H. destruct w as [b a t]. cbn in H. subst a.
  unfold poll_status, poll_events, extend, bind.
  destruct (delay_ms =? 0)%Z; cbn;
    repeat rewrite <- app_assoc; reflexivity.
Qed.

Lemma poll_status_starved (delay_ms : Z) (w : Flash_World) :
  (length (fw_answers w) < 2)%nat ->
  exists w', poll_status h delay_ms w = Fault NO_ANSWER w'.
Proof.
  intro H. destruct w as [b a t]. cbn in H.
  destruct a as [|r [|st rest]]; [| |cbn in H; lia];
    unfold poll_status, bind; destruct (delay_ms =? 0)%Z; cbn;
    eexists; reflexivity.
Qed.

Lemma wait_loop_idle (delay_ms : Z) (polls : list (Z * Z)) :
  forall (turns : nat) (w : Flash_World) (r st : Z) (rest : list Z),
    (length polls < turns)%nat ->
    Forall (fun p => busy h (snd p) = true) polls ->
    busy h st = false ->
    fw_answers w = poll_answers polls ++ r :: st :: rest ->
    wait_loop h turns delay_ms w
    = Ok tt (extend w (concat (repeat (poll_events h delay_ms)
                                 (S (length polls)))) rest).
Proof.
  induction polls as [|[r0 st0] polls IH];
    intros turns w r st rest Ht Hbusy Hidle Hans;
    (destruct turns as [|turns]; [cbn in Ht; lia|]).
  - cbn in Hans. cbn [wait_loop]. unfold bind at 1.
    rewrite (poll_status_extend delay_ms r st rest w Hans).
    unfold busy in Hidle. apply negb_false_iff in Hidle. rewrite Hidle.
    cbn. rewrite app_nil_r. reflexivity.
  - inversion Hbusy as [|? ? Hb0 Hb]; subst. cbn in Hb0, Hans.
    cbn [wait_loop]. unfold bind at 1.
    rewrite (poll_status_extend delay_ms r0 st0 _ w Hans).
    unfold busy in Hb0. apply negb_true_iff in Hb0. rewrite Hb0.
    rewrite (IH turns _ r st rest); [|cbn in Ht; lia|exact Hb|exact Hidle
                                    |reflexivity].
    rewrite extend_extend. reflexivity.
Qed.

Lemma wait_loop_starved (delay_ms : Z) (polls : list (Z * Z)) :
  forall (turns : nat) (w : Flash_World),
    Forall (fun p => busy h (snd p) = true) polls ->
    fw_answers w = poll_answers polls ->
    exists w', wait_loop h turns delay_ms w = Fault NO_ANSWER w'.
Proof.
  induction polls as [|[r0 st0] polls IH]; intros turns w Hbusy Hans;
    (destruct turns as [|turns]; [eexists; reflexivity|]).
  - cbn in Hans. cbn [wait_loop]. unfold bind at 1.
    destruct (poll_status_starved delay_ms w) as [w' E];
      [rewrite Hans; cbn; lia|].
    rewrite E. eexists. reflexivity.
  - inversion Hbusy as [|? ? Hb0 Hb]; subst. cbn in Hb0, Hans.
    cbn [wait_loop]. unfold bind at 1.
    rewrite (poll_status_extend delay_ms r0 st0 _ w Hans).
    unfold busy in Hb0. apply negb_true_iff in Hb0. rewrite Hb0.
    apply IH; [exact Hb | reflexivity].
Qed.

Lemma poll_answers_length (polls : list (Z * Z)) :
  length (poll_answers polls) = (2 * length polls)%nat.
Proof.
  induction polls as [|p polls IH]; [reflexivity|].
  cbn [poll_answers flat_map app length] in *.
  unfold poll_answers in IH. rewrite IH. lia.
Qed.

Lemma wait_extend (delay_ms : Z) (polls : list (Z * Z)) (w : Flash_World)
  (r st : Z) (rest : list Z) :
  Forall (fun p => busy h (snd p) = true) polls ->
  busy h st = false ->
  fw_answers w = poll_answers polls ++ r :: st :: rest ->
  ExternalFlash_WaitForWriteEnd h delay_ms w
  = Ok tt (extend w (concat (repeat (poll_events h delay_ms)
                               (S (length polls)))) rest).
Proof.
  intros Hbusy Hidle Hans. unfold ExternalFlash_WaitForWriteEnd.
  apply (wait_loop_idle delay_ms polls _ w r st rest); try assumption.
  rewrite Hans, length_app, poll_answers_length. cbn. lia.
Qed.

End FlashRuns.

(** X15: the identification.  With the device answering three bytes after
    the command, [ExternalFlash_ReadID] returns them as one number, first
    byte highest, and ends with chip, bus and mutex given back;
    [ExternalFlashInit] returns when this number is the configured
    [jedec_id] and halts the system otherwise, so it always halts when the
    configured id does not fit three bytes. *)
Theorem flash_identification (h : Flash_Header) (config : ExternalFlashConfig)
  (w : Flash_World) (r t1 t2 t3 : Z) (rest : list Z) :
  fw_answers w = r :: t1 :: t2 :: t3 :: rest ->
  (0 <= t1 < 256)%Z -> (0 <= t2 < 256)%Z -> (0 <= t3 < 256)%Z ->
  let id := (t1 * 65536 + t2 * 256 + t3)%Z in
  let events :=
    [EV_CLAIM; EV_ACQUIRE_BUS; EV_SELECT; EV_EXCHANGE (FLASH_CMD_RDID h);
     EV_EXCHANGE (FLASH_DUMMY_BYTE h); EV_EXCHANGE (FLASH_DUMMY_BYTE h);
     EV_EXCHANGE (FLASH_DUMMY_BYTE h); EV_UNSELECT; EV_RELEASE_BUS;
     EV_RELEASE] in
  ExternalFlash_ReadID h w = Ok id (extend w events rest)
  /\ ExternalFlashInit h config w
     = (if (id =? jedec_id config)%Z
        then Ok tt (extend w (EV_MUTEX_INIT :: events) rest)
        else Fault HALT_ID_ERROR (extend w (EV_MUTEX_INIT :: events) rest))
  /\ ((16777216 <= jedec_id config)%Z ->
      ExternalFlashInit h config w
      = Fault HALT_ID_ERROR (extend w (EV_MUTEX_INIT :: events) rest)).
Proof.
  intros Hans H1 H2 H3 id events.
  assert (ExternalFlash_ReadID h w = Ok id (extend w events rest)) as E.
  { destruct w as [b a t]. cbn in Hans. subst a.
    unfold ExternalFlash_ReadID, bind, extend.
    cbn -[Z.lor Z.shiftl u32 Z.mul Z.add Z.eqb].
    rewrite id_of_bytes by assumption.
    repeat rewrite <- app_assoc. reflexivity. }
  assert (ExternalFlashInit h config w
          = (if (id =? jedec_id config)%Z
             then Ok tt (extend w (EV_MUTEX_INIT :: events) rest)
             else Fault HALT_ID_ERROR
                    (extend w (EV_MUTEX_INIT :: events) rest))) as E'.
  { destruct w as [b a t]. cbn in Hans. subst a.
    unfold ExternalFlashInit, ExternalFlash_ReadID, bind, extend.
    cbn -[Z.lor Z.shiftl u32 Z.mul Z.add Z.eqb].
    rewrite id_of_bytes by assumption. fold id.
    repeat rewrite <- app_assoc. cbn [app].
    destruct (id =? jedec_id config)%Z; reflexivity. }
  split; [exact E|]. split; [exact E'|].
  intro Hbig. rewrite E'.
  destruct (Z.eqb_spec id (jedec_id config)) as [Heq|]; [|reflexivity].
  subst id. lia.
Qed.

(** The chip answers 20 20 15 (hexadecimal), which is the configured id:
    the initialisation returns. *)
Lemma flash_identification_witness :
  ExternalFlash_ReadID m25p_header (world_answering [0; 0x20; 0x20; 0x15]%Z)
  = Ok 0x202015%Z
      (extend (world_answering [0; 0x20; 0x20; 0x15]%Z)
         [EV_CLAIM; EV_ACQUIRE_BUS; EV_SELECT; EV_EXCHANGE 0x9F;
          EV_EXCHANGE 0xA5; EV_EXCHANGE 0xA5; EV_EXCHANGE 0xA5; EV_UNSELECT;
          EV_RELEASE_BUS; EV_RELEASE] []).
Proof.
  assert (0 <= 0x20 < 256)%Z as H1 by lia.
  assert (0 <= 0x15 < 256)%Z as H3 by lia.
  exact (proj1 (flash_identification m25p_header m25p_config
                  (world_answering [0; 0x20; 0x20; 0x15]%Z)
                  0 0x20 0x20 0x15 [] eq_refl H1 H1 H3)).
Defined.

(** X16: waiting for the end of a write.  [ExternalFlash_WaitForWriteEnd]
    polls the status register, sleeping [delay_ms] before each poll when it
    is not 0, and returns at the first status whose write-in-progress flag
    is clear, leaving the later answers unread; while every status reads
    busy it does not return: there is no limit on the number of polls. *)
Theorem wait_for_write_end (h : Flash_Header) (delay_ms : Z)
  (w : Flash_World) (polls : list (Z * Z)) (r st : Z) (rest : list Z) :
  Forall (fun p => busy h (snd p) = true) polls ->
  (busy h st = false ->
   fw_answers w = poll_answers polls ++ r :: st :: rest ->
   ExternalFlash_WaitForWriteEnd h delay_ms w
   = Ok tt (extend w (concat (repeat (poll_events h delay_ms)
                                (S (length polls)))) rest))
  /\ (fw_answers w = poll_answers polls ->
      exists w', ExternalFlash_WaitForWriteEnd h delay_ms w
                 = Fault NO_ANSWER w').
Proof.
  intro Hbusy. split.
  - intros Hidle Hans. apply (wait_extend h delay_ms polls w r st rest);
      assumption.
  - intro Hans. unfold ExternalFlash_WaitForWriteEnd.
    apply (wait_loop_starved h delay_ms polls); assumption.
Qed.

(** Two busy statuses, then an idle one: three polls, and the answer after
    them is left for the next transfer. *)
Lemma wait_for_write_end_witness :
  ExternalFlash_WaitForWriteEnd m25p_header 10
    (world_answering [0; 1; 0; 3; 0; 0; 9]%Z)
  = Ok tt
      (extend (world_answering [0; 1; 0; 3; 0; 0; 9]%Z)
         (concat (repeat (poll_events m25p_header 10) 3)) [9%Z]).
Proof.
  assert (Forall (fun p => busy m25p_header (snd p) = true)
                 [(0, 1); (0, 3)]%Z) as Hb by (repeat constructor).
  exact (proj1 (wait_for_write_end m25p_header 10
                  (world_answering [0; 1; 0; 3; 0; 0; 9]%Z)
                  [(0, 1); (0, 3)]%Z 0 0 [9%Z] Hb) eq_refl eq_refl).
Defined.

Section FlashTransfers.

Variable h : Flash_Header.
Variable config : ExternalFlashConfig.

Lemma bind_log {B : Type} (e : Bus_Event) (k : unit -> Flash B)
  (w : Flash_World) :
  bind (log e) k w = k tt (extend w [e] (fw_answers w)).
Proof. reflexivity. Qed.

Lemma bind_ok {A B : Type} (m : Flash A) (k : A -> Flash B)
  (w w' : Flash_World) (a : A) :
  m w = Ok a w' -> bind m k w = k a w'.
Proof. intro H. unfold bind. rewrite H. reflexivity. Qed.

Lemma extend_nil (w : Flash_World) : extend w [] (fw_answers w) = w.
Proof. destruct w. unfold extend. cbn. rewrite app_nil_r. reflexivity. Qed.

Lemma write_loop_extend (n : nat) :
  forall (buffer data rest : list Z) (w : Flash_World),
    fw_answers w = data ++ rest ->
    length data = n -> (n <= length buffer)%nat ->
    write_loop n buffer w
    = Ok tt (extend w (map EV_EXCHANGE (firstn n buffer)) rest).
Proof.
  induction n as [|n IH]; intros buffer data rest w Hans Hlen Hbuf.
  - destruct data; [|discriminate Hlen]. cbn in Hans. cbn.
    rewrite <- Hans. rewrite extend_nil. reflexivity.
  - destruct data as [|a data]; [discriminate Hlen|].
    destruct buffer as [|b buffer]; [cbn in Hbuf; lia|].
    cbn [write_loop firstn map].
    rewrite (bind_ok _ _ _ _ _ (exchange_extend b a (data ++ rest) w Hans)).
    rewrite (IH buffer data rest); [|reflexivity|cbn in Hlen; lia
                                   |cbn in Hbuf; lia].
    rewrite extend_extend. reflexivity.
Qed.

Lemma spiSend_extend (n : nat) (buffer data rest : list Z)
  (w : Flash_World) :
  fw_answers w = data ++ rest ->
  length data = n -> (n <= length buffer)%nat ->
  spiSend n buffer w = Ok tt (extend w [EV_SEND (firstn n buffer)] rest).
Proof.
  intros Hans Hlen Hbuf. unfold spiSend.
  rewrite (proj2 (Nat.ltb_ge (length buffer) n)) by exact Hbuf.
  rewrite Hans, length_app.
  rewrite (proj2 (Nat.ltb_ge (length data + length rest) n)) by lia.
  rewrite <- Hlen, skipn_app, skipn_all, Nat.sub_diag. reflexivity.
Qed.

Lemma read_loop_extend (n : nat) :
  forall (buffer data rest : list Z) (w : Flash_World),
    fw_answers w = data ++ rest ->
    length data = n -> (n <= length buffer)%nat ->
    read_loop h n buffer w
    = Ok (map u8 data ++ skipn n buffer)
         (extend w (repeat (EV_EXCHANGE (FLASH_DUMMY_BYTE h)) n) rest).
Proof.
  induction n as [|n IH]; intros buffer data rest w Hans Hlen Hbuf.
  - destruct data; [|discriminate Hlen]. cbn in Hans. cbn.
    rewrite <- Hans. rewrite extend_nil. reflexivity.
  - destruct data as [|a data]; [discriminate Hlen|].
    destruct buffer as [|b buffer]; [cbn in Hbuf; lia|].
    cbn [read_loop repeat map skipn app].
    rewrite (bind_ok _ _ _ _ _
               (exchange_extend (FLASH_DUMMY_BYTE h) a (data ++ rest) w Hans)).
    rewrite (bind_ok _ _ _ _ _
               (IH buffer data rest
                  (extend w [EV_EXCHANGE (FLASH_DUMMY_BYTE h)] (data ++ rest))
                  eq_refl ltac:(cbn in Hlen; lia) ltac:(cbn in Hbuf; lia))).
    unfold ret. rewrite extend_extend. reflexivity.
Qed.

Lemma spiReceive_extend (n : nat) (buffer data rest : list Z)
  (w : Flash_World) :
  fw_answers w = data ++ rest ->
  length data = n -> (n <= length buffer)%nat ->
  spiReceive n buffer w
  = Ok (map u8 data ++ skipn n buffer) (extend w [EV_RECEIVE n] rest).
Proof.
  intros Hans Hlen Hbuf. unfold spiReceive.
  rewrite (proj2 (Nat.ltb_ge (length buffer) n)) by exact Hbuf.
  rewrite Hans, length_app.
  rewrite (proj2 (Nat.ltb_ge (length data + length rest) n)) by lia.
  rewrite <- Hlen, skipn_app, skipn_all, Nat.sub_diag, firstn_app,
    firstn_all, Nat.sub_diag.
  cbn [firstn skipn]. rewrite app_nil_r. reflexivity.
Qed.

Lemma mosi_app (e1 e2 : list Bus_Event) : mosi (e1 ++ e2) = mosi e1 ++ mosi e2.
Proof. apply flat_map_app. Qed.

Lemma mosi_exchanges (frames : list Z) : mosi (map EV_EXCHANGE frames) = frames.
Proof.
  induction frames as [|f frames IH]; [reflexivity|].
  cbn. unfold mosi in IH. rewrite IH. reflexivity.
Qed.

Lemma mosi_polls (delay_ms : Z) (n : nat) :
  mosi (concat (repeat (poll_events h delay_ms) n))
  = concat (repeat [FLASH_CMD_RDSR h; FLASH_DUMMY_BYTE h] n).
Proof.
  induction n as [|n IH]; [reflexivity|].
  cbn [repeat concat]. rewrite mosi_app, IH.
  unfold poll_events. destruct (delay_ms =? 0)%Z; reflexivity.
Qed.

Lemma u8_address_frames (address : Z) :
  u8 (Z.shiftr (Z.land address 0xFF0000) 16)
  = Z.shiftr (Z.land address 0xFF0000) 16
  /\ u8 (Z.shiftr (Z.land address 0xFF00) 8)
     = Z.shiftr (Z.land address 0xFF00) 8
  /\ u8 (Z.land address 0xFF) = Z.land address 0xFF.
Proof.
  unfold u8. rewrite land_byte0, land_byte1, land_byte2.
  repeat split; apply Z.mod_mod; lia.
Qed.

Lemma five_answers (pre : list Z) :
  length pre = 5%nat -> exists a b c d e, pre = [a; b; c; d; e].
Proof.
  intro H. do 5 (destruct pre as [|? pre]; [discriminate H|]).
  destruct pre; [|discriminate H]. repeat eexists.
Qed.

Lemma four_answers (pre : list Z) :
  length pre = 4%nat -> exists a b c d, pre = [a; b; c; d].
Proof.
  intro H. do 4 (destruct pre as [|? pre]; [discriminate H|]).
  destruct pre; [|discriminate H]. repeat eexists.
Qed.

Lemma write_loop_mk (n : nat) (buffer data rest : list Z)
  (b : list Bus_Event) (t : nat -> Z) :
  length data = n -> (n <= length buffer)%nat ->
  write_loop n buffer (mk_world b (data ++ rest) t)
  = Ok tt (mk_world (b ++ map EV_EXCHANGE (firstn n buffer)) rest t).
Proof.
  intros H1 H2.
  exact (write_loop_extend n buffer data rest (mk_world b (data ++ rest) t) eq_refl H1 H2).
Qed.

Lemma spiSend_mk (n : nat) (buffer data rest : list Z)
  (b : list Bus_Event) (t : nat -> Z) :
  length data = n -> (n <= length buffer)%nat ->
  spiSend n buffer (mk_world b (data ++ rest) t)
  = Ok tt (mk_world (b ++ [EV_SEND (firstn n buffer)]) rest t).
Proof.
  intros H1 H2.
  exact (spiSend_extend n buffer data rest (mk_world b (data ++ rest) t) eq_refl H1 H2).
Qed.

Lemma read_loop_mk (n : nat) (buffer data rest : list Z)
  (b : list Bus_Event) (t : nat -> Z) :
  length data = n -> (n <= length buffer)%nat ->
  read_loop h n buffer (mk_world b (data ++ rest) t)
  = Ok (map u8 data ++ skipn n buffer)
       (mk_world (b ++ repeat (EV_EXCHANGE (FLASH_DUMMY_BYTE h)) n) rest t).
Proof.
  intros H1 H2.
  exact (read_loop_extend n buffer data rest (mk_world b (data ++ rest) t) eq_refl H1 H2).
Qed.

Lemma spiReceive_mk (n : nat) (buffer data rest : list Z)
  (b : list Bus_Event) (t : nat -> Z) :
  length data = n -> (n <= length buffer)%nat ->
  spiReceive n buffer (mk_world b (data ++ rest) t)
  = Ok (map u8 data ++ skipn n buffer)
       (mk_world (b ++ [EV_RECEIVE n]) rest t).
Proof.
  intros H1 H2.
  exact (spiReceive_extend n buffer data rest (mk_world b (data ++ rest) t) eq_refl H1 H2).
Qed.

Lemma wait_mk (delay_ms : Z) (polls : list (Z * Z)) (r st : Z)
  (rest : list Z) (b : list Bus_Event) (t : nat -> Z) :
  Forall (fun p => busy h (snd p) = true) polls -> busy h st = false ->
  ExternalFlash_WaitForWriteEnd h delay_ms
    (mk_world b (poll_answers polls ++ r :: st :: rest) t)
  = Ok tt (mk_world (b ++ concat (repeat (poll_events h delay_ms)
                                    (S (length polls)))) rest t).
Proof.
  intros Hb Hi.
  exact (wait_extend h delay_ms polls
           (mk_world b (poll_answers polls ++ r :: st :: rest) t)
           r st rest Hb Hi eq_refl).
Qed.

(** The events of the start of a write: the write enable, then the command
    with the bus taken again. *)
Lemma WritePagePolling_run (buffer : list Z) (address count : Z)
  (w : Flash_World) (pre data : list Z) (polls : list (Z * Z)) (r st : Z)
  (rest : list Z) :
  (count < num_pages config)%Z ->
  (Z.to_nat count <= length buffer)%nat ->
  length pre = 5%nat -> length data = Z.to_nat count ->
  Forall (fun p => busy h (snd p) = true) polls -> busy h st = false ->
  fw_answers w = pre ++ data ++ poll_answers polls ++ r :: st :: rest ->
  ExternalFlash_WritePagePolling h config buffer address count w
  = Ok tt
      (extend w
         ([EV_CLAIM; EV_ACQUIRE_BUS; EV_SELECT;
           EV_EXCHANGE (FLASH_CMD_WREN h); EV_UNSELECT; EV_RELEASE_BUS;
           EV_ACQUIRE_BUS; EV_SELECT;
           EV_EXCHANGE (FLASH_CMD_PAGE_PROGRAM h)]
          ++ map EV_EXCHANGE (address_frames address)
          ++ map EV_EXCHANGE (firstn (Z.to_nat count) buffer)
          ++ [EV_UNSELECT; EV_RELEASE_BUS]
          ++ concat (repeat (poll_events h 1) (S (length polls)))
          ++ [EV_RELEASE]) rest).
Proof.
  intros Hc Hbuf Hpre Hdata Hbusy Hidle Hans.
  destruct (five_answers pre Hpre) as (a0 & a1 & a2 & a3 & a4 & ->).
  unfold ExternalFlash_WritePagePolling.
  destruct (count >=? num_pages config)%Z eqn:G;
    [rewrite Z.geb_leb in G; apply Z.leb_le in G; lia|].
  unfold ExternalFlash_WriteEnable, send_address, extend.
  destruct w as [b a t]. cbn in Hans. subst a.
  cbn [bind log spiPolledExchange fw_answers fw_bus fw_tmp ret app].
  erewrite bind_ok; [|apply write_loop_mk; assumption].
  cbn [bind log spiPolledExchange fw_answers fw_bus fw_tmp ret app].
  erewrite bind_ok; [|apply wait_mk; assumption].
  unfold log. cbn [fw_answers fw_bus fw_tmp address_frames map].
  repeat rewrite <- app_assoc. cbn [app]. reflexivity.
Qed.

Lemma WritePage_run (buffer : list Z) (address count : Z)
  (w : Flash_World) (pre data : list Z) (polls : list (Z * Z)) (r st : Z)
  (rest : list Z) :
  (count < num_pages config)%Z ->
  (Z.to_nat count <= length buffer)%nat ->
  length pre = 5%nat -> length data = Z.to_nat count ->
  Forall (fun p => busy h (snd p) = true) polls -> busy h st = false ->
  fw_answers w = pre ++ data ++ poll_answers polls ++ r :: st :: rest ->
  exists w',
    ExternalFlash_WritePage h config buffer address count w = Ok tt w'
    /\ fw_answers w' = rest
    /\ fw_bus w'
       = fw_bus w
         ++ [EV_CLAIM; EV_ACQUIRE_BUS; EV_SELECT;
             EV_EXCHANGE (FLASH_CMD_WREN h); EV_UNSELECT; EV_RELEASE_BUS;
             EV_ACQUIRE_BUS; EV_SELECT;
             EV_SEND (u8 (FLASH_CMD_PAGE_PROGRAM h) :: address_frames address);
             EV_SEND (firstn (Z.to_nat count) buffer);
             EV_UNSELECT; EV_RELEASE_BUS]
         ++ concat (repeat (poll_events h 1) (S (length polls)))
         ++ [EV_RELEASE].
Proof.
  intros Hc Hbuf Hpre Hdata Hbusy Hidle Hans.
  destruct (five_answers pre Hpre) as (a0 & a1 & a2 & a3 & a4 & ->).
  unfold ExternalFlash_WritePage.
  destruct (count >=? num_pages config)%Z eqn:G;
    [rewrite Z.geb_leb in G; apply Z.leb_le in G; lia|].
  unfold ExternalFlash_WriteEnable.
  destruct w as [b a t]. cbn in Hans. subst a.
  destruct (u8_address_frames address) as (U2 & U1 & U0).
  cbn [bind log spiPolledExchange set_flash_tmp get_flash_tmp fw_answers
       fw_bus fw_tmp ret app map seq upd Nat.eqb].
  rewrite U0, U1, U2.
  erewrite bind_ok;
    [|apply (spiSend_mk 4 _ [a1; a2; a3; a4]); cbn; lia].
  erewrite bind_ok; [|apply spiSend_mk; assumption].
  cbn [bind log spiPolledExchange fw_answers fw_bus fw_tmp ret app].
  erewrite bind_ok; [|apply wait_mk; assumption].
  unfold log. cbn [fw_answers fw_bus fw_tmp].
  eexists. split; [reflexivity|]. split; [reflexivity|].
  cbn [fw_bus firstn address_frames]. repeat rewrite <- app_assoc.
  cbn [app]. reflexivity.
Qed.

Lemma ReadBufferPolling_run (buffer : list Z) (address count : Z)
  (w : Flash_World) (pre data rest : list Z) :
  (Z.to_nat count <= length buffer)%nat ->
  length pre = 4%nat -> length data = Z.to_nat count ->
  fw_answers w = pre ++ data ++ rest ->
  exists w',
    ExternalFlash_ReadBufferPolling h buffer address count w
    = Ok (map u8 data ++ skipn (Z.to_nat count) buffer) w'
    /\ fw_answers w' = rest
    /\ fw_bus w'
       = fw_bus w
         ++ [EV_CLAIM; EV_ACQUIRE_BUS; EV_SELECT;
             EV_EXCHANGE (FLASH_CMD_READ h)]
         ++ map EV_EXCHANGE (address_frames address)
         ++ repeat (EV_EXCHANGE (FLASH_DUMMY_BYTE h)) (Z.to_nat count)
         ++ [EV_UNSELECT; EV_RELEASE_BUS; EV_RELEASE].
Proof.
  intros Hbuf Hpre Hdata Hans.
  destruct (four_answers pre Hpre) as (a0 & a1 & a2 & a3 & ->).
  unfold ExternalFlash_ReadBufferPolling, send_address.
  destruct w as [b a t]. cbn in Hans. subst a.
  cbn [bind log spiPolledExchange fw_answers fw_bus fw_tmp ret app].
  erewrite bind_ok; [|apply read_loop_mk; assumption].
  unfold log, bind, ret. cbn [fw_answers fw_bus fw_tmp].
  eexists. split; [reflexivity|]. split; [reflexivity|].
  cbn [fw_bus address_frames map]. repeat rewrite <- app_assoc.
  cbn [app]. reflexivity.
Qed.

Lemma ReadBuffer_run (buffer : list Z) (address count : Z)
  (w : Flash_World) (pre data rest : list Z) :
  (Z.to_nat count <= length buffer)%nat ->
  length pre = 4%nat -> length data = Z.to_nat count ->
  fw_answers w = pre ++ data ++ rest ->
  exists w',
    ExternalFlash_ReadBuffer h buffer address count w
    = Ok (map u8 data ++ skipn (Z.to_nat count) buffer) w'
    /\ fw_answers w' = rest
    /\ fw_bus w'
       = fw_bus w
         ++ [EV_CLAIM; EV_ACQUIRE_BUS; EV_SELECT;
             EV_SEND (u8 (FLASH_CMD_READ h) :: address_frames address);
             EV_RECEIVE (Z.to_nat count);
             EV_UNSELECT; EV_RELEASE_BUS; EV_RELEASE].
Proof.
  intros Hbuf Hpre Hdata Hans.
  destruct (four_answers pre Hpre) as (a0 & a1 & a2 & a3 & ->).
  unfold ExternalFlash_ReadBuffer.
  destruct w as [b a t]. cbn in Hans. subst a.
  destruct (u8_address_frames address) as (U2 & U1 & U0).
  cbn [bind log spiPolledExchange set_flash_tmp get_flash_tmp fw_answers
       fw_bus fw_tmp ret app map seq upd Nat.eqb].
  rewrite U0, U1, U2.
  erewrite bind_ok;
    [|apply (spiSend_mk 4 _ [a0; a1; a2; a3]); cbn; lia].
  erewrite bind_ok; [|apply spiReceive_mk; assumption].
  unfold log, bind, ret. cbn [fw_answers fw_bus fw_tmp].
  eexists. split; [reflexivity|]. split; [reflexivity|].
  cbn [fw_bus firstn address_frames]. repeat rewrite <- app_assoc.
  cbn [app]. reflexivity.
Qed.

End FlashTransfers.

(** X17: the page write.  Both page-write functions halt the system, with
    nothing put on the bus, when the byte count is not below
    [config->num_pages].  Otherwise, with a buffer of at least [count] bytes
    and a device that ends its write, both return and both have sent the
    same frames: write enable, page program, the three address bytes, the
    first [count] bytes of the buffer, and one status poll per answer up to
    the first idle one. *)
Theorem page_write (h : Flash_Header) (config : ExternalFlashConfig)
  (buffer : list Z) (address count : Z) (w : Flash_World)
  (pre data : list Z) (polls : list (Z * Z)) (r st : Z) (rest : list Z) :
  ((num_pages config <= count)%Z ->
   ExternalFlash_WritePagePolling h config buffer address count w
   = Fault HALT_WRITE_TOO_BIG w
   /\ ExternalFlash_WritePage h config buffer address count w
      = Fault HALT_WRITE_TOO_BIG w)
  /\ ((count < num_pages config)%Z ->
      (0 <= FLASH_CMD_PAGE_PROGRAM h < 256)%Z ->
      (Z.to_nat count <= length buffer)%nat ->
      length pre = 5%nat -> length data = Z.to_nat count ->
      Forall (fun p => busy h (snd p) = true) polls -> busy h st = false ->
      fw_answers w = pre ++ data ++ poll_answers polls ++ r :: st :: rest ->
      exists w1 w2 : Flash_World,
        ExternalFlash_WritePagePolling h config buffer address count w
        = Ok tt w1
        /\ ExternalFlash_WritePage h config buffer address count w = Ok tt w2
        /\ fw_answers w1 = rest /\ fw_answers w2 = rest
        /\ mosi (fw_bus w1)
           = mosi (fw_bus w)
             ++ [FLASH_CMD_WREN h; FLASH_CMD_PAGE_PROGRAM h]
             ++ address_frames address
             ++ firstn (Z.to_nat count) buffer
             ++ concat (repeat [FLASH_CMD_RDSR h; FLASH_DUMMY_BYTE h]
                          (S (length polls)))
        /\ mosi (fw_bus w2) = mosi (fw_bus w1)).
Proof.
  split.
  - intro H. unfold ExternalFlash_WritePagePolling, ExternalFlash_WritePage.
    rewrite (proj2 (Z.geb_le count (num_pages config))) by exact H.
    split; reflexivity.
  - intros Hc Hpp Hbuf Hpre Hdata Hbusy Hidle Hans.
    pose proof (WritePagePolling_run h config buffer address count w pre data
                  polls r st rest Hc Hbuf Hpre Hdata Hbusy Hidle Hans) as E1.
    destruct (WritePage_run h config buffer address count w pre data
                polls r st rest Hc Hbuf Hpre Hdata Hbusy Hidle Hans)
      as (w2 & E2 & A2 & B2).
    eexists. exists w2. split; [exact E1|]. split; [exact E2|].
    split; [reflexivity|]. split; [exact A2|].
    assert (u8 (FLASH_CMD_PAGE_PROGRAM h) = FLASH_CMD_PAGE_PROGRAM h) as U
      by (apply Z.mod_small; exact Hpp).
    rewrite B2, U. cbn [extend fw_bus].
    rewrite !mosi_app, !mosi_exchanges, !mosi_polls.
    cbn [mosi flat_map frames_out app].
    rewrite !app_nil_r. repeat rewrite <- app_assoc.
    split; reflexivity.
Qed.

(** Three bytes written at address 01ABCDEF (hexadecimal): the top address
    byte is not sent, the device is busy for two polls, and the polled and
    the DMA write send the same frames. *)
Lemma page_write_witness :
  mosi (fw_bus match ExternalFlash_WritePage m25p_header m25p_config
                       [1; 2; 3]%Z 0x01ABCDEF 3
                       (world_answering
                          [0; 0; 0; 0; 0; 0; 0; 0; 0; 1; 0; 3; 0; 0; 9]%Z)
               with Ok _ w' => w' | Fault _ w' => w' end)
  = [0x06; 0x02; 0xAB; 0xCD; 0xEF; 1; 2; 3; 0x05; 0xA5; 0x05; 0xA5; 0x05;
     0xA5]%Z.
Proof.
  assert (3 < num_pages m25p_config)%Z as Hc by (cbn; lia).
  assert (0 <= FLASH_CMD_PAGE_PROGRAM m25p_header < 256)%Z as Hpp
    by (cbn; lia).
  assert (Z.to_nat 3 <= length [1; 2; 3]%Z)%nat as Hbuf by (cbn; lia).
  assert (Forall (fun p => busy m25p_header (snd p) = true)
                 [(0, 1); (0, 3)]%Z) as Hb by (repeat constructor).
  destruct (proj2 (page_write m25p_header m25p_config [1; 2; 3]%Z
                     0x01ABCDEF 3
                     (world_answering
                        [0; 0; 0; 0; 0; 0; 0; 0; 0; 1; 0; 3; 0; 0; 9]%Z)
                     [0; 0; 0; 0; 0]%Z [0; 0; 0]%Z [(0, 1); (0, 3)]%Z
                     0 0 [9%Z])
              Hc Hpp Hbuf eq_refl eq_refl Hb eq_refl eq_refl)
    as (w1 & w2 & E1 & E2 & _ & _ & M1 & M2).
  rewrite E2, M2, M1. reflexivity.
Defined.

(** X18: the buffer read.  With a buffer of at least [count] bytes, both
    buffer-read functions return the buffer with its first [count] bytes
    replaced by the device's answers, taken as bytes in the order they
    came, and the rest of the buffer untouched; the polled and the DMA read
    return the same buffer and take the same number of answers. *)
Theorem buffer_read (h : Flash_Header) (buffer : list Z) (address count : Z)
  (w : Flash_World) (pre data rest : list Z) :
  (Z.to_nat count <= length buffer)%nat ->
  length pre = 4%nat -> length data = Z.to_nat count ->
  fw_answers w = pre ++ data ++ rest ->
  exists w1 w2 : Flash_World,
    ExternalFlash_ReadBufferPolling h buffer address count w
    = Ok (map u8 data ++ skipn (Z.to_nat count) buffer) w1
    /\ ExternalFlash_ReadBuffer h buffer address count w
       = Ok (map u8 data ++ skipn (Z.to_nat count) buffer) w2
    /\ fw_answers w1 = rest /\ fw_answers w2 = rest
    /\ length (map u8 data ++ skipn (Z.to_nat count) buffer) = length buffer.
Proof.
  intros Hbuf Hpre Hdata Hans.
  destruct (ReadBufferPolling_run h buffer address count w pre data rest
              Hbuf Hpre Hdata Hans) as (w1 & E1 & A1 & _).
  destruct (ReadBuffer_run h buffer address count w pre data rest
              Hbuf Hpre Hdata Hans) as (w2 & E2 & A2 & _).
  exists w1, w2. repeat split; try assumption.
  rewrite length_app, length_map, length_skipn. lia.
Qed.

(** Three bytes read into a buffer of five: the answer 300 is stored as the
    byte 44, and the last two bytes of the buffer stay. *)
Lemma buffer_read_witness :
  exists w',
    ExternalFlash_ReadBuffer m25p_header [7; 7; 7; 7; 7]%Z 0x10 3
      (world_answering [0; 0; 0; 0; 300; 2; 3; 9]%Z)
    = Ok [44; 2; 3; 7; 7]%Z w'.
Proof.
  assert (Z.to_nat 3 <= length [7; 7; 7; 7; 7]%Z)%nat as Hbuf by (cbn; lia).
  destruct (buffer_read m25p_header [7; 7; 7; 7; 7]%Z 0x10 3
              (world_answering [0; 0; 0; 0; 300; 2; 3; 9]%Z)
              [0; 0; 0; 0]%Z [300; 2; 3]%Z [9%Z] Hbuf eq_refl eq_refl eq_refl)
    as (w1 & w2 & _ & E2 & _).
  exists w2. exact E2.
Defined.

Section FlashDiscipline.

Variable h : Flash_Header.
Variable config : ExternalFlashConfig.

Lemma bus_run_app (st : Bus_State) (e1 e2 : list Bus_Event) :
  bus_run st (e1 ++ e2)
  = match bus_run st e1 with
    | Some st1 => bus_run st1 e2
    | None => None
    end.
Proof.
  revert st. induction e1 as [|e e1 IH]; intro st; cbn; [reflexivity|].
  destruct (bus_step st e); [apply IH | reflexivity].
Qed.

Lemma reached_follows (st : Bus_State) (events : list Bus_Event) :
  bus_run bus_idle events = Some st -> follows_discipline events = true.
Proof. intro H. unfold follows_discipline. rewrite H. reflexivity. Qed.

Lemma conforms_ret {A : Type} (st : Bus_State) (a : A) :
  conforms st st (ret a).
Proof. intros w H. exact H. Qed.

Lemma conforms_fault {A : Type} (st st' : Bus_State) (k : Fault_Kind) :
  conforms st st' (@fault A k).
Proof. intros w H. cbn. exact (reached_follows st _ H). Qed.

Lemma conforms_bind {A B : Type} (a b c : Bus_State) (m : Flash A)
  (k : A -> Flash B) :
  conforms a b m -> (forall x, conforms b c (k x)) -> conforms a c (bind m k).
Proof.
  intros Hm Hk w H. unfold bind. specialize (Hm w H).
  destruct (m w) as [x w'|f w']; [apply (Hk x w' Hm) | exact Hm].
Qed.

Lemma conforms_log (st st' : Bus_State) (e : Bus_Event) :
  bus_step st e = Some st' -> conforms st st' (log e).
Proof.
  intros He w H. cbn. rewrite bus_run_app, H. cbn. rewrite He. reflexivity.
Qed.

Lemma conforms_exchange (frame : Z) :
  conforms (mk_bus true true true) (mk_bus true true true)
    (spiPolledExchange frame).
Proof.
  intros w H. unfold spiPolledExchange.
  destruct (fw_answers w); cbn.
  - exact (reached_follows _ _ H).
  - rewrite bus_run_app, H. reflexivity.
Qed.

Lemma conforms_send (n : nat) (buffer : list Z) :
  conforms (mk_bus true true true) (mk_bus true true true) (spiSend n buffer).
Proof.
  intros w H. unfold spiSend.
  destruct (length buffer <? n)%nat; [exact (reached_follows _ _ H)|].
  destruct (length (fw_answers w) <? n)%nat;
    [exact (reached_follows _ _ H)|].
  cbn. rewrite bus_run_app, H. reflexivity.
Qed.

Lemma conforms_receive (n : nat) (buffer : list Z) :
  conforms (mk_bus true true true) (mk_bus true true true)
    (spiReceive n buffer).
Proof.
  intros w H. unfold spiReceive.
  destruct (length buffer <? n)%nat; [exact (reached_follows _ _ H)|].
  destruct (length (fw_answers w) <? n)%nat;
    [exact (reached_follows _ _ H)|].
  cbn. rewrite bus_run_app, H. reflexivity.
Qed.

Lemma conforms_set_tmp (st : Bus_State) (i : nat) (v : Z) :
  conforms st st (set_flash_tmp i v).
Proof. intros w H. exact H. Qed.

Lemma conforms_get_tmp (st : Bus_State) : conforms st st get_flash_tmp.
Proof. intros w H. exact H. Qed.

(** Walks a sequence of driver calls, one rule per call. *)
Ltac walk :=
  repeat first
    [ apply conforms_ret
    | apply conforms_fault
    | apply conforms_exchange
    | apply conforms_send
    | apply conforms_receive
    | apply conforms_set_tmp
    | apply conforms_get_tmp
    | apply conforms_log; reflexivity
    | eapply conforms_bind; [|intro] ].

Lemma conforms_write_loop (n : nat) : forall buffer : list Z,
  conforms (mk_bus true true true) (mk_bus true true true)
    (write_loop n buffer).
Proof.
  induction n as [|n IH]; intro buffer; cbn [write_loop]; [walk|].
  destruct buffer; [walk|].
  eapply conforms_bind; [apply conforms_exchange | intro; apply IH].
Qed.

Lemma conforms_read_loop (n : nat) : forall buffer : list Z,
  conforms (mk_bus true true true) (mk_bus true true true)
    (read_loop h n buffer).
Proof.
  induction n as [|n IH]; intro buffer; cbn [read_loop]; [walk|].
  destruct buffer; [walk|].
  eapply conforms_bind; [apply conforms_exchange | intro].
  eapply conforms_bind; [apply IH | intro; walk].
Qed.

Lemma conforms_send_address (address : Z) :
  conforms (mk_bus true true true) (mk_bus true true true)
    (send_address address).
Proof. unfold send_address. walk. Qed.

Lemma conforms_WriteEnable :
  conforms (mk_bus true false false) (mk_bus true false false)
    (ExternalFlash_WriteEnable h).
Proof. unfold ExternalFlash_WriteEnable. walk. Qed.

Lemma conforms_poll_status (delay_ms : Z) :
  conforms (mk_bus true false false) (mk_bus true false false)
    (poll_status h delay_ms).
Proof.
  unfold poll_status.
  eapply conforms_bind; [destruct (delay_ms =? 0)%Z; walk | intro; walk].
Qed.

Lemma conforms_wait_loop (turns : nat) (delay_ms : Z) :
  conforms (mk_bus true false false) (mk_bus true false false)
    (wait_loop h turns delay_ms).
Proof.
  induction turns as [|turns IH]; cbn [wait_loop]; [walk|].
  eapply conforms_bind; [apply conforms_poll_status | intro wip].
  destruct (Z.land wip (FLASH_WIP_FLAG h) =? 0)%Z; [walk | exact IH].
Qed.

Lemma conforms_WaitForWriteEnd (delay_ms : Z) :
  conforms (mk_bus true false false) (mk_bus true false false)
    (ExternalFlash_WaitForWriteEnd h delay_ms).
Proof.
  intros w H. unfold ExternalFlash_WaitForWriteEnd.
  apply conforms_wait_loop. exact H.
Qed.

(** Walks a driver function, with its loops and helpers as single steps. *)
Ltac walk_driver :=
  repeat first
    [ apply conforms_WriteEnable
    | apply conforms_WaitForWriteEnd
    | apply conforms_send_address
    | apply conforms_write_loop
    | apply conforms_read_loop
    | apply conforms_ret
    | apply conforms_fault
    | apply conforms_exchange
    | apply conforms_send
    | apply conforms_receive
    | apply conforms_set_tmp
    | apply conforms_get_tmp
    | apply conforms_log; reflexivity
    | eapply conforms_bind; [|intro] ].

Lemma conforms_run_op (op : Flash_Op) :
  conforms bus_idle bus_idle (run_op h config op).
Proof.
  destruct op; cbn [run_op];
    unfold ExternalFlashInit, ExternalFlash_ReadID, ExternalFlash_EraseBulk,
      ExternalFlash_EraseSector, ExternalFlash_ErasePage,
      ExternalFlash_WritePagePolling, ExternalFlash_WritePage,
      ExternalFlash_ReadBufferPolling, ExternalFlash_ReadBuffer, discard,
      bus_idle;
    try match goal with
        | |- context [(?c >=? ?n)%Z] => destruct (c >=? n)%Z
        end;
    walk_driver;
    try match goal with
        | |- context [(?a =? ?b)%Z] => destruct (a =? b)%Z
        end;
    walk_driver.
Qed.

End FlashDiscipline.

(** X19: the driver keeps to the bus discipline.  Whatever the arguments
    and whatever the device answers, each entry point of the driver, run
    after a record that follows the discipline with everything given back,
    claims the flash before it acquires the bus, acquires the bus before it
    selects the chip, clocks frames only while the chip is selected, sleeps
    only without the bus, and, when it returns, has deselected the chip and
    given back the bus and the flash. *)
Theorem driver_keeps_bus_discipline (h : Flash_Header)
  (config : ExternalFlashConfig) (op : Flash_Op) (w : Flash_World) :
  well_bracketed (fw_bus w) = true ->
  match run_op h config op w with
  | Ok _ w' => well_bracketed (fw_bus w') = true
  | Fault _ w' => follows_discipline (fw_bus w') = true
  end.
Proof.
  intro H.
  assert (bus_run bus_idle (fw_bus w) = Some bus_idle) as H0.
  { unfold well_bracketed, is_idle in H.
    destruct (bus_run bus_idle (fw_bus w)) as [[[|] [|] [|]]|];
      try discriminate H. reflexivity. }
  pose proof (conforms_run_op h config op w H0) as C.
  destruct (run_op h config op w); [|exact C].
  unfold well_bracketed. rewrite C. reflexivity.
Qed.

(** A sector erase on a fresh bus with a device that is busy once: the
    record of the run is well bracketed. *)
Lemma driver_keeps_bus_discipline_witness :
  match run_op m25p_header m25p_config (OP_EraseSector 0x10000)
          (world_answering [0; 0; 0; 0; 0; 0; 1; 0; 0]%Z) with
  | Ok _ w' => well_bracketed (fw_bus w') = true
  | Fault _ w' => follows_discipline (fw_bus w') = true
  end.
Proof.
  exact (driver_keeps_bus_discipline m25p_header m25p_config
           (OP_EraseSector 0x10000)
           (world_answering [0; 0; 0; 0; 0; 0; 1; 0; 0]%Z) eq_refl).
Defined.
